(** * Flooding and drying up of water tiles (water_cmd.cpp)

    A shallow embedding of the flood engine of [src/water_cmd.cpp]:
    the slope table [_flood_from_dirs], the classifier
    [GetFloodingBehaviour], the propagator [DoFloodTile], the reducer
    [DoDryUp] and the entry point [TileLoop_Water], together with the
    helpers of the same file they call ([FloodVehicles],
    [MarkCanalsAndRiversAroundDirty], [ClearNeighbourNonFloodingStates],
    the coast branch of [ClearTile_Water]).

    The map array is a [list Tile] indexed by [TileIndex]; the calls into
    the rest of the game (redraw, sound, signals, vehicle crashes) are
    recorded in an event trace carried by the state. *)

From stdpp Require Import base decidable option list numbers.
From Stdlib Require Import ZArith Lia.

#[local] Open Scope Z_scope.

(** ** Enumerations *)

Inductive TileType : Set :=
  | MP_CLEAR | MP_RAILWAY | MP_ROAD | MP_HOUSE | MP_TREES | MP_STATION
  | MP_WATER | MP_VOID | MP_INDUSTRY | MP_TUNNELBRIDGE | MP_OBJECT.

Inductive WaterTileType : Set :=
  | WATER_TILE_CLEAR | WATER_TILE_COAST | WATER_TILE_LOCK | WATER_TILE_DEPOT.

Inductive WaterClass : Set :=
  | WATER_CLASS_SEA | WATER_CLASS_CANAL | WATER_CLASS_RIVER | WATER_CLASS_INVALID.

Inductive FloodingBehaviour : Set :=
  | FLOOD_NONE | FLOOD_ACTIVE | FLOOD_PASSIVE | FLOOD_DRYUP.

Inductive RailGroundType : Set :=
  | RAIL_GROUND_BARREN | RAIL_GROUND_GRASS
  | RAIL_GROUND_FENCE_NW | RAIL_GROUND_FENCE_SE | RAIL_GROUND_FENCE_SENW
  | RAIL_GROUND_FENCE_NE | RAIL_GROUND_FENCE_SW | RAIL_GROUND_FENCE_NESW
  | RAIL_GROUND_FENCE_VERT1 | RAIL_GROUND_FENCE_VERT2
  | RAIL_GROUND_FENCE_HORIZ1 | RAIL_GROUND_FENCE_HORIZ2
  | RAIL_GROUND_ICE_DESERT | RAIL_GROUND_WATER | RAIL_GROUND_HALF_SNOW.

Inductive TreeGround : Set :=
  | TREE_GROUND_GRASS | TREE_GROUND_ROUGH | TREE_GROUND_SNOW_DESERT
  | TREE_GROUND_SHORE | TREE_GROUND_ROUGH_SNOW.

Inductive ClearGround : Set :=
  | CLEAR_GRASS | CLEAR_ROUGH | CLEAR_ROCKS | CLEAR_FIELDS | CLEAR_SNOW | CLEAR_DESERT.

Inductive StationType : Set :=
  | STATION_RAIL | STATION_AIRPORT | STATION_TRUCK | STATION_BUS | STATION_OILRIG
  | STATION_DOCK | STATION_BUOY | STATION_RAIL_WAYPOINT | STATION_ROAD_WAYPOINT.

Inductive VehicleType : Set :=
  | VEH_TRAIN | VEH_ROAD | VEH_SHIP | VEH_AIRCRAFT | VEH_EFFECT | VEH_DISASTER.

Inductive Owner : Set :=
  | OWNER_COMPANY (c : Z) | OWNER_TOWN | OWNER_NONE | OWNER_WATER.

(** The eight directions, in the order of the enumeration
    ([DIR_BEGIN = DIR_N], [DIR_END] after [DIR_NW]). *)
Inductive Direction : Set :=
  | DIR_N | DIR_NE | DIR_E | DIR_SE | DIR_S | DIR_SW | DIR_W | DIR_NW.

#[global] Instance TileType_eq_dec : EqDecision TileType.
Proof. solve_decision. Defined.
#[global] Instance WaterTileType_eq_dec : EqDecision WaterTileType.
Proof. solve_decision. Defined.
#[global] Instance WaterClass_eq_dec : EqDecision WaterClass.
Proof. solve_decision. Defined.
#[global] Instance FloodingBehaviour_eq_dec : EqDecision FloodingBehaviour.
Proof. solve_decision. Defined.
#[global] Instance RailGroundType_eq_dec : EqDecision RailGroundType.
Proof. solve_decision. Defined.
#[global] Instance TreeGround_eq_dec : EqDecision TreeGround.
Proof. solve_decision. Defined.
#[global] Instance ClearGround_eq_dec : EqDecision ClearGround.
Proof. solve_decision. Defined.
#[global] Instance StationType_eq_dec : EqDecision StationType.
Proof. solve_decision. Defined.
#[global] Instance VehicleType_eq_dec : EqDecision VehicleType.
Proof. solve_decision. Defined.
#[global] Instance Owner_eq_dec : EqDecision Owner.
Proof. solve_decision. Defined.
#[global] Instance Direction_eq_dec : EqDecision Direction.
Proof. solve_decision. Defined.

(** ** Slopes

    A [Slope] is a bit set: one bit per raised corner, a bit for steep
    slopes and three bits used by half-tile foundations.  The corner
    values are the ones the comments of [_flood_from_dirs] spell out
    (index 1 is [SLOPE_W], 2 is [SLOPE_S], 4 is [SLOPE_E], 8 is
    [SLOPE_N]). *)

Definition Slope := Z.

Definition SLOPE_FLAT : Slope := 0.
Definition SLOPE_W : Slope := 1.
Definition SLOPE_S : Slope := 2.
Definition SLOPE_E : Slope := 4.
Definition SLOPE_N : Slope := 8.
Definition SLOPE_STEEP : Slope := 16.
Definition SLOPE_SW : Slope := Z.lor SLOPE_S SLOPE_W.
Definition SLOPE_EW : Slope := Z.lor SLOPE_E SLOPE_W.
Definition SLOPE_SE : Slope := Z.lor SLOPE_S SLOPE_E.
Definition SLOPE_NW : Slope := Z.lor SLOPE_N SLOPE_W.
Definition SLOPE_NS : Slope := Z.lor SLOPE_N SLOPE_S.
Definition SLOPE_NE : Slope := Z.lor SLOPE_N SLOPE_E.
Definition SLOPE_WSE : Slope := Z.lor SLOPE_SW SLOPE_E.
Definition SLOPE_NWS : Slope := Z.lor SLOPE_NW SLOPE_S.
Definition SLOPE_ENW : Slope := Z.lor SLOPE_NE SLOPE_W.
Definition SLOPE_SEN : Slope := Z.lor SLOPE_SE SLOPE_N.
Definition SLOPE_STEEP_S : Slope := Z.lor SLOPE_STEEP SLOPE_WSE.
Definition SLOPE_HALFTILE_MASK : Slope := 224.

Definition IsSlopeWithOneCornerRaised (s : Slope) : bool :=
  (s =? SLOPE_W) || (s =? SLOPE_S) || (s =? SLOPE_E) || (s =? SLOPE_N).

Definition IsSteepSlope (s : Slope) : bool := negb (Z.land s SLOPE_STEEP =? 0).

(** ** Directions *)

Definition all_directions : list Direction :=
  [DIR_N; DIR_NE; DIR_E; DIR_SE; DIR_S; DIR_SW; DIR_W; DIR_NW].

(** [ReverseDir d] is [4 ^ d] on the enumeration values. *)
Definition ReverseDir (d : Direction) : Direction :=
  match d with
  | DIR_N => DIR_S | DIR_NE => DIR_SW | DIR_E => DIR_W | DIR_SE => DIR_NW
  | DIR_S => DIR_N | DIR_SW => DIR_NE | DIR_W => DIR_E | DIR_NW => DIR_SE
  end.

Definition IsDiagonalDirection (d : Direction) : bool :=
  match d with
  | DIR_NE | DIR_SE | DIR_SW | DIR_NW => true
  | _ => false
  end.

(** Modelled from the spec: the table behind [TileIndexDiffCByDir]
    (map.cpp is not among the sources); the offsets, as (x, y), are those
    of the grid's coordinate convention, where the four diagonal
    directions are the edge neighbours. *)
Definition TileIndexDiffCByDir (d : Direction) : Z * Z :=
  match d with
  | DIR_N => (-1, -1) | DIR_NE => (-1, 0) | DIR_E => (-1, 1) | DIR_SE => (0, 1)
  | DIR_S => (1, 1) | DIR_SW => (1, 0) | DIR_W => (1, -1) | DIR_NW => (0, -1)
  end.

(** ** The slope table

    [_flood_from_dirs]: from which directions a slope can be flooded.
    A [Directions] set is a list here; the only loop over such a set
    (in the dry-up branch) has a body without effects, so the order of
    the elements is immaterial. *)
Definition _flood_from_dirs : list (list Direction) :=
  [ [DIR_NW; DIR_SW; DIR_SE; DIR_NE]  (* SLOPE_FLAT *)
  ; [DIR_NE; DIR_SE]                  (* SLOPE_W *)
  ; [DIR_NW; DIR_NE]                  (* SLOPE_S *)
  ; [DIR_NE]                          (* SLOPE_SW *)
  ; [DIR_NW; DIR_SW]                  (* SLOPE_E *)
  ; []                                (* SLOPE_EW *)
  ; [DIR_NW]                          (* SLOPE_SE *)
  ; [DIR_N; DIR_NW; DIR_NE]           (* SLOPE_WSE, SLOPE_STEEP_S *)
  ; [DIR_SW; DIR_SE]                  (* SLOPE_N *)
  ; [DIR_SE]                          (* SLOPE_NW *)
  ; []                                (* SLOPE_NS *)
  ; [DIR_E; DIR_NE; DIR_SE]           (* SLOPE_NWS, SLOPE_STEEP_W *)
  ; [DIR_SW]                          (* SLOPE_NE *)
  ; [DIR_S; DIR_SW; DIR_SE]           (* SLOPE_ENW, SLOPE_STEEP_N *)
  ; [DIR_W; DIR_SW; DIR_NW]           (* SLOPE_SEN, SLOPE_STEEP_E *)
  ].

(** [slope & ~SLOPE_HALFTILE_MASK & ~SLOPE_STEEP] *)
Definition table_slope (s : Slope) : Slope :=
  Z.land (Z.land s (Z.lnot SLOPE_HALFTILE_MASK)) (Z.lnot SLOPE_STEEP).

(** [_flood_from_dirs[s]]; the table has fifteen entries and no slope has
    all four corner bits set, an index past the end reads the empty set. *)
Definition flood_from_dirs (s : Slope) : list Direction :=
  if s <? 0 then [] else default [] (_flood_from_dirs !! Z.to_nat s).

(** [Directions::Test] *)
Definition dirs_test (ds : list Direction) (d : Direction) : bool :=
  bool_decide (d ∈ ds).

(** ** The map array *)

Definition TileIndex := Z.

Definition INVALID_TILE : TileIndex := 4294967295.

(** One entry of the map array, with the fields the flood engine reads or
    writes.  [tile_slope] and [tile_z] are what [GetTileSlope] and
    [GetTileZ] compute from the height map, which the engine never
    writes.  [tile_foundation] is the foundation reported by the
    [get_foundation_proc] of the tile's type, already applied to the
    slope: the slope on top of the foundation and the height it adds
    ([None] for [FOUNDATION_NONE]). *)
Record Tile : Set := mkTile {
  tile_type : TileType;
  tile_slope : Slope;
  tile_z : Z;
  tile_foundation : option (Slope * Z);
  water_class : WaterClass;
  water_tile_type : WaterTileType;
  non_flooding : bool;
  plain_rail : bool;
  rail_ground : RailGroundType;
  track_bits : Z;
  tree_ground : TreeGround;
  tree_density : Z;
  clear_ground : ClearGround;
  clear_density : Z;
  station_type : StationType;
  station_index : Z;
  airport_delta_z : Z;
  is_bridge : bool;
  other_bridge_end : TileIndex;
  bridge_pixel_height : Z
}.

(** A tile of the given type with every type specific field zeroed. *)
Definition blank_tile (ty : TileType) (sl : Slope) (z : Z) : Tile :=
  {| tile_type := ty; tile_slope := sl; tile_z := z; tile_foundation := None;
     water_class := WATER_CLASS_INVALID; water_tile_type := WATER_TILE_CLEAR;
     non_flooding := false;
     plain_rail := false; rail_ground := RAIL_GROUND_BARREN; track_bits := 0;
     tree_ground := TREE_GROUND_GRASS; tree_density := 0;
     clear_ground := CLEAR_GRASS; clear_density := 0;
     station_type := STATION_RAIL; station_index := 0; airport_delta_z := 0;
     is_bridge := false; other_bridge_end := 0; bridge_pixel_height := 0 |}.

Definition void_tile : Tile := blank_tile MP_VOID SLOPE_FLAT 0.

Definition set_non_flooding (b : bool) (t : Tile) : Tile :=
  {| tile_type := tile_type t; tile_slope := tile_slope t; tile_z := tile_z t;
     tile_foundation := tile_foundation t;
     water_class := water_class t; water_tile_type := water_tile_type t;
     non_flooding := b;
     plain_rail := plain_rail t; rail_ground := rail_ground t;
     track_bits := track_bits t;
     tree_ground := tree_ground t; tree_density := tree_density t;
     clear_ground := clear_ground t; clear_density := clear_density t;
     station_type := station_type t; station_index := station_index t;
     airport_delta_z := airport_delta_z t;
     is_bridge := is_bridge t; other_bridge_end := other_bridge_end t;
     bridge_pixel_height := bridge_pixel_height t |}.

Definition set_rail_ground (g : RailGroundType) (t : Tile) : Tile :=
  {| tile_type := tile_type t; tile_slope := tile_slope t; tile_z := tile_z t;
     tile_foundation := tile_foundation t;
     water_class := water_class t; water_tile_type := water_tile_type t;
     non_flooding := non_flooding t;
     plain_rail := plain_rail t; rail_ground := g;
     track_bits := track_bits t;
     tree_ground := tree_ground t; tree_density := tree_density t;
     clear_ground := clear_ground t; clear_density := clear_density t;
     station_type := station_type t; station_index := station_index t;
     airport_delta_z := airport_delta_z t;
     is_bridge := is_bridge t; other_bridge_end := other_bridge_end t;
     bridge_pixel_height := bridge_pixel_height t |}.

Definition set_tree_ground_density (g : TreeGround) (d : Z) (t : Tile) : Tile :=
  {| tile_type := tile_type t; tile_slope := tile_slope t; tile_z := tile_z t;
     tile_foundation := tile_foundation t;
     water_class := water_class t; water_tile_type := water_tile_type t;
     non_flooding := non_flooding t;
     plain_rail := plain_rail t; rail_ground := rail_ground t;
     track_bits := track_bits t;
     tree_ground := g; tree_density := d;
     clear_ground := clear_ground t; clear_density := clear_density t;
     station_type := station_type t; station_index := station_index t;
     airport_delta_z := airport_delta_z t;
     is_bridge := is_bridge t; other_bridge_end := other_bridge_end t;
     bridge_pixel_height := bridge_pixel_height t |}.

(** Modelled from the spec: [MakeClear] (clear_map.h is not among the
    sources): the tile becomes plain land with the given ground cover;
    the height map is untouched. *)
Definition make_clear (g : ClearGround) (d : Z) (t : Tile) : Tile :=
  {| tile_type := MP_CLEAR; tile_slope := tile_slope t; tile_z := tile_z t;
     tile_foundation := None;
     water_class := WATER_CLASS_INVALID; water_tile_type := WATER_TILE_CLEAR;
     non_flooding := false;
     plain_rail := false; rail_ground := RAIL_GROUND_BARREN; track_bits := 0;
     tree_ground := TREE_GROUND_GRASS; tree_density := 0;
     clear_ground := g; clear_density := d;
     station_type := STATION_RAIL; station_index := 0; airport_delta_z := 0;
     is_bridge := false; other_bridge_end := 0; bridge_pixel_height := 0 |}.

(** Modelled from the spec: [MakeShore] and [MakeSea] (water_map.h is not
    among the sources): the tile becomes a water tile of class sea, a
    coast for [MakeShore] and open water for [MakeSea], with the
    non-flooding state cleared. *)
Definition make_water (wtt : WaterTileType) (t : Tile) : Tile :=
  {| tile_type := MP_WATER; tile_slope := tile_slope t; tile_z := tile_z t;
     tile_foundation := None;
     water_class := WATER_CLASS_SEA; water_tile_type := wtt;
     non_flooding := false;
     plain_rail := false; rail_ground := RAIL_GROUND_BARREN; track_bits := 0;
     tree_ground := TREE_GROUND_GRASS; tree_density := 0;
     clear_ground := CLEAR_GRASS; clear_density := 0;
     station_type := STATION_RAIL; station_index := 0; airport_delta_z := 0;
     is_bridge := false; other_bridge_end := 0; bridge_pixel_height := 0 |}.

(** ** Vehicles *)

(** [veh_shadow] stands for [subtype == AIR_SHADOW]; [veh_first] is the
    position, in the vehicle pool, of the head of the vehicle's chain
    ([First()]). *)
Record Vehicle : Set := mkVehicle {
  veh_type : VehicleType;
  veh_shadow : bool;
  veh_tile : TileIndex;
  veh_z_pos : Z;
  veh_crashed : bool;
  veh_first : nat
}.

Definition set_crashed (v : Vehicle) : Vehicle :=
  {| veh_type := veh_type v; veh_shadow := veh_shadow v; veh_tile := veh_tile v;
     veh_z_pos := veh_z_pos v; veh_crashed := true; veh_first := veh_first v |}.

(** ** Calls into the rest of the game *)

Inductive Event : Set :=
  | EvAmbientSoundEffect (t : TileIndex)
  | EvMarkTileDirty (t : TileIndex)
  | EvFloodVehiclesOnTile (t : TileIndex) (z : Z)
  | EvVehicleFlooded (v : nat)
  | EvUpdateSignals
  | EvInvalidateWaterRegion (t : TileIndex).

#[global] Instance Event_eq_dec : EqDecision Event.
Proof. solve_decision. Defined.

(** ** The state of the game the engine works on *)

Record State : Type := mkState {
  map_size_x : Z;
  map_size_y : Z;
  tiles : list Tile;
  vehicles : list Vehicle;
  current_company : Owner;
  events : list Event
}.

Definition set_tiles (ts : list Tile) (s : State) : State :=
  {| map_size_x := map_size_x s; map_size_y := map_size_y s; tiles := ts;
     vehicles := vehicles s; current_company := current_company s;
     events := events s |}.

Definition set_vehicles (vs : list Vehicle) (s : State) : State :=
  {| map_size_x := map_size_x s; map_size_y := map_size_y s; tiles := tiles s;
     vehicles := vs; current_company := current_company s;
     events := events s |}.

Definition set_current_company (o : Owner) (s : State) : State :=
  {| map_size_x := map_size_x s; map_size_y := map_size_y s; tiles := tiles s;
     vehicles := vehicles s; current_company := o;
     events := events s |}.

Definition emit (e : Event) (s : State) : State :=
  {| map_size_x := map_size_x s; map_size_y := map_size_y s; tiles := tiles s;
     vehicles := vehicles s; current_company := current_company s;
     events := events s ++ [e] |}.

(** Reading and writing the map array. *)
Definition tile_at (s : State) (t : TileIndex) : Tile :=
  default void_tile (tiles s !! Z.to_nat t).

Definition update_tile (f : Tile -> Tile) (t : TileIndex) (s : State) : State :=
  set_tiles (alter f (Z.to_nat t) (tiles s)) s.

(** *** Map geometry (map_func.h) *)

Definition Map_Size (s : State) : Z := map_size_x s * map_size_y s.
Definition TileX (s : State) (t : TileIndex) : Z := t mod map_size_x s.
Definition TileY (s : State) (t : TileIndex) : Z := t / map_size_x s.
Definition TileXY (s : State) (x y : Z) : TileIndex := y * map_size_x s + x.

(** [tile + TileOffsByDir(dir)], on 32 bit unsigned tile indices. *)
Definition TileOffsByDir (s : State) (d : Direction) : Z :=
  let '(dx, dy) := TileIndexDiffCByDir d in dy * map_size_x s + dx.

Definition tile_add (t : TileIndex) (diff : Z) : TileIndex :=
  (t + diff) mod 4294967296.

(** Modelled from the spec: [AddTileIndexDiffCWrap] (map_func.h is not
    among the sources): the neighbour coordinate, or [INVALID_TILE] when
    it falls outside the map; both loops of [TileLoop_Water] test for
    such a result and skip it.  The properties below hold whatever this
    function does at the edge of the map, and the examples stay away
    from the edge. *)
Definition AddTileIndexDiffCWrap (s : State) (t : TileIndex) (diff : Z * Z) : TileIndex :=
  let x := TileX s t + fst diff in
  let y := TileY s t + snd diff in
  if (x <? 0) || (map_size_x s <=? x) || (y <? 0) || (map_size_y s <=? y)
  then INVALID_TILE
  else TileXY s x y.

(** *** Accessors (tile_map.h, water_map.h, rail_map.h, tree_map.h, station_map.h) *)

Definition GetTileType (s : State) (t : TileIndex) : TileType := tile_type (tile_at s t).
Definition IsTileType (s : State) (t : TileIndex) (ty : TileType) : bool :=
  bool_decide (GetTileType s t = ty).
Definition IsValidTile (s : State) (t : TileIndex) : bool :=
  (t <? Map_Size s) && negb (IsTileType s t MP_VOID).
Definition GetTileSlope (s : State) (t : TileIndex) : Slope := tile_slope (tile_at s t).
Definition GetTileZ (s : State) (t : TileIndex) : Z := tile_z (tile_at s t).
Definition GetWaterClass (s : State) (t : TileIndex) : WaterClass := water_class (tile_at s t).
Definition GetWaterTileType (s : State) (t : TileIndex) : WaterTileType :=
  water_tile_type (tile_at s t).
Definition IsCoast (s : State) (t : TileIndex) : bool :=
  bool_decide (GetWaterTileType s t = WATER_TILE_COAST).
Definition IsCanal (s : State) (t : TileIndex) : bool :=
  bool_decide (GetWaterTileType s t = WATER_TILE_CLEAR)
  && bool_decide (GetWaterClass s t = WATER_CLASS_CANAL).
Definition IsRiver (s : State) (t : TileIndex) : bool :=
  bool_decide (GetWaterTileType s t = WATER_TILE_CLEAR)
  && bool_decide (GetWaterClass s t = WATER_CLASS_RIVER).
Definition IsNonFloodingWaterTile (s : State) (t : TileIndex) : bool :=
  non_flooding (tile_at s t).
Definition IsPlainRail (s : State) (t : TileIndex) : bool := plain_rail (tile_at s t).
Definition GetRailGroundType (s : State) (t : TileIndex) : RailGroundType :=
  rail_ground (tile_at s t).
Definition GetTrackBits (s : State) (t : TileIndex) : Z := track_bits (tile_at s t).
Definition GetTreeGround (s : State) (t : TileIndex) : TreeGround := tree_ground (tile_at s t).
Definition IsBuoy (s : State) (t : TileIndex) : bool :=
  bool_decide (station_type (tile_at s t) = STATION_BUOY).
Definition IsDock (s : State) (t : TileIndex) : bool :=
  bool_decide (station_type (tile_at s t) = STATION_DOCK).
Definition IsAirportTile (s : State) (t : TileIndex) : bool :=
  IsTileType s t MP_STATION && bool_decide (station_type (tile_at s t) = STATION_AIRPORT).
Definition IsBridgeTile (s : State) (t : TileIndex) : bool :=
  IsTileType s t MP_TUNNELBRIDGE && is_bridge (tile_at s t).
Definition GetOtherBridgeEnd (s : State) (t : TileIndex) : TileIndex :=
  other_bridge_end (tile_at s t).
Definition GetBridgePixelHeight (s : State) (t : TileIndex) : Z :=
  bridge_pixel_height (tile_at s t).

(** Modelled from the spec: [GetTileMaxZ] (tile_map.cpp is not among the
    sources): the height of the highest corner, one level above the
    lowest for a sloped tile and two for a steep one. *)
Definition GetTileMaxZ (s : State) (t : TileIndex) : Z :=
  let sl := GetTileSlope s t in
  GetTileZ s t + (if sl =? SLOPE_FLAT then 0 else if IsSteepSlope sl then 2 else 1).

Definition TILE_HEIGHT : Z := 8.

(** [GetFoundationSlope]: the slope and height after the foundation of
    the tile is applied.  For water tiles the foundation is
    [GetFoundation_Water], which is [FOUNDATION_NONE]. *)
Definition GetFoundationSlope (s : State) (t : TileIndex) : Slope * Z :=
  let ti := tile_at s t in
  match tile_type ti with
  | MP_WATER => (tile_slope ti, tile_z ti)
  | _ =>
    match tile_foundation ti with
    | None => (tile_slope ti, tile_z ti)
    | Some (fs, dz) => (fs, tile_z ti + dz)
    end
  end.

(** *** Writers *)

Definition MarkTileDirtyByTile (t : TileIndex) (s : State) : State :=
  emit (EvMarkTileDirty t) s.
Definition SetNonFloodingWaterTile (t : TileIndex) (b : bool) (s : State) : State :=
  update_tile (set_non_flooding b) t s.
Definition SetRailGroundType (t : TileIndex) (g : RailGroundType) (s : State) : State :=
  update_tile (set_rail_ground g) t s.
Definition SetTreeGroundDensity (t : TileIndex) (g : TreeGround) (d : Z) (s : State) : State :=
  update_tile (set_tree_ground_density g d) t s.
Definition MakeClear (t : TileIndex) (g : ClearGround) (d : Z) (s : State) : State :=
  update_tile (make_clear g d) t s.
Definition MakeShore (t : TileIndex) (s : State) : State :=
  update_tile (make_water WATER_TILE_COAST) t s.
Definition MakeSea (t : TileIndex) (s : State) : State :=
  update_tile (make_water WATER_TILE_CLEAR) t s.

(** Modelled from the spec: [DoClearSquare] (landscape.cpp is not among
    the sources): the tile becomes bare grass land and is redrawn. *)
Definition DoClearSquare (t : TileIndex) (s : State) : State :=
  MarkTileDirtyByTile t (MakeClear t CLEAR_GRASS 0 s).

Definition AmbientSoundEffect (t : TileIndex) (s : State) : State :=
  emit (EvAmbientSoundEffect t) s.
Definition UpdateSignalsInBuffer (s : State) : State := emit EvUpdateSignals s.
Definition InvalidateWaterRegion (t : TileIndex) (s : State) : State :=
  emit (EvInvalidateWaterRegion t) s.

(** ** Redrawing and the non-flooding state around a tile *)

Definition MarkTileDirtyIfCanalOrRiver (t : TileIndex) (s : State) : State :=
  if IsValidTile s t && IsTileType s t MP_WATER && (IsCanal s t || IsRiver s t)
  then MarkTileDirtyByTile t s
  else s.

Definition MarkCanalsAndRiversAroundDirty (t : TileIndex) (s : State) : State :=
  foldl (fun acc dir => MarkTileDirtyIfCanalOrRiver (tile_add t (TileOffsByDir acc dir)) acc)
        s all_directions.

Definition ClearNeighbourNonFloodingStates (t : TileIndex) (s : State) : State :=
  foldl (fun acc dir =>
           let dest := tile_add t (TileOffsByDir acc dir) in
           if IsValidTile acc dest && IsTileType acc dest MP_WATER
           then SetNonFloodingWaterTile dest false acc
           else acc)
        s all_directions.

(** ** Flooding vehicles *)

(** The positions, in the vehicle pool, of the vehicles on a tile. *)
Definition VehiclesOnTile (s : State) (t : TileIndex) : list nat :=
  List.filter (fun i => match vehicles s !! i with
                        | Some v => veh_tile v =? t
                        | None => false
                        end)
              (seq 0 (length (vehicles s))).

(** Modelled from the spec: [Vehicle::Crash] (vehicle.cpp is not among
    the sources): the vehicle and the chain it heads are marked crashed;
    the news item, the script events and the explosion of [FloodVehicle]
    are one event of the trace.  The pool of the model holds the
    vehicles there were before the call, each in its place: the effect
    vehicle of the explosion is part of that event and no entry of the
    pool, and nothing is stated about the number of vehicles after a
    flood. *)
Definition FloodVehicle (v : nat) (s : State) : State :=
  emit (EvVehicleFlooded v)
       (set_vehicles
          (imap (fun i u => if bool_decide (i = v) || bool_decide (veh_first u = v)
                            then set_crashed u else u)
                (vehicles s))
          s).

Definition FloodVehicleProc (i : nat) (z : Z) (s : State) : State :=
  match vehicles s !! i with
  | None => s
  | Some v =>
    if veh_crashed v then s
    else
      match veh_type v with
      | VEH_AIRCRAFT =>
        if negb (IsAirportTile s (veh_tile v)) || negb (GetTileMaxZ s (veh_tile v) =? 0) then s
        else if veh_shadow v then s
        else if negb (veh_z_pos v =? airport_delta_z (tile_at s (veh_tile v)) + 1) then s
        else FloodVehicle i s
      | VEH_TRAIN | VEH_ROAD =>
        if z <? veh_z_pos v then s
        else FloodVehicle (veh_first v) s
      | _ => s
      end
  end.

(** Each scan of a tile is recorded in the trace before the vehicles
    found there are handled. *)
Definition FloodVehiclesOnTile (t : TileIndex) (z : Z) (s : State) : State :=
  foldl (fun acc i => FloodVehicleProc i z acc)
        (emit (EvFloodVehiclesOnTile t z) s)
        (VehiclesOnTile s t).

Definition TileBelongsToAirport (s : State) (st : Z) (t : TileIndex) : bool :=
  IsTileType s t MP_STATION
  && (station_index (tile_at s t) =? st)
  && bool_decide (station_type (tile_at s t) = STATION_AIRPORT).

(** The tiles of the airport of station [st]: the station's tile area is
    not part of the map array, the whole map is scanned instead. *)
Definition airport_tiles (s : State) (st : Z) : list TileIndex :=
  List.filter (TileBelongsToAirport s st)
              (map Z.of_nat (seq 0 (length (tiles s)))).

(** The tiles, and the height, at which [FloodVehicles] scans for
    vehicles. *)
Definition FloodVehicles_targets (s : State) (t : TileIndex) : list (TileIndex * Z) :=
  if IsAirportTile s t then
    map (fun a => (a, 0)) (airport_tiles s (station_index (tile_at s t)))
  else if negb (IsBridgeTile s t) then [(t, 0)]
  else
    let end_ := GetOtherBridgeEnd s t in
    let z := GetBridgePixelHeight s t in
    [(t, z); (end_, z)].

Definition FloodVehicles (t : TileIndex) (s : State) : State :=
  foldl (fun acc tz => FloodVehiclesOnTile (fst tz) (snd tz) acc)
        s (FloodVehicles_targets s t).

(** Modelled from the spec: [EnsureNoVehicleOnGround] (vehicle.cpp is not
    among the sources): [true] when no vehicle stands on the ground of
    the tile; disaster vehicles, aircraft shadows and vehicles above the
    highest corner do not count. *)
Definition EnsureNoVehicleOnGround (s : State) (t : TileIndex) : bool :=
  let z := GetTileMaxZ s t * TILE_HEIGHT in
  forallb (fun i => match vehicles s !! i with
                    | None => true
                    | Some v =>
                      bool_decide (veh_type v = VEH_DISASTER)
                      || (bool_decide (veh_type v = VEH_AIRCRAFT) && veh_shadow v)
                      || (z <? veh_z_pos v)
                    end)
          (VehiclesOnTile s t).

(** ** The classifier *)

Definition GetFloodingBehaviour (s : State) (t : TileIndex) : FloodingBehaviour :=
  let sea_or_none :=
    if bool_decide (GetWaterClass s t = WATER_CLASS_SEA) then FLOOD_ACTIVE else FLOOD_NONE in
  match GetTileType s t with
  | MP_WATER =>
    if IsCoast s t then
      let tileh := GetTileSlope s t in
      if IsSlopeWithOneCornerRaised tileh then FLOOD_ACTIVE else FLOOD_DRYUP
    else sea_or_none
  | MP_STATION | MP_INDUSTRY | MP_OBJECT => sea_or_none
  | MP_RAILWAY =>
    if bool_decide (GetRailGroundType s t = RAIL_GROUND_WATER) then
      if IsSlopeWithOneCornerRaised (GetTileSlope s t) then FLOOD_ACTIVE else FLOOD_DRYUP
    else FLOOD_NONE
  | MP_TREES =>
    if bool_decide (GetTreeGround s t = TREE_GROUND_SHORE) then FLOOD_DRYUP else FLOOD_NONE
  | MP_VOID => FLOOD_ACTIVE
  | _ => FLOOD_NONE
  end.

(** ** Clearing a tile *)

(** The coast branch of [ClearTile_Water]; [exec] is
    [DoCommandFlag::Execute], the boolean of the result is
    [Succeeded()]. *)
Definition ClearTile_Water_coast (exec : bool) (t : TileIndex) (s : State) : State * bool :=
  if negb (EnsureNoVehicleOnGround s t) then (s, false)
  else
    (if exec
     then ClearNeighbourNonFloodingStates t
            (MarkCanalsAndRiversAroundDirty t (DoClearSquare t s))
     else s,
     true).

(** Modelled from the spec: [ClearTile_Clear] and [ClearTile_Trees]
    (clear_cmd.cpp and tree_cmd.cpp are not among the sources): clearing
    plain land or trees on behalf of the water owner always succeeds and
    leaves bare land. *)
Definition ClearTile_land (exec : bool) (t : TileIndex) (s : State) : State * bool :=
  (if exec then DoClearSquare t s else s, true).

(** ** The engine

    Two collaborators whose code is not among the sources stay abstract:
    the [clear_tile_proc] of the tile types other than plain land, trees
    and coast (roads, houses, rail, stations, ...), as run by
    [Command<CMD_LANDSCAPE_CLEAR>::Do] with [DoCommandFlag::Execute]
    ([None] when the command fails, the state after it otherwise), and
    [FloodHalftile] of rail_cmd.cpp. *)

Section Engine.

Variable ClearTile_other : TileIndex -> State -> option State.
Variable FloodHalftile : TileIndex -> State -> State * bool.

(** [Command<CMD_LANDSCAPE_CLEAR>::Do(DoCommandFlag::Execute, tile)]: the
    command is tried without [Execute] first and run only when that
    succeeds; it dispatches on the type of the tile. *)
Definition CmdLandscapeClear (t : TileIndex) (s : State) : option State :=
  let run (proc : bool -> TileIndex -> State -> State * bool) :=
    if snd (proc false t s) then
      let '(s', ok) := proc true t s in if ok then Some s' else None
    else None in
  match GetTileType s t with
  | MP_WATER => if IsCoast s t then run ClearTile_Water_coast else ClearTile_other t s
  | MP_CLEAR | MP_TREES => run ClearTile_land
  | _ => ClearTile_other t s
  end.

(** What follows a successful conversion in [DoFloodTile].  The docking
    flag that [CheckForDockingTile] maintains is not part of the
    modelled map array. *)
Definition flood_epilogue (target : TileIndex) (s : State) : State :=
  InvalidateWaterRegion target
    (UpdateSignalsInBuffer (MarkCanalsAndRiversAroundDirty target s)).

(** [DoFloodTile].  The assertion that the target is not a water tile
    holds at its only call site. *)
Definition DoFloodTile (target : TileIndex) (s0 : State) : State :=
  let cur_company := current_company s0 in
  let s := set_current_company OWNER_WATER s0 in
  let tileh := GetTileSlope s target in
  let make_coast :=
    match CmdLandscapeClear target s with
    | Some s' => (MarkTileDirtyByTile target (MakeShore target s'), true)
    | None => (s, false)
    end in
  let '(s1, flooded) :=
    if negb (tileh =? SLOPE_FLAT) then
      match GetTileType s target with
      | MP_RAILWAY =>
        if negb (IsPlainRail s target) then (s, false)
        else FloodHalftile target (FloodVehicles target s)
      | MP_TREES =>
        if negb (IsSlopeWithOneCornerRaised tileh) then
          (MarkTileDirtyByTile target
             (SetTreeGroundDensity target TREE_GROUND_SHORE 3 s), true)
        else make_coast
      | MP_CLEAR => make_coast
      | _ => (s, false)
      end
    else
      let sv := FloodVehicles target s in
      match CmdLandscapeClear target sv with
      | Some s' => (MarkTileDirtyByTile target (MakeSea target s'), true)
      | None => (sv, false)
      end in
  let s2 := if flooded then flood_epilogue target s1 else s1 in
  set_current_company cur_company s2.

Definition TRACK_BIT_UPPER : Z := 4.
Definition TRACK_BIT_LOWER : Z := 8.
Definition TRACK_BIT_LEFT : Z := 16.
Definition TRACK_BIT_RIGHT : Z := 32.

(** The fence that replaces the water ground of a rail tile, keyed by the
    track that is left on it; [None] is [NOT_REACHED()]. *)
Definition dry_rail_ground (bits : Z) : option RailGroundType :=
  if bits =? TRACK_BIT_UPPER then Some RAIL_GROUND_FENCE_HORIZ1
  else if bits =? TRACK_BIT_LOWER then Some RAIL_GROUND_FENCE_HORIZ2
  else if bits =? TRACK_BIT_LEFT then Some RAIL_GROUND_FENCE_VERT1
  else if bits =? TRACK_BIT_RIGHT then Some RAIL_GROUND_FENCE_VERT2
  else None.

(** [DoDryUp]; [None] when an assertion fails or [NOT_REACHED()] is hit. *)
Definition DoDryUp (tile : TileIndex) (s0 : State) : option State :=
  let cur_company := current_company s0 in
  let s := set_current_company OWNER_WATER s0 in
  s1 ← match GetTileType s tile with
       | MP_RAILWAY =>
         if negb (IsPlainRail s tile) then None
         else if negb (bool_decide (GetRailGroundType s tile = RAIL_GROUND_WATER)) then None
         else
           new_ground ← dry_rail_ground (GetTrackBits s tile);
           Some (MarkTileDirtyByTile tile (SetRailGroundType tile new_ground s))
       | MP_TREES =>
         Some (MarkTileDirtyByTile tile (SetTreeGroundDensity tile TREE_GROUND_GRASS 3 s))
       | MP_WATER =>
         if negb (IsCoast s tile) then None
         else
           match CmdLandscapeClear tile s with
           | Some s' => Some (MarkTileDirtyByTile tile (MakeClear tile CLEAR_GRASS 3 s'))
           | None => Some s
           end
       | _ => None
       end;
  Some (set_current_company cur_company s1).

(** One turn of the loop over the directions in the [FLOOD_ACTIVE]
    branch of [TileLoop_Water]; the boolean is [continue_flooding]. *)
Definition flood_dir (tile : TileIndex) (acc : State * bool) (dir : Direction) : State * bool :=
  let '(s, continue_flooding) := acc in
  let dest := AddTileIndexDiffCWrap s tile (TileIndexDiffCByDir dir) in
  if negb (IsValidTile s dest) then (s, continue_flooding)
  else if IsTileType s dest MP_WATER then (s, continue_flooding)
  else if IsTileType s dest MP_STATION && (IsBuoy s dest || IsDock s dest)
  then (s, continue_flooding)
  else if IsTileType s dest MP_TREES
          && bool_decide (GetTreeGround s dest = TREE_GROUND_SHORE)
  then (s, true)
  else
    let '(slope_dest, z_dest) := GetFoundationSlope s dest in
    if 0 <? z_dest then (s, true)
    else if negb (dirs_test (flood_from_dirs (table_slope slope_dest)) (ReverseDir dir))
    then (s, true)
    else (DoFloodTile dest s, true).

(** Whether a neighbour in one of the directions of the slope's entry
    still threatens a tile that is drying up. *)
Definition dryup_blocked_by (s : State) (tile : TileIndex) (dir : Direction) : bool :=
  let dest := AddTileIndexDiffCWrap s tile (TileIndexDiffCByDir dir) in
  if dest =? INVALID_TILE then false
  else
    let dest_behaviour := GetFloodingBehaviour s dest in
    bool_decide (dest_behaviour = FLOOD_ACTIVE) || bool_decide (dest_behaviour = FLOOD_PASSIVE).

(** [TileLoop_Water] *)
Definition TileLoop_Water (tile : TileIndex) (s0 : State) : option State :=
  let s := if IsTileType s0 tile MP_WATER then AmbientSoundEffect tile s0 else s0 in
  if IsTileType s0 tile MP_WATER && IsNonFloodingWaterTile s tile then Some s
  else
    match GetFloodingBehaviour s tile with
    | FLOOD_ACTIVE =>
      let '(s', continue_flooding) := foldl (flood_dir tile) (s, false) all_directions in
      Some (if negb continue_flooding && IsTileType s' tile MP_WATER
            then SetNonFloodingWaterTile tile true s'
            else s')
    | FLOOD_DRYUP =>
      let slope_here := table_slope (fst (GetFoundationSlope s tile)) in
      if existsb (dryup_blocked_by s tile) (flood_from_dirs slope_here) then Some s
      else DoDryUp tile s
    | _ => Some s
    end.

End Engine.

(** ** Example maps

    Maps of 64 by 64 tiles with a border of void tiles, the tiles inside
    given by their coordinates.  Slopes and heights are derived from a
    height map of the tile corners, the way tile_map.cpp does: the north
    corner of tile (x, y) is vertex (x, y), west is (x+1, y), east is
    (x, y+1) and south is (x+1, y+1). *)

Definition set_water_class (wc : WaterClass) (t : Tile) : Tile :=
  {| tile_type := tile_type t; tile_slope := tile_slope t; tile_z := tile_z t;
     tile_foundation := tile_foundation t;
     water_class := wc; water_tile_type := water_tile_type t;
     non_flooding := non_flooding t;
     plain_rail := plain_rail t; rail_ground := rail_ground t;
     track_bits := track_bits t;
     tree_ground := tree_ground t; tree_density := tree_density t;
     clear_ground := clear_ground t; clear_density := clear_density t;
     station_type := station_type t; station_index := station_index t;
     airport_delta_z := airport_delta_z t;
     is_bridge := is_bridge t; other_bridge_end := other_bridge_end t;
     bridge_pixel_height := bridge_pixel_height t |}.

Definition set_plain_rail (bits : Z) (t : Tile) : Tile :=
  {| tile_type := tile_type t; tile_slope := tile_slope t; tile_z := tile_z t;
     tile_foundation := tile_foundation t;
     water_class := water_class t; water_tile_type := water_tile_type t;
     non_flooding := non_flooding t;
     plain_rail := true; rail_ground := rail_ground t;
     track_bits := bits;
     tree_ground := tree_ground t; tree_density := tree_density t;
     clear_ground := clear_ground t; clear_density := clear_density t;
     station_type := station_type t; station_index := station_index t;
     airport_delta_z := airport_delta_z t;
     is_bridge := is_bridge t; other_bridge_end := other_bridge_end t;
     bridge_pixel_height := bridge_pixel_height t |}.

Definition slope_of_heights (h : Z -> Z -> Z) (x y : Z) : Slope * Z :=
  let hn := h x y in
  let hw := h (x + 1) y in
  let he := h x (y + 1) in
  let hs := h (x + 1) (y + 1) in
  let hmin := Z.min (Z.min hn hw) (Z.min he hs) in
  let hmax := Z.max (Z.max hn hw) (Z.max he hs) in
  (Z.lor (Z.lor (if hmin <? hw then SLOPE_W else 0) (if hmin <? hs then SLOPE_S else 0))
         (Z.lor (Z.lor (if hmin <? he then SLOPE_E else 0) (if hmin <? hn then SLOPE_N else 0))
                (if hmax - hmin =? 2 then SLOPE_STEEP else 0)),
   hmin).

Definition land (ty : TileType) (h : Z -> Z -> Z) (x y : Z) : Tile :=
  blank_tile ty (fst (slope_of_heights h x y)) (snd (slope_of_heights h x y)).

Definition sea_tile (h : Z -> Z -> Z) (x y : Z) : Tile :=
  make_water WATER_TILE_CLEAR (land MP_WATER h x y).
Definition coast_tile (h : Z -> Z -> Z) (x y : Z) : Tile :=
  make_water WATER_TILE_COAST (land MP_WATER h x y).
Definition canal_tile (h : Z -> Z -> Z) (x y : Z) : Tile :=
  set_water_class WATER_CLASS_CANAL (sea_tile h x y).
Definition clear_tile (h : Z -> Z -> Z) (x y : Z) : Tile := land MP_CLEAR h x y.
Definition trees_tile (g : TreeGround) (h : Z -> Z -> Z) (x y : Z) : Tile :=
  set_tree_ground_density g 3 (land MP_TREES h x y).
Definition rail_tile (g : RailGroundType) (bits : Z) (h : Z -> Z -> Z) (x y : Z) : Tile :=
  set_rail_ground g (set_plain_rail bits (land MP_RAILWAY h x y)).

Definition example_state (f : Z -> Z -> Tile) (vs : list Vehicle) : State :=
  {| map_size_x := 64; map_size_y := 64;
     tiles := map (fun i => let t := Z.of_nat i in
                            let x := t mod 64 in
                            let y := t / 64 in
                            if (x =? 0) || (y =? 0) || (x =? 63) || (y =? 63)
                            then void_tile else f x y)
                  (seq 0 4096);
     vehicles := vs; current_company := OWNER_NONE; events := [] |}.

(** The tile index of the coordinates (x, y) on these maps. *)
Definition at_xy (x y : Z) : TileIndex := y * 64 + x.

(** In the examples nothing but plain land, trees and coast is ever
    cleared and no rail is flooded: the abstract collaborators are never
    reached, they are instantiated with ones that always fail. *)
Definition no_ClearTile_other : TileIndex -> State -> option State := fun _ _ => None.
Definition no_FloodHalftile : TileIndex -> State -> State * bool := fun _ s => (s, false).

(** A ridge along the diagonal: the corners with x + y <= 10 are at
    height 1, the others at height 0.  Tiles with x + y <= 8 are flat at
    height 1, those with x + y = 9 have three raised corners, those with
    x + y = 10 only the north one, the others are flat at height 0. *)
Definition ridge (vx vy : Z) : Z := if vx + vy <=? 10 then 1 else 0.

(** The low side is sea, the single-corner tiles coast, the rest land. *)
Definition ridge_shore (x y : Z) : Tile :=
  if 11 <=? x + y then sea_tile ridge x y
  else if x + y =? 10 then coast_tile ridge x y
  else clear_tile ridge x y.

(** The same with a canal tile on the high ground at (4, 4). *)
Definition ridge_canal (x y : Z) : Tile :=
  if (x =? 4) && (y =? 4) then canal_tile ridge x y else ridge_shore x y.

(** The same as [ridge_shore] with coast on the three-corner tiles too. *)
Definition ridge_wide_coast (x y : Z) : Tile :=
  if 11 <=? x + y then sea_tile ridge x y
  else if 9 <=? x + y then coast_tile ridge x y
  else clear_tile ridge x y.

(** Sea on the low side, trees on the tile (5, 5) whose north corner
    alone is raised, plain land elsewhere. *)
Definition ridge_trees (x y : Z) : Tile :=
  if 11 <=? x + y then sea_tile ridge x y
  else if (x =? 5) && (y =? 5) then trees_tile TREE_GROUND_GRASS ridge x y
  else clear_tile ridge x y.

(** A step: the corners with x >= 5 are at height 1, the others at
    height 0.  The tiles with x = 4 have their west and south corners
    raised.  A coast tile at (4, 5), away from any sea: everything else
    is plain land. *)
Definition step (vx vy : Z) : Z := if 5 <=? vx then 1 else 0.

Definition step_lone_coast (x y : Z) : Tile :=
  if (x =? 4) && (y =? 5) then coast_tile step x y else clear_tile step x y.

(** A basin: the corners with x <= 6 and y <= 6 are at height 0, the
    others at height 1.  The sea fills the flat part. *)
Definition basin (vx vy : Z) : Z := if (vx <=? 6) && (vy <=? 6) then 0 else 1.

Definition basin_shore (x y : Z) : Tile :=
  if (x <=? 5) && (y <=? 5) then sea_tile basin x y else clear_tile basin x y.

(** Open sea everywhere on flat ground at height 0. *)
Definition flat (vx vy : Z) : Z := 0.
Definition open_sea (x y : Z) : Tile := sea_tile flat x y.

(** A ship on the ground of tile (4, 5). *)
Definition ship_at_4_5 : Vehicle :=
  {| veh_type := VEH_SHIP; veh_shadow := false; veh_tile := at_xy 4 5;
     veh_z_pos := 0; veh_crashed := false; veh_first := 0%nat |}.

(** The same ridge with a half-flooded plain rail tile at (5, 5), the
    tile whose north corner alone is raised. *)
Definition ridge_rail (x y : Z) : Tile :=
  if (x =? 5) && (y =? 5) then rail_tile RAIL_GROUND_WATER 4 ridge x y
  else ridge_shore x y.

Definition ridge_shore_state : State := example_state ridge_shore [].
Definition ridge_canal_state : State := example_state ridge_canal [].
Definition ridge_wide_coast_state : State := example_state ridge_wide_coast [].
Definition ridge_trees_state : State := example_state ridge_trees [].
Definition ridge_rail_state : State := example_state ridge_rail [].
Definition lone_coast_state : State := example_state step_lone_coast [].
Definition lone_coast_ship_state : State := example_state step_lone_coast [ship_at_4_5].
Definition basin_state : State := example_state basin_shore [].
Definition open_sea_state : State := example_state open_sea [].

(** The engine with the collaborators of the examples. *)
Definition ex_TileLoop_Water : TileIndex -> State -> option State :=
  TileLoop_Water no_ClearTile_other no_FloodHalftile.
Definition ex_flood_dir : TileIndex -> State * bool -> Direction -> State * bool :=
  flood_dir no_ClearTile_other no_FloodHalftile.
Definition ex_DoDryUp : TileIndex -> State -> option State :=
  DoDryUp no_ClearTile_other.

(** ** Notions used to state the properties *)

(** The case table of the classifier, in the words of the
    specification, on one tile of the map array. *)
Definition one_raised_corner (sl : Slope) : bool :=
  bool_decide (sl ∈ [SLOPE_W; SLOPE_S; SLOPE_E; SLOPE_N]).

Definition spec_Classify (ti : Tile) : FloodingBehaviour :=
  match tile_type ti with
  | MP_VOID => FLOOD_ACTIVE
  | ty =>
    if bool_decide (ty = MP_WATER) && bool_decide (water_tile_type ti = WATER_TILE_COAST)
    then (if one_raised_corner (tile_slope ti) then FLOOD_ACTIVE else FLOOD_DRYUP)
    else if bool_decide (ty ∈ [MP_WATER; MP_STATION; MP_INDUSTRY; MP_OBJECT])
    then match water_class ti with
         | WATER_CLASS_SEA => FLOOD_ACTIVE
         | WATER_CLASS_CANAL | WATER_CLASS_RIVER => FLOOD_NONE
         | WATER_CLASS_INVALID => FLOOD_NONE
         end
    else if bool_decide (ty = MP_RAILWAY) && plain_rail ti
            && bool_decide (rail_ground ti = RAIL_GROUND_WATER)
    then (if one_raised_corner (tile_slope ti) then FLOOD_ACTIVE else FLOOD_DRYUP)
    else if bool_decide (ty = MP_TREES) && bool_decide (tree_ground ti = TREE_GROUND_SHORE)
    then FLOOD_DRYUP
    else FLOOD_NONE
  end.

(** Water ground is only ever put on plain rail ([IsWateredTile] and
    [DoDryUp] assert it). *)
Definition rail_water_ground_is_plain (ti : Tile) : Prop :=
  tile_type ti = MP_RAILWAY -> rail_ground ti = RAIL_GROUND_WATER -> plain_rail ti = true.

(** The neighbour of [tile] that the scan visits in direction [dir]. *)
Definition neighbour (s : State) (tile : TileIndex) (dir : Direction) : TileIndex :=
  AddTileIndexDiffCWrap s tile (TileIndexDiffCByDir dir).

(** The neighbour is passed over by the first three tests of the scan
    (not a valid tile, a water tile, a buoy or a dock): it does not keep
    the flooding going. *)
Definition flood_skipped (s : State) (tile : TileIndex) (dir : Direction) : bool :=
  let dest := neighbour s tile dir in
  negb (IsValidTile s dest)
  || IsTileType s dest MP_WATER
  || (IsTileType s dest MP_STATION && (IsBuoy s dest || IsDock s dest)).

(** The neighbour passes these tests but cannot be flooded now: trees
    with shore ground, a height above 0, or a slope that cannot be
    entered from this side. *)
Definition flood_ineligible (s : State) (tile : TileIndex) (dir : Direction) : bool :=
  let dest := neighbour s tile dir in
  (IsTileType s dest MP_TREES && bool_decide (GetTreeGround s dest = TREE_GROUND_SHORE))
  || (0 <? snd (GetFoundationSlope s dest))
  || negb (dirs_test (flood_from_dirs (table_slope (fst (GetFoundationSlope s dest))))
                     (ReverseDir dir)).

Definition is_sea (ti : Tile) : Prop :=
  tile_type ti = MP_WATER /\ water_tile_type ti = WATER_TILE_CLEAR
  /\ water_class ti = WATER_CLASS_SEA.

Definition is_coast (ti : Tile) : Prop :=
  tile_type ti = MP_WATER /\ water_tile_type ti = WATER_TILE_COAST.




(** A state that differs from [s] in the vehicle pool and by a longer
    trace only. *)
Definition with_ve (vs : list Vehicle) (evs : list Event) (s : State) : State :=
  {| map_size_x := map_size_x s; map_size_y := map_size_y s; tiles := tiles s;
     vehicles := vs; current_company := current_company s;
     events := events s ++ evs |}.

(** [s'] has the map of [s]; only the vehicle pool and the end of the
    trace may differ.  [only_events] keeps the vehicle pool too. *)
Definition only_ve (s s' : State) : Prop :=
  exists vs evs, s' = with_ve vs evs s.

Definition only_events (s s' : State) : Prop :=
  exists evs, s' = with_ve (vehicles s) evs s.

(** The trace of [s'] extends the trace of [s]. *)
Definition extends_trace (s s' : State) : Prop :=
  exists evs, events s' = events s ++ evs.


(** The slope whose entry set holds the cardinal direction [d]: three
    raised corners, the low one on the side of [d]. *)
Definition cardinal_entry_slope (d : Direction) : Slope :=
  match d with
  | DIR_N => SLOPE_WSE
  | DIR_E => SLOPE_NWS
  | DIR_S => SLOPE_ENW
  | DIR_W => SLOPE_SEN
  | _ => -1
  end.

(** A tile that is drying up is still threatened: one of the neighbours
    in the directions of its slope's entry set lies on the map array
    and classifies Active or Passive. *)
Definition dryup_threatened (s : State) (tile : TileIndex) : Prop :=
  exists dir,
    dir ∈ flood_from_dirs (table_slope (fst (GetFoundationSlope s tile)))
    /\ neighbour s tile dir <> INVALID_TILE
    /\ (GetFloodingBehaviour s (neighbour s tile dir) = FLOOD_ACTIVE
        \/ GetFloodingBehaviour s (neighbour s tile dir) = FLOOD_PASSIVE).

(** ** Turning the ground at sea level into water (world generation) *)

(** [TileAddByDir] of map_func.h: [tile + TileOffsByDir(dir)]. *)
Definition TileAddByDir (s : State) (t : TileIndex) (d : Direction) : TileIndex :=
  tile_add t (TileOffsByDir s d).

(** The test of the inner loop of [ConvertGroundTilesIntoWaterTiles]: the
    neighbour is flat, has one raised corner, or is void. *)
Definition shore_making_neighbour (s : State) (tile : TileIndex) (dir : Direction) : bool :=
  let dest := TileAddByDir s tile dir in
  let slope_dest := Z.land (GetTileSlope s dest) (Z.lnot SLOPE_STEEP) in
  (slope_dest =? SLOPE_FLAT) || IsSlopeWithOneCornerRaised slope_dest
  || IsTileType s dest MP_VOID.

(** The body of the loop of [ConvertGroundTilesIntoWaterTiles] for one
    tile.  The inner loop makes the shore at the first neighbour that
    passes the test and stops. *)
Definition convert_ground_tile (s : State) (tile : TileIndex) : State :=
  let slope := GetTileSlope s tile in
  let z := GetTileZ s tile in
  if IsTileType s tile MP_CLEAR && (z =? 0) then
    if slope =? SLOPE_FLAT then MakeSea tile s
    else if (slope =? SLOPE_N) || (slope =? SLOPE_E) || (slope =? SLOPE_S) || (slope =? SLOPE_W)
    then MakeShore tile s
    else if existsb (shore_making_neighbour s tile)
                    (flood_from_dirs (Z.land slope (Z.lnot SLOPE_STEEP)))
    then MakeShore tile s
    else s
  else s.

(** [ConvertGroundTilesIntoWaterTiles]: [Map::Iterate()] visits the tile
    indices below [Map::Size()] in increasing order. *)
Definition ConvertGroundTilesIntoWaterTiles (s : State) : State :=
  foldl (fun acc i => convert_ground_tile acc (Z.of_nat i)) s
        (seq 0 (Z.to_nat (Map_Size s))).

(** What [ConvertGroundTilesIntoWaterTiles] makes of the tile [t], read
    off the state before the call. *)
Definition ground_to_water (s : State) (t : TileIndex) : Tile :=
  let ti := tile_at s t in
  if bool_decide (tile_type ti = MP_CLEAR) && (tile_z ti =? 0) then
    if tile_slope ti =? SLOPE_FLAT then make_water WATER_TILE_CLEAR ti
    else if IsSlopeWithOneCornerRaised (tile_slope ti)
            || existsb (shore_making_neighbour s t)
                       (flood_from_dirs (Z.land (tile_slope ti) (Z.lnot SLOPE_STEEP)))
    then make_water WATER_TILE_COAST ti
    else ti
  else ti.

(** [acc] is [s] with some tiles rewritten in a way that keeps every
    slope, every height and the set of void tiles. *)
Definition ground_preserved (s acc : State) : Prop :=
  set_tiles (tiles acc) s = acc
  /\ length (tiles acc) = length (tiles s)
  /\ forall t, tile_slope (tile_at acc t) = tile_slope (tile_at s t)
               /\ tile_z (tile_at acc t) = tile_z (tile_at s t)
               /\ IsTileType acc t MP_VOID = IsTileType s t MP_VOID.

(** ** Notions for the helpers around a tile *)

(** The eight tiles around [t], in the order of the directions. *)
Definition tiles_around (s : State) (t : TileIndex) : list TileIndex :=
  map (fun d => tile_add t (TileOffsByDir s d)) all_directions.

Definition is_canal_or_river (s : State) (t : TileIndex) : bool :=
  IsValidTile s t && IsTileType s t MP_WATER && (IsCanal s t || IsRiver s t).

(** [t'] is the map entry of a valid water tile around [t]. *)
Definition water_tile_around (s : State) (t t' : TileIndex) : bool :=
  existsb (fun dest => bool_decide (Z.to_nat dest = Z.to_nat t')
                       && IsValidTile s dest && IsTileType s dest MP_WATER)
          (tiles_around s t).

(** [acc] is [s] with the non-flooding state of some tiles cleared. *)
Definition non_flooding_cleared (s acc : State) : Prop :=
  set_tiles (tiles acc) s = acc
  /\ forall t, tile_at acc t = tile_at s t
               \/ tile_at acc t = set_non_flooding false (tile_at s t).

(** ** Notions for the invariants of the engine *)

(** The height map read through [s'] is the one read through [s]. *)
Definition heights_kept (s s' : State) : Prop :=
  forall t, tile_slope (tile_at s' t) = tile_slope (tile_at s t)
            /\ tile_z (tile_at s' t) = tile_z (tile_at s t).

Definition clear_keeps_heights (clr : TileIndex -> State -> option State) : Prop :=
  forall t s s', clr t s = Some s' -> heights_kept s s'.

Definition halftile_keeps_heights (fh : TileIndex -> State -> State * bool) : Prop :=
  forall t s, heights_kept s (fst (fh t s)).

(** What [DoDryUp] asserts of a rail tile on water ground: plain rail
    with a single track in one of the four half-tile positions. *)
Definition rail_ready_to_dry (ti : Tile) : Prop :=
  tile_type ti = MP_RAILWAY -> rail_ground ti = RAIL_GROUND_WATER ->
  plain_rail ti = true
  /\ track_bits ti ∈ [TRACK_BIT_UPPER; TRACK_BIT_LOWER; TRACK_BIT_LEFT; TRACK_BIT_RIGHT].

(** A canal or a river: open water of class canal or river. *)
Definition is_canal_or_river_tile (ti : Tile) : Prop :=
  tile_type ti = MP_WATER /\ water_tile_type ti = WATER_TILE_CLEAR
  /\ (water_class ti = WATER_CLASS_CANAL \/ water_class ti = WATER_CLASS_RIVER).

(** The state after [DoFloodTile] has made a sloped tile of plain land
    or trees wet: the target is rewritten by [f], the other tiles and
    the size of the map are kept. *)
Definition rewrites_tile (f : Tile -> Tile) (target : TileIndex) (s s' : State) : Prop :=
  map_size_x s' = map_size_x s /\ map_size_y s' = map_size_y s
  /\ tile_at s' target = f (tile_at s target)
  /\ forall t, Z.to_nat t <> Z.to_nat target -> tile_at s' t = tile_at s t.

(** ** Water in the view of a direction, and the tracks of ships *)

Inductive DiagDirection : Set :=
  | DIAGDIR_NE | DIAGDIR_SE | DIAGDIR_SW | DIAGDIR_NW.

Inductive Axis : Set := AXIS_X | AXIS_Y.

#[global] Instance DiagDirection_eq_dec : EqDecision DiagDirection.
Proof. solve_decision. Defined.
#[global] Instance Axis_eq_dec : EqDecision Axis.
Proof. solve_decision. Defined.

(** Modelled from the spec: the conversions of direction_func.h (not
    among the sources), on the enumeration values: [DirToDiagDir d] is
    [d >> 1], [DiagDirToAxis d] is [d & 1] and [ReverseDiagDir d] is
    [2 ^ d]. *)
Definition DirToDiagDir (d : Direction) : DiagDirection :=
  match d with
  | DIR_N | DIR_NE => DIAGDIR_NE
  | DIR_E | DIR_SE => DIAGDIR_SE
  | DIR_S | DIR_SW => DIAGDIR_SW
  | DIR_W | DIR_NW => DIAGDIR_NW
  end.

Definition DiagDirToAxis (d : DiagDirection) : Axis :=
  match d with
  | DIAGDIR_NE | DIAGDIR_SW => AXIS_X
  | DIAGDIR_SE | DIAGDIR_NW => AXIS_Y
  end.

Definition ReverseDiagDir (d : DiagDirection) : DiagDirection :=
  match d with
  | DIAGDIR_NE => DIAGDIR_SW | DIAGDIR_SE => DIAGDIR_NW
  | DIAGDIR_SW => DIAGDIR_NE | DIAGDIR_NW => DIAGDIR_SE
  end.

Definition IsOilRig (s : State) (t : TileIndex) : bool :=
  bool_decide (station_type (tile_at s t) = STATION_OILRIG).
Definition IsTileOnWater (s : State) (t : TileIndex) : bool :=
  negb (bool_decide (GetWaterClass s t = WATER_CLASS_INVALID)).
Definition IsTileFlat (s : State) (t : TileIndex) : bool :=
  GetTileSlope s t =? SLOPE_FLAT.

(** The switch over the slope that [IsWateredTile] runs for a coast
    tile and, with the same cases, for a rail tile on water ground. *)
Definition half_watered_from (sl : Slope) (from : Direction) : bool :=
  if sl =? SLOPE_W then
    bool_decide (from = DIR_SE) || bool_decide (from = DIR_E) || bool_decide (from = DIR_NE)
  else if sl =? SLOPE_S then
    bool_decide (from = DIR_NE) || bool_decide (from = DIR_N) || bool_decide (from = DIR_NW)
  else if sl =? SLOPE_E then
    bool_decide (from = DIR_NW) || bool_decide (from = DIR_W) || bool_decide (from = DIR_SW)
  else if sl =? SLOPE_N then
    bool_decide (from = DIR_SW) || bool_decide (from = DIR_S) || bool_decide (from = DIR_SE)
  else false.

Definition TRACK_BIT_NONE : Z := 0.
Definition TRACK_BIT_X : Z := 1.
Definition TRACK_BIT_Y : Z := 2.
Definition TRACK_BIT_ALL : Z := 63.

(** Modelled from the spec: the conversions of track_func.h (not among
    the sources): the track along an axis, the two track directions of
    each track ([bits | bits << 8]) and the track status made of track
    directions and red signals ([trackdirs | signals << 16]). *)
Definition AxisToTrackBits (a : Axis) : Z :=
  match a with AXIS_X => TRACK_BIT_X | AXIS_Y => TRACK_BIT_Y end.
Definition DiagDirToDiagTrackBits (d : DiagDirection) : Z :=
  AxisToTrackBits (DiagDirToAxis d).
Definition TrackBitsToTrackdirBits (bits : Z) : Z := Z.lor bits (Z.shiftl bits 8).
Definition CombineTrackStatus (trackdirs red_signals : Z) : Z :=
  Z.lor trackdirs (Z.shiftl red_signals 16).

(** [coast_tracks] of [GetTileTrackStatus_Water], indexed by the four
    corner bits of the slope. *)
Definition coast_tracks : list Z :=
  [ TRACK_BIT_NONE; TRACK_BIT_RIGHT; TRACK_BIT_UPPER; TRACK_BIT_NONE
  ; TRACK_BIT_LEFT; TRACK_BIT_NONE; TRACK_BIT_NONE; TRACK_BIT_NONE
  ; TRACK_BIT_LOWER; TRACK_BIT_NONE; TRACK_BIT_NONE; TRACK_BIT_NONE
  ; TRACK_BIT_NONE; TRACK_BIT_NONE; TRACK_BIT_NONE; TRACK_BIT_NONE ].

(** The fields of the map array that the flood engine does not read are
    not part of [Tile]; the functions below take their accessors as
    parameters: the direction of a lock, the axis of a ship depot, the
    industry of an industry tile, whether a tunnel or bridge carries
    water, and its direction. *)

Section WaterAccessors.

Variable GetLockDirection : State -> TileIndex -> DiagDirection.
Variable GetShipDepotAxis : State -> TileIndex -> Axis.
Variable GetIndustryIndex : State -> TileIndex -> Z.
Variable IsWaterTunnelBridge : State -> TileIndex -> bool.
Variable GetTunnelBridgeDirection : State -> TileIndex -> DiagDirection.

(** [IsWateredTile]; [None] when the assertion on the rail tile fails.
    The water tile types are the four of the enumeration, the
    [NOT_REACHED()] of the inner switch has no case here. *)
Definition IsWateredTile (s : State) (tile : TileIndex) (from : Direction) : option bool :=
  match GetTileType s tile with
  | MP_WATER =>
    match GetWaterTileType s tile with
    | WATER_TILE_DEPOT | WATER_TILE_CLEAR => Some true
    | WATER_TILE_LOCK =>
      Some (bool_decide (DiagDirToAxis (GetLockDirection s tile)
                         = DiagDirToAxis (DirToDiagDir from)))
    | WATER_TILE_COAST => Some (half_watered_from (GetTileSlope s tile) from)
    end
  | MP_RAILWAY =>
    if bool_decide (GetRailGroundType s tile = RAIL_GROUND_WATER) then
      if negb (IsPlainRail s tile) then None
      else Some (half_watered_from (GetTileSlope s tile) from)
    else Some false
  | MP_STATION =>
    if IsOilRig s tile then
      let src_tile := tile_add tile (TileOffsByDir s from) in
      if (IsTileType s src_tile MP_STATION && IsOilRig s src_tile)
         || IsTileType s src_tile MP_INDUSTRY
      then Some true
      else Some (IsTileOnWater s tile)
    else Some ((IsDock s tile && IsTileFlat s tile) || IsBuoy s tile)
  | MP_INDUSTRY =>
    let src_tile := tile_add tile (TileOffsByDir s from) in
    if (IsTileType s src_tile MP_STATION && IsOilRig s src_tile)
       || (IsTileType s src_tile MP_INDUSTRY
           && (GetIndustryIndex s src_tile =? GetIndustryIndex s tile))
    then Some true
    else Some (IsTileOnWater s tile)
  | MP_OBJECT => Some (IsTileOnWater s tile)
  | MP_TUNNELBRIDGE =>
    Some (IsWaterTunnelBridge s tile
          && bool_decide (ReverseDiagDir (GetTunnelBridgeDirection s tile)
                          = DirToDiagDir from))
  | MP_VOID => Some true
  | _ => Some false
  end.

(** [GetTileTrackStatus_Water]; [water_mode] is
    [mode == TRANSPORT_WATER]. *)
Definition GetTileTrackStatus_Water (s : State) (tile : TileIndex) (water_mode : bool) : Z :=
  if negb water_mode then 0
  else
    let ts :=
      match GetWaterTileType s tile with
      | WATER_TILE_CLEAR => if IsTileFlat s tile then TRACK_BIT_ALL else TRACK_BIT_NONE
      | WATER_TILE_COAST =>
        default 0 (coast_tracks !! Z.to_nat (Z.land (GetTileSlope s tile) 15))
      | WATER_TILE_LOCK => DiagDirToDiagTrackBits (GetLockDirection s tile)
      | WATER_TILE_DEPOT => AxisToTrackBits (GetShipDepotAxis s tile)
      end in
    let ts :=
      if TileX s tile =? 0
      then Z.land ts (Z.lnot (Z.lor (Z.lor TRACK_BIT_X TRACK_BIT_UPPER) TRACK_BIT_RIGHT))
      else ts in
    let ts :=
      if TileY s tile =? 0
      then Z.land ts (Z.lnot (Z.lor (Z.lor TRACK_BIT_Y TRACK_BIT_LEFT) TRACK_BIT_UPPER))
      else ts in
    CombineTrackStatus (TrackBitsToTrackdirBits ts) 0.

End WaterAccessors.

(** ** Restoring the water under a removed structure *)

(** Modelled from the spec: [GetInclinedSlopeDirection] of slope_func.h
    (not among the sources): the direction a slope with two adjacent
    raised corners rises to, [None] for [INVALID_DIAGDIR]. *)
Definition GetInclinedSlopeDirection (sl : Slope) : option DiagDirection :=
  if sl =? SLOPE_NE then Some DIAGDIR_NE
  else if sl =? SLOPE_SE then Some DIAGDIR_SE
  else if sl =? SLOPE_SW then Some DIAGDIR_SW
  else if sl =? SLOPE_NW then Some DIAGDIR_NW
  else None.

(** Modelled from the spec: [MakeCanal] and [MakeRiver] (water_map.h is
    not among the sources): open water of the given class; the owner and
    the random bits of the tile are not part of [Tile]. *)
Definition MakeCanal (t : TileIndex) (s : State) : State :=
  update_tile (fun ti => set_water_class WATER_CLASS_CANAL (make_water WATER_TILE_CLEAR ti)) t s.
Definition MakeRiver (t : TileIndex) (s : State) : State :=
  update_tile (fun ti => set_water_class WATER_CLASS_RIVER (make_water WATER_TILE_CLEAR ti)) t s.

(** The water class that [MakeWaterKeepingClass] restores, and the
    change it makes to the count of water infrastructure of the company
    [o] ([valid] is [Company::GetIfValid(o) != nullptr]). *)
Definition kept_water_class (wc : WaterClass) (slope : Slope) (z : Z) (valid : bool)
  : WaterClass * Z :=
  let '(wc, count) :=
    if negb (slope =? SLOPE_FLAT) then
      let '(wc, count) :=
        if bool_decide (wc = WATER_CLASS_CANAL)
        then (WATER_CLASS_INVALID, if valid then -1 else 0)
        else (wc, 0) in
      if negb (bool_decide (wc = WATER_CLASS_RIVER))
         || bool_decide (GetInclinedSlopeDirection slope = None)
      then (WATER_CLASS_INVALID, count)
      else (wc, count)
    else (wc, 0) in
  if bool_decide (wc = WATER_CLASS_SEA) && (0 <? z)
  then (WATER_CLASS_CANAL, count + (if valid then 1 else 0))
  else (wc, count).

(** [MakeWaterKeepingClass]: the state after the call and the change to
    the company's count of water infrastructure.  The docking flag that
    [CheckForDockingTile] maintains is not part of [Tile]. *)
Definition MakeWaterKeepingClass (tile : TileIndex) (valid : bool) (s : State) : State * Z :=
  let '(wc, count) :=
    kept_water_class (GetWaterClass s tile) (GetTileSlope s tile) (GetTileZ s tile) valid in
  let s1 := DoClearSquare tile s in
  let s2 :=
    match wc with
    | WATER_CLASS_SEA => MakeSea tile s1
    | WATER_CLASS_CANAL => MakeCanal tile s1
    | WATER_CLASS_RIVER => MakeRiver tile s1
    | WATER_CLASS_INVALID => s1
    end in
  (MarkTileDirtyByTile tile s2, count).

(** The slopes of the game: the fifteen combinations of raised corners
    and the four steep slopes. *)
Definition valid_slope (sl : Slope) : Prop :=
  (0 <= sl < 15) \/ sl ∈ [23; 27; 29; 30].

(** ** Notions for the water seen from a direction *)

(** A coast tile, or a plain rail tile on water ground: half of the tile
    is under water. *)
Definition half_flooded (ti : Tile) : Prop :=
  is_coast ti
  \/ (tile_type ti = MP_RAILWAY /\ rail_ground ti = RAIL_GROUND_WATER /\ plain_rail ti = true).

(** ** Notions for the flooding of vehicles *)

(** Every vehicle of the pool [vs] is still in the pool [vs'], in its
    place, as it was or marked crashed.  Nothing is said of what else
    [vs'] holds. *)
Definition crashed_more (vs vs' : list Vehicle) : Prop :=
  forall i v, vs !! i = Some v -> vs' !! i = Some v \/ vs' !! i = Some (set_crashed v).

(** The tiles that [FloodVehicles] has to scan for the tile [t], and the
    height of the scan, in the words of its three cases: every tile of
    the airport of [t] at height 0, both heads of the bridge of [t] at
    the height of the bridge, or [t] itself at height 0. *)
Definition flood_scanned (s : State) (t a : TileIndex) (z : Z) : Prop :=
  if IsAirportTile s t then
    z = 0 /\ 0 <= a < Z.of_nat (length (tiles s))
    /\ TileBelongsToAirport s (station_index (tile_at s t)) a = true
  else if IsBridgeTile s t then
    z = GetBridgePixelHeight s t /\ (a = t \/ a = GetOtherBridgeEnd s t)
  else a = t /\ z = 0.

(** An aircraft standing on an airport tile that lies at height 0. *)
Definition grounded_aircraft (s : State) (v : Vehicle) : Prop :=
  veh_type v = VEH_AIRCRAFT /\ veh_shadow v = false
  /\ IsAirportTile s (veh_tile v) = true /\ GetTileMaxZ s (veh_tile v) = 0
  /\ veh_z_pos v = airport_delta_z (tile_at s (veh_tile v)) + 1.

(** ** Further example maps *)

(** The ridge before the sea is let in: plain land everywhere. *)
Definition ridge_land_state : State := example_state (clear_tile ridge) [].

(** The ridge, all plain land, with a rail tile on water ground at
    (5, 4), a tile with three raised corners: its upper track is left. *)
Definition ridge_dry_rail (x y : Z) : Tile :=
  if (x =? 5) && (y =? 4) then rail_tile RAIL_GROUND_WATER TRACK_BIT_UPPER ridge x y
  else clear_tile ridge x y.
Definition ridge_dry_rail_state : State := example_state ridge_dry_rail [].


(** The example maps have no lock, ship depot, industry, tunnel or
    bridge: the accessors of their fields are constant. *)
Definition ex_IsWateredTile : State -> TileIndex -> Direction -> option bool :=
  IsWateredTile (fun _ _ => DIAGDIR_NE) (fun _ _ => 0) (fun _ _ => false)
                (fun _ _ => DIAGDIR_NE).
Definition ex_GetTileTrackStatus_Water : State -> TileIndex -> bool -> Z :=
  GetTileTrackStatus_Water (fun _ _ => DIAGDIR_NE) (fun _ _ => AXIS_X).

(** * Properties *)

(** ** Reading the map after a write *)

Lemma tile_at_update_same f t s :
  tile_type (tile_at s t) <> MP_VOID ->
  tile_at (update_tile f t s) t = f (tile_at s t).
Proof.
  unfold tile_at, update_tile; simpl. rewrite list_lookup_alter_eq.
  destruct (tiles s !! Z.to_nat t) as [ti|]; simpl; [reflexivity|].
  intros H; exfalso; apply H; reflexivity.
Qed.

Lemma tile_at_update_ne f t t' s :
  Z.to_nat t' <> Z.to_nat t ->
  tile_at (update_tile f t s) t' = tile_at s t'.
Proof.
  intros Hne. unfold tile_at, update_tile; simpl.
  by rewrite list_lookup_alter_ne.
Qed.

Lemma alter_fixed {A} (f : A -> A) (i : nat) (l : list A) :
  (forall x, l !! i = Some x -> f x = x) -> alter f i l = l.
Proof.
  intros Hf. apply list_eq; intros j.
  destruct (decide (j = i)) as [->|Hne].
  - rewrite list_lookup_alter_eq. destruct (l !! i) as [x|] eqn:E; simpl; [|done].
    by rewrite Hf.
  - by rewrite list_lookup_alter_ne.
Qed.

(** ** C1: the classifier *)

Lemma one_raised_corner_agrees sl : IsSlopeWithOneCornerRaised sl = one_raised_corner sl.
Proof.
  unfold IsSlopeWithOneCornerRaised, one_raised_corner.
  destruct (bool_decide_reflect (sl ∈ [SLOPE_W; SLOPE_S; SLOPE_E; SLOPE_N])) as [Hin|Hnin].
  - repeat (apply elem_of_cons in Hin as [->|Hin]; [reflexivity|]).
    by apply elem_of_nil in Hin.
  - destruct (Z.eqb_spec sl SLOPE_W) as [->|]; [exfalso; apply Hnin; apply list_elem_of_In; simpl; tauto|].
    destruct (Z.eqb_spec sl SLOPE_S) as [->|]; [exfalso; apply Hnin; apply list_elem_of_In; simpl; tauto|].
    destruct (Z.eqb_spec sl SLOPE_E) as [->|]; [exfalso; apply Hnin; apply list_elem_of_In; simpl; tauto|].
    destruct (Z.eqb_spec sl SLOPE_N) as [->|]; [exfalso; apply Hnin; apply list_elem_of_In; simpl; tauto|].
    reflexivity.
Qed.

(** C1.  On every tile (whose rail ground, if water, lies on plain rail,
    as the source asserts) [GetFloodingBehaviour] returns the case table
    of the specification: void is Active; coast is Active with exactly
    one raised corner and DryUp otherwise; other water, station,
    industry and object tiles are Active when their water class is sea
    and None otherwise; plain rail on water ground is Active with one
    raised corner and DryUp otherwise; trees on shore ground are DryUp;
    everything else is None.  Passive is never returned. *)
Theorem GetFloodingBehaviour_case_table (s : State) (t : TileIndex) :
  rail_water_ground_is_plain (tile_at s t) ->
  GetFloodingBehaviour s t = spec_Classify (tile_at s t)
  /\ forall s' t', GetFloodingBehaviour s' t' <> FLOOD_PASSIVE.
Proof.
  intros Hrail. split.
  - unfold GetFloodingBehaviour, spec_Classify, GetTileType, IsCoast, GetWaterTileType,
      GetWaterClass, GetRailGroundType, GetTreeGround, GetTileSlope,
      rail_water_ground_is_plain in *.
    rewrite !one_raised_corner_agrees.
    destruct (tile_at s t) as [ty sl z fo wc wtt nf pr rg tb tg td cg cd st si ad ib oe bh];
      simpl in *.
    destruct ty; simpl; try reflexivity;
      try (destruct wc; reflexivity);
      try (destruct wtt, wc; reflexivity).
    destruct rg; try (destruct pr; reflexivity).
    rewrite (Hrail eq_refl eq_refl). reflexivity.
  - intros s' t'. unfold GetFloodingBehaviour.
    repeat (case_match; try discriminate).
Qed.

(** ** Functions that leave the map array alone *)

Lemma with_ve_id s : with_ve (vehicles s) [] s = s.
Proof. destruct s; unfold with_ve; simpl. by rewrite app_nil_r. Qed.

Lemma with_ve_with_ve vs evs vs' evs' s :
  with_ve vs' evs' (with_ve vs evs s) = with_ve vs' (evs ++ evs') s.
Proof. unfold with_ve; simpl. by rewrite app_assoc. Qed.

Lemma only_ve_refl s : only_ve s s.
Proof. exists (vehicles s), []. by rewrite with_ve_id. Qed.

Lemma only_ve_trans s1 s2 s3 : only_ve s1 s2 -> only_ve s2 s3 -> only_ve s1 s3.
Proof.
  intros (vs & evs & ->) (vs' & evs' & ->). rewrite with_ve_with_ve. by eexists _, _.
Qed.

Lemma only_events_refl s : only_events s s.
Proof. exists []. by rewrite with_ve_id. Qed.

Lemma only_events_trans s1 s2 s3 : only_events s1 s2 -> only_events s2 s3 -> only_events s1 s3.
Proof.
  intros (evs & ->) (evs' & ->). simpl. rewrite with_ve_with_ve. by eexists.
Qed.

Lemma only_events_emit e s : only_events s (emit e s).
Proof. by exists [e]. Qed.

Lemma only_events_only_ve s s' : only_events s s' -> only_ve s s'.
Proof. intros (evs & ->). by eexists _, _. Qed.

Lemma foldl_invariant {A B} (P : A -> Prop) (f : A -> B -> A) (l : list B) (a : A) :
  P a -> (forall acc b, P acc -> P (f acc b)) -> P (foldl f a l).
Proof.
  intros Ha Hf. revert a Ha. induction l as [|b l IH]; intros a Ha; simpl; [done|].
  apply IH. by apply Hf.
Qed.

Lemma MarkTileDirtyIfCanalOrRiver_only_events t s :
  only_events s (MarkTileDirtyIfCanalOrRiver t s).
Proof.
  unfold MarkTileDirtyIfCanalOrRiver. case_match.
  - apply only_events_emit.
  - apply only_events_refl.
Qed.

Lemma MarkCanalsAndRiversAroundDirty_only_events t s :
  only_events s (MarkCanalsAndRiversAroundDirty t s).
Proof.
  unfold MarkCanalsAndRiversAroundDirty.
  apply (foldl_invariant (only_events s)); [apply only_events_refl|].
  intros acc d Hacc. eapply only_events_trans; [exact Hacc|].
  apply MarkTileDirtyIfCanalOrRiver_only_events.
Qed.

Lemma FloodVehicleProc_only_ve i z s : only_ve s (FloodVehicleProc i z s).
Proof.
  unfold FloodVehicleProc.
  assert (Hfv : forall j, only_ve s (FloodVehicle j s)) by (intros j; by eexists _, [_]).
  repeat case_match; try apply only_ve_refl; apply Hfv.
Qed.

Lemma FloodVehiclesOnTile_only_ve t z s : only_ve s (FloodVehiclesOnTile t z s).
Proof.
  unfold FloodVehiclesOnTile.
  apply (foldl_invariant (only_ve s)).
  - apply only_events_only_ve, only_events_emit.
  - intros acc i Hacc. eapply only_ve_trans; [exact Hacc|]. apply FloodVehicleProc_only_ve.
Qed.

Lemma FloodVehicles_only_ve t s : only_ve s (FloodVehicles t s).
Proof.
  unfold FloodVehicles.
  apply (foldl_invariant (only_ve s)); [apply only_ve_refl|].
  intros acc tz Hacc. eapply only_ve_trans; [exact Hacc|]. apply FloodVehiclesOnTile_only_ve.
Qed.

(** ** Flooding the vehicles on a tile *)

Lemma crashed_more_refl vs : crashed_more vs vs.
Proof. intros i v H. by left. Qed.

Lemma set_crashed_twice v : set_crashed (set_crashed v) = set_crashed v.
Proof. done. Qed.

Lemma crashed_more_trans vs1 vs2 vs3 :
  crashed_more vs1 vs2 -> crashed_more vs2 vs3 -> crashed_more vs1 vs3.
Proof.
  intros H1 H2 i v Hv. destruct (H1 i v Hv) as [Hv2|Hv2].
  - exact (H2 i v Hv2).
  - destruct (H2 i _ Hv2) as [Hv3|Hv3]; right; [done|]. by rewrite Hv3, set_crashed_twice.
Qed.

Lemma crashed_more_FloodVehicle j s :
  crashed_more (vehicles s) (vehicles (FloodVehicle j s)).
Proof.
  unfold FloodVehicle. cbn [vehicles emit set_vehicles].
  intros i v Hv. rewrite list_lookup_imap, Hv. cbn.
  destruct (bool_decide (i = j) || bool_decide (veh_first v = j)); [by right|by left].
Qed.

Lemma crashed_more_FloodVehicleProc i z s :
  crashed_more (vehicles s) (vehicles (FloodVehicleProc i z s)).
Proof.
  unfold FloodVehicleProc.
  repeat case_match; try apply crashed_more_refl; apply crashed_more_FloodVehicle.
Qed.

Lemma tiles_FloodVehicleProc i z s : tiles (FloodVehicleProc i z s) = tiles s.
Proof. by destruct (FloodVehicleProc_only_ve i z s) as (vs & evs & ->). Qed.

(** The vehicle the loop is at is crashed after its turn when it is on
    the ground. *)
Lemma FloodVehicleProc_crashes i z s v :
  vehicles s !! i = Some v ->
  ((veh_type v = VEH_TRAIN \/ veh_type v = VEH_ROAD) /\ veh_z_pos v <= z)
  \/ grounded_aircraft s v ->
  exists v', vehicles (FloodVehicleProc i z s) !! i = Some v' /\ veh_crashed v' = true.
Proof.
  intros Hv Hground. unfold FloodVehicleProc. rewrite Hv.
  destruct (veh_crashed v) eqn:Hc; [by exists v|].
  assert (Hhead : exists v', vehicles (FloodVehicle (veh_first v) s) !! i = Some v'
                             /\ veh_crashed v' = true).
  { exists (set_crashed v). split; [|done].
    unfold FloodVehicle. cbn [vehicles emit set_vehicles].
    rewrite list_lookup_imap, Hv. cbn.
    by rewrite (bool_decide_eq_true_2 (veh_first v = veh_first v)), orb_true_r. }
  assert (Hself : exists v', vehicles (FloodVehicle i s) !! i = Some v'
                             /\ veh_crashed v' = true).
  { exists (set_crashed v). split; [|done].
    unfold FloodVehicle. cbn [vehicles emit set_vehicles].
    rewrite list_lookup_imap, Hv. cbn.
    by rewrite (bool_decide_eq_true_2 (i = i)). }
  destruct Hground as [[Hty Hz] | (Hty & Hsh & Hair & Hmax & Hpos)].
  - apply Z.ltb_ge in Hz. by destruct Hty as [-> | ->]; rewrite Hz.
  - rewrite Hty, Hair, Hmax, Hsh, Hpos. cbn [negb orb]. by rewrite !Z.eqb_refl.
Qed.

Lemma crashed_more_stays_crashed vs vs' i v :
  crashed_more vs vs' -> vs !! i = Some v -> veh_crashed v = true ->
  exists v', vs' !! i = Some v' /\ veh_crashed v' = true.
Proof.
  intros H Hv Hc. destruct (H i v Hv) as [Hv'|Hv']; eexists; split; try exact Hv'; done.
Qed.

Lemma grounded_aircraft_kept s s' v u :
  tiles s' = tiles s -> u = v \/ u = set_crashed v ->
  grounded_aircraft s v -> grounded_aircraft s' u.
Proof.
  intros Ht Hu. unfold grounded_aircraft, IsAirportTile, IsTileType, GetTileType,
    GetTileMaxZ, GetTileSlope, GetTileZ, tile_at. rewrite Ht.
  by destruct Hu as [-> | ->].
Qed.

(** The loop of [FloodVehiclesOnTile]: what was on the ground and on the
    list is crashed in the end, whatever the turns of the other vehicles
    did in between. *)
Lemma flood_vehicles_loop l z s :
  let s' := foldl (fun acc i => FloodVehicleProc i z acc) s l in
  crashed_more (vehicles s) (vehicles s')
  /\ tiles s' = tiles s
  /\ forall i v, i ∈ l -> vehicles s !! i = Some v ->
       ((veh_type v = VEH_TRAIN \/ veh_type v = VEH_ROAD) /\ veh_z_pos v <= z)
       \/ grounded_aircraft s v ->
       exists v', vehicles s' !! i = Some v' /\ veh_crashed v' = true.
Proof.
  revert s. induction l as [|j l IH]; intros s; cbn [foldl].
  - split; [apply crashed_more_refl|]. split; [done|].
    intros i v Hin. by apply elem_of_nil in Hin.
  - destruct (IH (FloodVehicleProc j z s)) as (Hmore & Htiles & Hrest).
    pose proof (crashed_more_FloodVehicleProc j z s) as Hstep.
    pose proof (tiles_FloodVehicleProc j z s) as Htstep.
    split; [by eapply crashed_more_trans|]. split; [congruence|].
    intros i v Hin Hv Hground.
    apply elem_of_cons in Hin as [-> | Hin].
    + destruct (FloodVehicleProc_crashes j z s v Hv Hground) as (v1 & Hv1 & Hc1).
      by eapply crashed_more_stays_crashed.
    + destruct (Hstep i v Hv) as [Hv1 | Hv1].
      * apply (Hrest i v Hin Hv1).
        destruct Hground as [Hg | Hg]; [by left|right].
        eapply grounded_aircraft_kept; [exact Htstep| |exact Hg]. by left.
      * apply (Hrest i _ Hin Hv1).
        destruct Hground as [Hg | Hg]; [by left|right].
        eapply grounded_aircraft_kept; [exact Htstep| |exact Hg]. by right.
Qed.

Lemma FloodVehiclesOnTile_crashes t z s :
  let s' := FloodVehiclesOnTile t z s in
  crashed_more (vehicles s) (vehicles s')
  /\ tiles s' = tiles s
  /\ forall i v, vehicles s !! i = Some v -> veh_tile v = t ->
       ((veh_type v = VEH_TRAIN \/ veh_type v = VEH_ROAD) /\ veh_z_pos v <= z)
       \/ grounded_aircraft s v ->
       exists v', vehicles s' !! i = Some v' /\ veh_crashed v' = true.
Proof.
  unfold FloodVehiclesOnTile.
  destruct (flood_vehicles_loop (VehiclesOnTile s t) z (emit (EvFloodVehiclesOnTile t z) s))
    as (Hmore & Htiles & Hall).
  split; [exact Hmore|]. split; [exact Htiles|].
  intros i v Hv Ht Hground. apply (Hall i v); [|exact Hv|exact Hground].
  unfold VehiclesOnTile. apply list_elem_of_In, filter_In. split.
  - apply in_seq. apply lookup_lt_Some in Hv. lia.
  - rewrite Hv. by apply Z.eqb_eq.
Qed.

(** The loop of [FloodVehicles] over the tiles to scan. *)
Lemma flood_targets_loop (l : list (TileIndex * Z)) s :
  let s' := foldl (fun acc tz => FloodVehiclesOnTile (fst tz) (snd tz) acc) s l in
  crashed_more (vehicles s) (vehicles s')
  /\ tiles s' = tiles s
  /\ forall a z i v, (a, z) ∈ l -> vehicles s !! i = Some v -> veh_tile v = a ->
       ((veh_type v = VEH_TRAIN \/ veh_type v = VEH_ROAD) /\ veh_z_pos v <= z)
       \/ grounded_aircraft s v ->
       exists v', vehicles s' !! i = Some v' /\ veh_crashed v' = true.
Proof.
  revert s. induction l as [|[b zb] l IH]; intros s; cbn [foldl fst snd].
  - split; [apply crashed_more_refl|]. split; [done|].
    intros a z i v Hin. by apply elem_of_nil in Hin.
  - destruct (IH (FloodVehiclesOnTile b zb s)) as (Hmore & Htiles & Hrest).
    destruct (FloodVehiclesOnTile_crashes b zb s) as (Hstep & Htstep & Hhere).
    split; [by eapply crashed_more_trans|]. split; [congruence|].
    intros a z i v Hin Hv Ha Hground.
    apply elem_of_cons in Hin as [Heq | Hin].
    + injection Heq as -> ->.
      destruct (Hhere i v Hv Ha Hground) as (v1 & Hv1 & Hc1).
      by eapply crashed_more_stays_crashed.
    + destruct (Hstep i v Hv) as [Hv1 | Hv1].
      * apply (Hrest a z i v Hin Hv1 Ha).
        destruct Hground as [Hg | Hg]; [by left|right].
        eapply grounded_aircraft_kept; [exact Htstep| |exact Hg]. by left.
      * apply (Hrest a z i _ Hin Hv1 Ha).
        destruct Hground as [Hg | Hg]; [by left|right].
        eapply grounded_aircraft_kept; [exact Htstep| |exact Hg]. by right.
Qed.

(** Every tile that has to be scanned is on the list that
    [FloodVehicles] goes through. *)
Lemma flood_scanned_target s t a z :
  flood_scanned s t a z -> (a, z) ∈ FloodVehicles_targets s t.
Proof.
  unfold flood_scanned, FloodVehicles_targets.
  destruct (IsAirportTile s t).
  - intros (-> & Ha & Hbelongs).
    apply (list_elem_of_fmap_2 (fun a => (a, 0))).
    unfold airport_tiles. apply list_elem_of_In, filter_In. split; [|exact Hbelongs].
    apply list_elem_of_In.
    replace a with (Z.of_nat (Z.to_nat a)) by lia.
    apply (list_elem_of_fmap_2 Z.of_nat), elem_of_seq. lia.
  - destruct (IsBridgeTile s t); cbn [negb].
    + intros (-> & [-> | ->]); [apply list_elem_of_here|].
      apply list_elem_of_further, list_elem_of_here.
    + intros [-> ->]. apply list_elem_of_here.
Qed.

(** ** The scan of the neighbours *)

Section EngineProperties.

Variable ClearTile_other : TileIndex -> State -> option State.
Variable FloodHalftile : TileIndex -> State -> State * bool.

#[local] Abbreviation CmdLandscapeClear' := (CmdLandscapeClear ClearTile_other).
#[local] Abbreviation DoFloodTile' := (DoFloodTile ClearTile_other FloodHalftile).
#[local] Abbreviation DoDryUp' := (DoDryUp ClearTile_other).
#[local] Abbreviation flood_dir' := (flood_dir ClearTile_other FloodHalftile).
#[local] Abbreviation TileLoop_Water' := (TileLoop_Water ClearTile_other FloodHalftile).

Lemma flood_dir_skipped tile s cf dir :
  flood_skipped s tile dir = true -> flood_dir' tile (s, cf) dir = (s, cf).
Proof.
  unfold flood_skipped, flood_dir, neighbour.
  set (dest := AddTileIndexDiffCWrap s tile (TileIndexDiffCByDir dir)).
  destruct (IsValidTile s dest); simpl; [|done].
  destruct (IsTileType s dest MP_WATER); simpl; [done|].
  intros ->. done.
Qed.

Lemma flood_dir_ineligible tile s cf dir :
  flood_skipped s tile dir = false -> flood_ineligible s tile dir = true ->
  flood_dir' tile (s, cf) dir = (s, true).
Proof.
  unfold flood_skipped, flood_ineligible, flood_dir, neighbour.
  set (dest := AddTileIndexDiffCWrap s tile (TileIndexDiffCByDir dir)).
  destruct (IsValidTile s dest); simpl; [|done].
  destruct (IsTileType s dest MP_WATER); simpl; [done|].
  intros ->.
  destruct (IsTileType s dest MP_TREES && bool_decide (GetTreeGround s dest = TREE_GROUND_SHORE));
    simpl; [done|].
  destruct (GetFoundationSlope s dest) as [slope_dest z_dest]; simpl.
  destruct (0 <? z_dest); simpl; [done|].
  intros ->. done.
Qed.

Lemma flood_dir_eligible tile s cf dir :
  flood_skipped s tile dir = false -> flood_ineligible s tile dir = false ->
  flood_dir' tile (s, cf) dir = (DoFloodTile' (neighbour s tile dir) s, true).
Proof.
  unfold flood_skipped, flood_ineligible, flood_dir, neighbour.
  set (dest := AddTileIndexDiffCWrap s tile (TileIndexDiffCByDir dir)).
  destruct (IsValidTile s dest); simpl; [|done].
  destruct (IsTileType s dest MP_WATER); simpl; [done|].
  intros ->.
  destruct (IsTileType s dest MP_TREES && bool_decide (GetTreeGround s dest = TREE_GROUND_SHORE));
    simpl; [done|].
  destruct (GetFoundationSlope s dest) as [slope_dest z_dest]; simpl.
  destruct (0 <? z_dest); simpl; [done|].
  intros Hneg. apply negb_false_iff in Hneg. rewrite Hneg. done.
Qed.

(** When no neighbour in [l] can be flooded, the scan over [l] changes
    nothing; it keeps the flooding going exactly when some neighbour is
    not skipped. *)
Lemma flood_scan_nothing_eligible tile s l cf :
  (forall dir, dir ∈ l -> flood_skipped s tile dir = true \/ flood_ineligible s tile dir = true) ->
  foldl (flood_dir' tile) (s, cf) l = (s, cf || negb (forallb (flood_skipped s tile) l)).
Proof.
  revert cf. induction l as [|d l IH]; intros cf Hl; cbn [foldl forallb].
  - by rewrite orb_false_r.
  - assert (Hrest : forall dir, dir ∈ l ->
        flood_skipped s tile dir = true \/ flood_ineligible s tile dir = true).
    { intros dir Hin. apply Hl. by right. }
    destruct (flood_skipped s tile d) eqn:Hsk.
    + rewrite flood_dir_skipped by done. simpl. by apply IH.
    + destruct (Hl d) as [Hd|Hd]; [by left|congruence|].
      rewrite flood_dir_ineligible by done. rewrite IH by done.
      simpl. by rewrite orb_true_r.
Qed.

(** C2 (amended).  A neighbour whose height, foundation included, is
    above 0 is never a flood target: the turn of the scan that visits
    it leaves the whole state as it is (no conversion, no vehicle
    flooded, nothing redrawn). *)
Theorem flood_dir_above_sea_level_untouched (tile : TileIndex) (s : State)
    (cf : bool) (dir : Direction) :
  0 < snd (GetFoundationSlope s (neighbour s tile dir)) ->
  fst (flood_dir' tile (s, cf) dir) = s.
Proof.
  intros Hz.
  destruct (flood_skipped s tile dir) eqn:Hsk.
  - by rewrite flood_dir_skipped.
  - rewrite flood_dir_ineligible; [done|done|].
    unfold flood_ineligible. apply Z.ltb_lt in Hz. rewrite Hz.
    by rewrite orb_true_r.
Qed.

(** ** The non-flooding state *)

Lemma TileLoop_Water_nothing_eligible tile s :
  IsTileType s tile MP_WATER = true ->
  IsNonFloodingWaterTile s tile = false ->
  GetFloodingBehaviour s tile = FLOOD_ACTIVE ->
  (forall dir, flood_skipped s tile dir = true \/ flood_ineligible s tile dir = true) ->
  TileLoop_Water' tile s =
  Some (if forallb (flood_skipped s tile) all_directions
        then SetNonFloodingWaterTile tile true (AmbientSoundEffect tile s)
        else AmbientSoundEffect tile s).
Proof.
  intros Hwater Hnf Hact Hall. unfold TileLoop_Water. rewrite Hwater.
  set (s1 := AmbientSoundEffect tile s).
  change (IsNonFloodingWaterTile s1 tile) with (IsNonFloodingWaterTile s tile).
  change (GetFloodingBehaviour s1 tile) with (GetFloodingBehaviour s tile).
  rewrite Hnf, Hact. cbn [andb]. cbv iota.
  rewrite (flood_scan_nothing_eligible tile s1 all_directions false).
  - change (forallb (flood_skipped s1 tile) all_directions)
      with (forallb (flood_skipped s tile) all_directions).
    change (IsTileType s1 tile MP_WATER) with (IsTileType s tile MP_WATER).
    rewrite Hwater. simpl. rewrite negb_involutive, andb_true_r. done.
  - intros dir _. apply (Hall dir).
Qed.

(** C8 (amended).  On a water tile that classifies Active, whose
    non-flooding state is clear and none of whose neighbours can be
    flooded now, [TileLoop_Water] converts nothing, and it sets the
    non-flooding state exactly when every neighbour is passed over by
    the first tests of the scan (invalid, water, buoy or dock).  A
    neighbour that passes them keeps the flooding going even though it
    cannot be flooded now (trees with shore ground, a height above 0, a
    slope closed on this side): the non-flooding state then stays
    clear. *)
Theorem TileLoop_Water_sets_non_flooding (tile : TileIndex) (s : State) :
  IsTileType s tile MP_WATER = true ->
  IsNonFloodingWaterTile s tile = false ->
  GetFloodingBehaviour s tile = FLOOD_ACTIVE ->
  (forall dir, flood_skipped s tile dir = true \/ flood_ineligible s tile dir = true) ->
  (forallb (flood_skipped s tile) all_directions = true ->
   TileLoop_Water' tile s
   = Some (SetNonFloodingWaterTile tile true (AmbientSoundEffect tile s))
   /\ IsNonFloodingWaterTile
        (SetNonFloodingWaterTile tile true (AmbientSoundEffect tile s)) tile = true)
  /\ (forallb (flood_skipped s tile) all_directions = false ->
      TileLoop_Water' tile s = Some (AmbientSoundEffect tile s)
      /\ IsNonFloodingWaterTile (AmbientSoundEffect tile s) tile = false).
Proof.
  intros Hwater Hnf Hact Hall.
  pose proof (TileLoop_Water_nothing_eligible tile s Hwater Hnf Hact Hall) as HTL.
  split; intros Hsk; rewrite Hsk in HTL; (split; [exact HTL|]).
  - unfold IsNonFloodingWaterTile, SetNonFloodingWaterTile.
    rewrite tile_at_update_same; [done|].
    unfold IsTileType, GetTileType in Hwater. apply bool_decide_eq_true in Hwater.
    change (tile_at (AmbientSoundEffect tile s) tile) with (tile_at s tile).
    by rewrite Hwater.
  - exact Hnf.
Qed.

(** C7.  A sea tile whose eight neighbours are all water tiles: the
    first call of [TileLoop_Water] changes nothing on the map but the
    non-flooding state of the tile, which it sets; the second call
    returns at once, with the same map and the state still set.  Both
    calls only add the ambient sound to the trace. *)
Theorem TileLoop_Water_sea_fixed_point (tile : TileIndex) (s : State) :
  is_sea (tile_at s tile) ->
  (forall dir, IsTileType s (neighbour s tile dir) MP_WATER = true) ->
  exists s1 s2,
    TileLoop_Water' tile s = Some s1
    /\ tiles s1 = alter (set_non_flooding true) (Z.to_nat tile) (tiles s)
    /\ IsNonFloodingWaterTile s1 tile = true
    /\ vehicles s1 = vehicles s
    /\ events s1 = events s ++ [EvAmbientSoundEffect tile]
    /\ TileLoop_Water' tile s1 = Some s2
    /\ tiles s2 = tiles s1
    /\ IsNonFloodingWaterTile s2 tile = true
    /\ s2 = AmbientSoundEffect tile s1.
Proof.
  intros (Hty & Hwtt & Hwc) Hnb.
  assert (Hwater : IsTileType s tile MP_WATER = true).
  { unfold IsTileType, GetTileType. by apply bool_decide_eq_true. }
  assert (Hsecond : forall s1, IsTileType s1 tile MP_WATER = true ->
            IsNonFloodingWaterTile s1 tile = true ->
            TileLoop_Water' tile s1 = Some (AmbientSoundEffect tile s1)).
  { intros s1 Hw1 Hnf1. unfold TileLoop_Water. rewrite Hw1.
    change (IsNonFloodingWaterTile (AmbientSoundEffect tile s1) tile)
      with (IsNonFloodingWaterTile s1 tile).
    by rewrite Hnf1. }
  destruct (IsNonFloodingWaterTile s tile) eqn:Hnf.
  - (* the state is already set: both calls take the fast path *)
    exists (AmbientSoundEffect tile s), (AmbientSoundEffect tile (AmbientSoundEffect tile s)).
    repeat split; try done.
    + by apply Hsecond.
    + simpl. symmetry. apply alter_fixed. intros x Hx.
      unfold IsNonFloodingWaterTile, tile_at in Hnf. rewrite Hx in Hnf. simpl in Hnf.
      destruct x; simpl in *; by subst.
    + by apply Hsecond.
  - assert (Hact : GetFloodingBehaviour s tile = FLOOD_ACTIVE).
    { unfold GetFloodingBehaviour, GetTileType, IsCoast, GetWaterTileType, GetWaterClass.
      by rewrite Hty, Hwtt, Hwc. }
    assert (Hall : forall dir, flood_skipped s tile dir = true).
    { intros dir. unfold flood_skipped. rewrite (Hnb dir). by rewrite orb_true_r. }
    assert (Hfa : forallb (flood_skipped s tile) all_directions = true).
    { apply forallb_forall. intros dir _. apply Hall. }
    pose proof (TileLoop_Water_nothing_eligible tile s Hwater Hnf Hact
                  (fun dir => or_introl (Hall dir))) as HTL.
    rewrite Hfa in HTL.
    set (s1 := SetNonFloodingWaterTile tile true (AmbientSoundEffect tile s)) in *.
    assert (Hnf1 : IsNonFloodingWaterTile s1 tile = true).
    { unfold IsNonFloodingWaterTile, s1, SetNonFloodingWaterTile.
      rewrite tile_at_update_same; [done|].
      change (tile_at (AmbientSoundEffect tile s) tile) with (tile_at s tile).
      by rewrite Hty. }
    assert (Hw1 : IsTileType s1 tile MP_WATER = true).
    { unfold IsTileType, GetTileType, s1, SetNonFloodingWaterTile.
      rewrite tile_at_update_same.
      - change (tile_at (AmbientSoundEffect tile s) tile) with (tile_at s tile).
        simpl. by apply bool_decide_eq_true.
      - change (tile_at (AmbientSoundEffect tile s) tile) with (tile_at s tile).
        by rewrite Hty. }
    exists s1, (AmbientSoundEffect tile s1).
    repeat split; try done.
    by apply Hsecond.
Qed.

(** ** Flooding a tile *)

Lemma tile_at_only_ve s s' t : only_ve s s' -> tile_at s' t = tile_at s t.
Proof. by intros (vs & evs & ->). Qed.

Lemma tile_at_flood_epilogue target s t :
  tile_at (flood_epilogue target s) t = tile_at s t.
Proof.
  unfold flood_epilogue, InvalidateWaterRegion, UpdateSignalsInBuffer.
  destruct (MarkCanalsAndRiversAroundDirty_only_events target s) as (evs & ->). done.
Qed.

Lemma tile_at_DoClearSquare t s :
  tile_type (tile_at s t) <> MP_VOID ->
  tile_at (DoClearSquare t s) t = make_clear CLEAR_GRASS 0 (tile_at s t).
Proof.
  intros Hin. unfold DoClearSquare, MarkTileDirtyByTile, MakeClear.
  change (tile_at (emit ?e ?x) t) with (tile_at x t).
  by rewrite tile_at_update_same.
Qed.

Lemma CmdLandscapeClear_land t s :
  GetTileType s t = MP_CLEAR \/ GetTileType s t = MP_TREES ->
  CmdLandscapeClear' t s = Some (DoClearSquare t s).
Proof. unfold CmdLandscapeClear. by intros [-> | ->]. Qed.

(** The three ways [DoFloodTile] converts plain land and trees. *)
Lemma DoFloodTile_land_sloped target s :
  GetTileSlope s target <> SLOPE_FLAT ->
  GetTileType s target = MP_CLEAR
  \/ (GetTileType s target = MP_TREES
      /\ IsSlopeWithOneCornerRaised (GetTileSlope s target) = true) ->
  DoFloodTile' target s =
  set_current_company (current_company s)
    (flood_epilogue target
       (MarkTileDirtyByTile target
          (MakeShore target (DoClearSquare target (set_current_company OWNER_WATER s))))).
Proof.
  intros Hsl Hty. unfold DoFloodTile.
  set (sw := set_current_company OWNER_WATER s).
  change (GetTileSlope sw target) with (GetTileSlope s target).
  change (GetTileType sw target) with (GetTileType s target).
  apply Z.eqb_neq in Hsl. rewrite Hsl. cbn [negb].
  rewrite (CmdLandscapeClear_land target sw)
    by (change (GetTileType sw target) with (GetTileType s target); tauto).
  destruct Hty as [-> | [-> ->]]; done.
Qed.

Lemma DoFloodTile_land_flat target s :
  GetTileSlope s target = SLOPE_FLAT ->
  GetTileType s target = MP_CLEAR \/ GetTileType s target = MP_TREES ->
  DoFloodTile' target s =
  set_current_company (current_company s)
    (flood_epilogue target
       (MarkTileDirtyByTile target
          (MakeSea target
             (DoClearSquare target
                (FloodVehicles target (set_current_company OWNER_WATER s)))))).
Proof.
  intros Hsl Hty. unfold DoFloodTile.
  set (sw := set_current_company OWNER_WATER s).
  change (GetTileSlope sw target) with (GetTileSlope s target).
  rewrite Hsl. cbn [Z.eqb negb].
  rewrite (CmdLandscapeClear_land target (FloodVehicles target sw)); [done|].
  unfold GetTileType in *. rewrite (tile_at_only_ve sw) by apply FloodVehicles_only_ve.
  exact Hty.
Qed.

Lemma DoFloodTile_trees_shore_ground target s :
  GetTileSlope s target <> SLOPE_FLAT ->
  GetTileType s target = MP_TREES ->
  IsSlopeWithOneCornerRaised (GetTileSlope s target) = false ->
  DoFloodTile' target s =
  set_current_company (current_company s)
    (flood_epilogue target
       (MarkTileDirtyByTile target
          (SetTreeGroundDensity target TREE_GROUND_SHORE 3
             (set_current_company OWNER_WATER s)))).
Proof.
  intros Hsl Hty Hone. unfold DoFloodTile.
  set (sw := set_current_company OWNER_WATER s).
  change (GetTileSlope sw target) with (GetTileSlope s target).
  change (GetTileType sw target) with (GetTileType s target).
  apply Z.eqb_neq in Hsl. rewrite Hsl, Hty, Hone. done.
Qed.

Lemma tile_at_flooded_to_shore target s :
  tile_type (tile_at s target) <> MP_VOID ->
  tile_at (set_current_company (current_company s)
    (flood_epilogue target
       (MarkTileDirtyByTile target
          (MakeShore target (DoClearSquare target (set_current_company OWNER_WATER s))))))
    target
  = make_water WATER_TILE_COAST (tile_at s target).
Proof.
  intros Hin.
  change (tile_at (set_current_company ?o ?x) target) with (tile_at x target).
  rewrite tile_at_flood_epilogue.
  unfold MarkTileDirtyByTile, MakeShore.
  change (tile_at (emit ?e ?x) target) with (tile_at x target).
  rewrite tile_at_update_same; rewrite tile_at_DoClearSquare; done.
Qed.

Lemma tile_at_flooded_to_sea target s :
  tile_type (tile_at s target) <> MP_VOID ->
  tile_at (set_current_company (current_company s)
    (flood_epilogue target
       (MarkTileDirtyByTile target
          (MakeSea target
             (DoClearSquare target
                (FloodVehicles target (set_current_company OWNER_WATER s)))))))
    target
  = make_water WATER_TILE_CLEAR (tile_at s target).
Proof.
  intros Hin.
  change (tile_at (set_current_company ?o ?x) target) with (tile_at x target).
  rewrite tile_at_flood_epilogue.
  unfold MarkTileDirtyByTile, MakeSea.
  change (tile_at (emit ?e ?x) target) with (tile_at x target).
  assert (Hfv : tile_at (FloodVehicles target (set_current_company OWNER_WATER s)) target
                = tile_at s target).
  { by rewrite (tile_at_only_ve (set_current_company OWNER_WATER s))
      by apply FloodVehicles_only_ve. }
  rewrite tile_at_update_same; rewrite tile_at_DoClearSquare; rewrite ?Hfv; done.
Qed.

Lemma tile_at_flooded_trees target s :
  tile_type (tile_at s target) <> MP_VOID ->
  tile_at (set_current_company (current_company s)
    (flood_epilogue target
       (MarkTileDirtyByTile target
          (SetTreeGroundDensity target TREE_GROUND_SHORE 3
             (set_current_company OWNER_WATER s)))))
    target
  = set_tree_ground_density TREE_GROUND_SHORE 3 (tile_at s target).
Proof.
  intros Hin.
  change (tile_at (set_current_company ?o ?x) target) with (tile_at x target).
  rewrite tile_at_flood_epilogue.
  unfold MarkTileDirtyByTile, SetTreeGroundDensity.
  change (tile_at (emit ?e ?x) target) with (tile_at x target).
  by rewrite tile_at_update_same.
Qed.

(** C3.  When the scan reaches a neighbour that is plain land at height
    0 and can be flooded from this side, the neighbour becomes coast,
    with its slope, when it is not flat, and open sea at once when it is
    flat. *)
Theorem flood_converts_clear_land (tile : TileIndex) (s : State) (cf : bool)
    (dir : Direction) :
  flood_skipped s tile dir = false ->
  flood_ineligible s tile dir = false ->
  GetTileType s (neighbour s tile dir) = MP_CLEAR ->
  snd (GetFoundationSlope s (neighbour s tile dir)) = 0 ->
  (GetTileSlope s (neighbour s tile dir) <> SLOPE_FLAT ->
   tile_at (fst (flood_dir' tile (s, cf) dir)) (neighbour s tile dir)
   = make_water WATER_TILE_COAST (tile_at s (neighbour s tile dir))
   /\ is_coast (tile_at (fst (flood_dir' tile (s, cf) dir)) (neighbour s tile dir)))
  /\ (GetTileSlope s (neighbour s tile dir) = SLOPE_FLAT ->
      tile_at (fst (flood_dir' tile (s, cf) dir)) (neighbour s tile dir)
      = make_water WATER_TILE_CLEAR (tile_at s (neighbour s tile dir))
      /\ is_sea (tile_at (fst (flood_dir' tile (s, cf) dir)) (neighbour s tile dir))).
Proof.
  intros Hsk Hel Hty _.
  rewrite flood_dir_eligible by done. cbn [fst].
  set (dest := neighbour s tile dir) in *.
  assert (Hin : tile_type (tile_at s dest) <> MP_VOID).
  { unfold GetTileType in Hty. by rewrite Hty. }
  split; intros Hsl.
  - rewrite DoFloodTile_land_sloped by tauto.
    rewrite tile_at_flooded_to_shore by done. by split.
  - rewrite DoFloodTile_land_flat by tauto.
    rewrite tile_at_flooded_to_sea by done. by split.
Qed.

(** C9 (amended).  When the scan reaches a tree neighbour that can be
    flooded from this side: on a slope with more than one raised corner
    the trees are only given shore ground (type, slope and height are
    kept); on a slope with one raised corner they are cleared and the
    tile becomes coast; on flat ground they are cleared and the tile
    becomes sea. *)
Theorem flood_trees (tile : TileIndex) (s : State) (cf : bool) (dir : Direction) :
  flood_skipped s tile dir = false ->
  flood_ineligible s tile dir = false ->
  GetTileType s (neighbour s tile dir) = MP_TREES ->
  (GetTileSlope s (neighbour s tile dir) <> SLOPE_FLAT ->
   IsSlopeWithOneCornerRaised (GetTileSlope s (neighbour s tile dir)) = false ->
   tile_at (fst (flood_dir' tile (s, cf) dir)) (neighbour s tile dir)
   = set_tree_ground_density TREE_GROUND_SHORE 3 (tile_at s (neighbour s tile dir)))
  /\ (IsSlopeWithOneCornerRaised (GetTileSlope s (neighbour s tile dir)) = true ->
      is_coast (tile_at (fst (flood_dir' tile (s, cf) dir)) (neighbour s tile dir)))
  /\ (GetTileSlope s (neighbour s tile dir) = SLOPE_FLAT ->
      is_sea (tile_at (fst (flood_dir' tile (s, cf) dir)) (neighbour s tile dir))).
Proof.
  intros Hsk Hel Hty.
  rewrite flood_dir_eligible by done. cbn [fst].
  set (dest := neighbour s tile dir) in *.
  assert (Hin : tile_type (tile_at s dest) <> MP_VOID).
  { unfold GetTileType in Hty. by rewrite Hty. }
  split; [|split].
  - intros Hsl Hone. rewrite DoFloodTile_trees_shore_ground by done.
    by rewrite tile_at_flooded_trees.
  - intros Hone.
    assert (Hsl : GetTileSlope s dest <> SLOPE_FLAT).
    { intros Heq. rewrite Heq in Hone. discriminate. }
    rewrite DoFloodTile_land_sloped by tauto.
    rewrite tile_at_flooded_to_shore by done. by split.
  - intros Hsl. rewrite DoFloodTile_land_flat by tauto.
    rewrite tile_at_flooded_to_sea by done. by split.
Qed.

(** ** The directions of the scan *)

Lemma flood_from_dirs_out_of_table x : x < 0 \/ 15 <= x -> flood_from_dirs x = [].
Proof.
  intros [Hx|Hx]; unfold flood_from_dirs.
  - apply Z.ltb_lt in Hx. by rewrite Hx.
  - destruct (x <? 0); [done|].
    rewrite (lookup_ge_None_2 _flood_from_dirs (Z.to_nat x)); [done|].
    simpl. lia.
Qed.

Lemma cardinal_entries x d :
  IsDiagonalDirection d = false ->
  dirs_test (flood_from_dirs x) d = true <-> x = cardinal_entry_slope d.
Proof.
  intros Hd.
  destruct (decide (x < 0 \/ 15 <= x)) as [Hout|Hin].
  - rewrite flood_from_dirs_out_of_table by done.
    split; [discriminate|]. intros ->. exfalso.
    destruct d; try discriminate Hd; vm_compute in Hout;
      (destruct Hout as [H|H]; [discriminate H | apply H; reflexivity]).
  - assert (Hx : x = 0 \/ x = 1 \/ x = 2 \/ x = 3 \/ x = 4 \/ x = 5 \/ x = 6 \/ x = 7
                 \/ x = 8 \/ x = 9 \/ x = 10 \/ x = 11 \/ x = 12 \/ x = 13 \/ x = 14) by lia.
    clear Hin.
    repeat (destruct Hx as [->|Hx]);
      try subst x; destruct d; try discriminate Hd; vm_compute; split; congruence.
Qed.

(** C4 (amended).  The scan of an Active tile visits all eight
    neighbours, in the order of the direction enumeration, the four
    cardinal ones ([DIR_N], [DIR_E], [DIR_S], [DIR_W]) included; in
    each of the eight directions a neighbour that passes the tests is
    handed to [DoFloodTile].  A neighbour in a cardinal direction passes
    the slope test exactly when its slope has three raised corners with
    the low corner towards the flooding tile. *)
Theorem flood_scans_all_eight_directions :
  (forall tile s,
      GetFloodingBehaviour s tile = FLOOD_ACTIVE ->
      IsTileType s tile MP_WATER && IsNonFloodingWaterTile s tile = false ->
      TileLoop_Water' tile s
      = Some (let s1 := if IsTileType s tile MP_WATER
                        then AmbientSoundEffect tile s else s in
              let r := foldl (flood_dir' tile) (s1, false)
                             [DIR_N; DIR_NE; DIR_E; DIR_SE; DIR_S; DIR_SW; DIR_W; DIR_NW] in
              if negb (snd r) && IsTileType (fst r) tile MP_WATER
              then SetNonFloodingWaterTile tile true (fst r)
              else fst r))
  /\ (forall tile s cf dir,
        flood_skipped s tile dir = false ->
        flood_ineligible s tile dir = false ->
        flood_dir' tile (s, cf) dir = (DoFloodTile' (neighbour s tile dir) s, true))
  /\ (forall sl dir,
        IsDiagonalDirection dir = false ->
        dirs_test (flood_from_dirs (table_slope sl)) (ReverseDir dir) = true
        <-> table_slope sl = cardinal_entry_slope (ReverseDir dir)).
Proof.
  split; [|split].
  - intros tile s Hact Hq. unfold TileLoop_Water.
    set (s1 := if IsTileType s tile MP_WATER then AmbientSoundEffect tile s else s).
    assert (Hs1 : IsNonFloodingWaterTile s1 tile = IsNonFloodingWaterTile s tile
                  /\ GetFloodingBehaviour s1 tile = GetFloodingBehaviour s tile).
    { unfold s1. by destruct (IsTileType s tile MP_WATER). }
    destruct Hs1 as [-> ->]. rewrite Hq, Hact.
    change all_directions with [DIR_N; DIR_NE; DIR_E; DIR_SE; DIR_S; DIR_SW; DIR_W; DIR_NW].
    by destruct (foldl _ _ _) as [s' cf].
  - intros. by apply flood_dir_eligible.
  - intros sl dir Hd. apply cardinal_entries. by destruct dir.
Qed.

(** ** The trace *)

Lemma extends_trace_refl s : extends_trace s s.
Proof. exists []. by rewrite app_nil_r. Qed.

















(** ** Drying up *)

Lemma update_tile_preserves {A} (g : Tile -> A) f t t' s :
  (forall x, g (f x) = g x) ->
  g (tile_at (update_tile f t s) t') = g (tile_at s t').
Proof.
  intros Hg. unfold tile_at, update_tile; simpl.
  destruct (decide (Z.to_nat t = Z.to_nat t')) as [Heq|Hne].
  - rewrite Heq, list_lookup_alter_eq. destruct (tiles s !! Z.to_nat t'); simpl; [apply Hg|done].
  - by rewrite list_lookup_alter_ne.
Qed.

Lemma ClearNeighbourNonFloodingStates_keeps {A} (g : Tile -> A) t s :
  (forall b x, g (set_non_flooding b x) = g x) ->
  forall t', g (tile_at (ClearNeighbourNonFloodingStates t s) t') = g (tile_at s t').
Proof.
  intros Hg. unfold ClearNeighbourNonFloodingStates.
  apply (foldl_invariant (fun acc => forall t', g (tile_at acc t') = g (tile_at s t')));
    [done|].
  intros acc d Hacc t'. case_match; [|apply Hacc].
  unfold SetNonFloodingWaterTile. rewrite update_tile_preserves by apply Hg. apply Hacc.
Qed.

Lemma restore_company s :
  set_current_company (current_company s) (set_current_company OWNER_WATER s) = s.
Proof. by destruct s. Qed.

Lemma CmdLandscapeClear_coast tile s :
  GetTileType s tile = MP_WATER -> IsCoast s tile = true ->
  CmdLandscapeClear' tile s
  = if EnsureNoVehicleOnGround s tile
    then Some (ClearNeighbourNonFloodingStates tile
                 (MarkCanalsAndRiversAroundDirty tile (DoClearSquare tile s)))
    else None.
Proof.
  intros Hty Hcoast. unfold CmdLandscapeClear, ClearTile_Water_coast.
  rewrite Hty, Hcoast. by destruct (EnsureNoVehicleOnGround s tile).
Qed.

Lemma DoDryUp_coast_fails tile s :
  GetTileType s tile = MP_WATER -> IsCoast s tile = true ->
  EnsureNoVehicleOnGround s tile = false ->
  DoDryUp' tile s = Some s.
Proof.
  intros Hty Hcoast Hveh. unfold DoDryUp.
  set (sw := set_current_company OWNER_WATER s).
  change (GetTileType sw tile) with (GetTileType s tile).
  change (IsCoast sw tile) with (IsCoast s tile).
  rewrite Hty, Hcoast. cbn [negb].
  rewrite CmdLandscapeClear_coast by done.
  change (EnsureNoVehicleOnGround sw tile) with (EnsureNoVehicleOnGround s tile).
  rewrite Hveh. simpl. by rewrite restore_company.
Qed.

Lemma DoDryUp_coast_succeeds tile s :
  GetTileType s tile = MP_WATER -> IsCoast s tile = true ->
  EnsureNoVehicleOnGround s tile = true ->
  exists s',
    DoDryUp' tile s = Some s'
    /\ tile_at s' tile = make_clear CLEAR_GRASS 3 (tile_at s tile)
    /\ EvMarkTileDirty tile ∈ events s'.
Proof.
  intros Hty Hcoast Hveh. unfold DoDryUp.
  set (sw := set_current_company OWNER_WATER s).
  change (GetTileType sw tile) with (GetTileType s tile).
  change (IsCoast sw tile) with (IsCoast s tile).
  rewrite Hty, Hcoast. cbn [negb].
  rewrite CmdLandscapeClear_coast by done.
  change (EnsureNoVehicleOnGround sw tile) with (EnsureNoVehicleOnGround s tile).
  rewrite Hveh. simpl.
  set (sc := ClearNeighbourNonFloodingStates tile
               (MarkCanalsAndRiversAroundDirty tile (DoClearSquare tile sw))).
  eexists. split; [reflexivity|].
  assert (Hin : tile_type (tile_at s tile) <> MP_VOID).
  { unfold GetTileType in Hty. by rewrite Hty. }
  assert (Hcleared : tile_at (MarkCanalsAndRiversAroundDirty tile (DoClearSquare tile sw)) tile
                     = make_clear CLEAR_GRASS 0 (tile_at s tile)).
  { rewrite (tile_at_only_ve (DoClearSquare tile sw))
      by apply only_events_only_ve, MarkCanalsAndRiversAroundDirty_only_events.
    by rewrite tile_at_DoClearSquare. }
  assert (Hty' : tile_type (tile_at sc tile) = MP_CLEAR).
  { unfold sc. rewrite (ClearNeighbourNonFloodingStates_keeps tile_type) by done.
    by rewrite Hcleared. }
  assert (Hsl' : tile_slope (tile_at sc tile) = tile_slope (tile_at s tile)).
  { unfold sc. rewrite (ClearNeighbourNonFloodingStates_keeps tile_slope) by done.
    by rewrite Hcleared. }
  assert (Hz' : tile_z (tile_at sc tile) = tile_z (tile_at s tile)).
  { unfold sc. rewrite (ClearNeighbourNonFloodingStates_keeps tile_z) by done.
    by rewrite Hcleared. }
  split.
  - change (tile_at (set_current_company ?o ?x) tile) with (tile_at x tile).
    unfold MarkTileDirtyByTile, MakeClear.
    change (tile_at (emit ?e ?x) tile) with (tile_at x tile).
    rewrite tile_at_update_same by (by rewrite Hty').
    unfold make_clear. by rewrite Hsl', Hz'.
  - simpl. apply elem_of_app. right. apply list_elem_of_here.
Qed.

Lemma DoDryUp_trees tile s :
  GetTileType s tile = MP_TREES ->
  exists s',
    DoDryUp' tile s = Some s'
    /\ tile_at s' tile = set_tree_ground_density TREE_GROUND_GRASS 3 (tile_at s tile).
Proof.
  intros Hty. unfold DoDryUp.
  set (sw := set_current_company OWNER_WATER s).
  change (GetTileType sw tile) with (GetTileType s tile). rewrite Hty. simpl.
  eexists. split; [reflexivity|].
  change (tile_at (set_current_company ?o ?x) tile) with (tile_at x tile).
  unfold MarkTileDirtyByTile, SetTreeGroundDensity.
  change (tile_at (emit ?e ?x) tile) with (tile_at x tile).
  rewrite tile_at_update_same; [done|].
  unfold GetTileType in Hty. change (tile_at sw tile) with (tile_at s tile). by rewrite Hty.
Qed.

Lemma DoDryUp_rail tile s g :
  GetTileType s tile = MP_RAILWAY ->
  IsPlainRail s tile = true ->
  GetRailGroundType s tile = RAIL_GROUND_WATER ->
  dry_rail_ground (GetTrackBits s tile) = Some g ->
  exists s',
    DoDryUp' tile s = Some s'
    /\ tile_at s' tile = set_rail_ground g (tile_at s tile).
Proof.
  intros Hty Hplain Hground Hbits. unfold DoDryUp.
  set (sw := set_current_company OWNER_WATER s).
  change (GetTileType sw tile) with (GetTileType s tile).
  change (IsPlainRail sw tile) with (IsPlainRail s tile).
  change (GetRailGroundType sw tile) with (GetRailGroundType s tile).
  change (GetTrackBits sw tile) with (GetTrackBits s tile).
  rewrite Hty, Hplain, Hground, Hbits. simpl.
  eexists. split; [reflexivity|].
  change (tile_at (set_current_company ?o ?x) tile) with (tile_at x tile).
  unfold MarkTileDirtyByTile, SetRailGroundType.
  change (tile_at (emit ?e ?x) tile) with (tile_at x tile).
  rewrite tile_at_update_same; [done|].
  unfold GetTileType in Hty. change (tile_at sw tile) with (tile_at s tile). by rewrite Hty.
Qed.

(** C10.  Drying up a coast tile is all or nothing.  The landscape
    clear command fails exactly when a vehicle stands on the ground of
    the tile; [DoDryUp] then returns with the state as it was: the tile
    is still coast, no other tile is changed and nothing is redrawn.
    When the command succeeds the tile becomes plain grass land and is
    redrawn. *)
Theorem DoDryUp_coast_all_or_nothing (tile : TileIndex) (s : State) :
  GetTileType s tile = MP_WATER ->
  IsCoast s tile = true ->
  (CmdLandscapeClear' tile s = None <-> EnsureNoVehicleOnGround s tile = false)
  /\ (CmdLandscapeClear' tile s = None ->
      DoDryUp' tile s = Some s /\ is_coast (tile_at s tile))
  /\ (CmdLandscapeClear' tile s <> None ->
      exists s',
        DoDryUp' tile s = Some s'
        /\ tile_at s' tile = make_clear CLEAR_GRASS 3 (tile_at s tile)
        /\ GetTileType s' tile = MP_CLEAR
        /\ EvMarkTileDirty tile ∈ events s').
Proof.
  intros Hty Hcoast.
  rewrite CmdLandscapeClear_coast by done.
  destruct (EnsureNoVehicleOnGround s tile) eqn:Hveh.
  - split; [split; discriminate|]. split; [discriminate|]. intros _.
    destruct (DoDryUp_coast_succeeds tile s Hty Hcoast Hveh) as (s' & Hdry & Htile & Hev).
    exists s'. repeat split; try done. unfold GetTileType. by rewrite Htile.
  - split; [done|]. split; [|done]. intros _. split.
    + by apply DoDryUp_coast_fails.
    + split; [exact Hty|]. unfold IsCoast, GetWaterTileType in Hcoast.
      by apply bool_decide_eq_true in Hcoast.
Qed.

Lemma dryup_blocked_by_spec s tile dir :
  dryup_blocked_by s tile dir = true <->
  neighbour s tile dir <> INVALID_TILE
  /\ (GetFloodingBehaviour s (neighbour s tile dir) = FLOOD_ACTIVE
      \/ GetFloodingBehaviour s (neighbour s tile dir) = FLOOD_PASSIVE).
Proof.
  unfold dryup_blocked_by, neighbour.
  set (dest := AddTileIndexDiffCWrap s tile (TileIndexDiffCByDir dir)).
  destruct (Z.eqb_spec dest INVALID_TILE) as [Heq|Hne].
  - split; [discriminate|]. by intros [Hne _].
  - rewrite orb_true_iff, !bool_decide_eq_true. tauto.
Qed.

Lemma dryup_threatened_spec s tile :
  existsb (dryup_blocked_by s tile)
          (flood_from_dirs (table_slope (fst (GetFoundationSlope s tile)))) = true
  <-> dryup_threatened s tile.
Proof.
  unfold dryup_threatened. rewrite existsb_exists. split.
  - intros (dir & Hin & Hb). exists dir. split; [by apply list_elem_of_In|].
    by apply dryup_blocked_by_spec.
  - intros (dir & Hin & Hb). exists dir. split; [by apply list_elem_of_In|].
    by apply dryup_blocked_by_spec.
Qed.

Lemma TileLoop_Water_dryup_branch tile s :
  GetFloodingBehaviour s tile = FLOOD_DRYUP ->
  IsTileType s tile MP_WATER && IsNonFloodingWaterTile s tile = false ->
  TileLoop_Water' tile s
  = let s1 := if IsTileType s tile MP_WATER then AmbientSoundEffect tile s else s in
    if existsb (dryup_blocked_by s tile)
               (flood_from_dirs (table_slope (fst (GetFoundationSlope s tile))))
    then Some s1 else DoDryUp' tile s1.
Proof.
  intros Hdry Hq. unfold TileLoop_Water.
  destruct (IsTileType s tile MP_WATER) eqn:Hw; cbn zeta.
  - change (IsNonFloodingWaterTile (AmbientSoundEffect tile s) tile)
      with (IsNonFloodingWaterTile s tile).
    change (GetFloodingBehaviour (AmbientSoundEffect tile s) tile)
      with (GetFloodingBehaviour s tile).
    by rewrite Hq, Hdry.
  - by rewrite Hdry.
Qed.

(** C5 (amended).  A tile that classifies DryUp and whose non-flooding
    state does not cut the call short is left alone when it is
    threatened: when a neighbour in one of the directions of its own
    slope's entry set lies on the map array and classifies Active or
    Passive (a void tile classifies Active and blocks; a neighbour
    whose coordinates fall outside the map array is skipped).
    Otherwise [DoDryUp] runs: trees on shore ground become trees on
    grass; plain rail on water ground gets the fence that matches its
    track; a coast tile becomes plain grass land when no vehicle stands
    on its ground, and stays coast, with nothing changed, when one
    does. *)
Theorem TileLoop_Water_dry_up (tile : TileIndex) (s : State) :
  GetFloodingBehaviour s tile = FLOOD_DRYUP ->
  IsTileType s tile MP_WATER && IsNonFloodingWaterTile s tile = false ->
  (dryup_threatened s tile ->
   TileLoop_Water' tile s
   = Some (if IsTileType s tile MP_WATER then AmbientSoundEffect tile s else s))
  /\ (~ dryup_threatened s tile ->
      (GetTileType s tile = MP_TREES ->
       exists s', TileLoop_Water' tile s = Some s'
                  /\ tile_at s' tile
                     = set_tree_ground_density TREE_GROUND_GRASS 3 (tile_at s tile))
      /\ (GetTileType s tile = MP_RAILWAY ->
          IsPlainRail s tile = true ->
          forall g, dry_rail_ground (GetTrackBits s tile) = Some g ->
          exists s', TileLoop_Water' tile s = Some s'
                     /\ tile_at s' tile = set_rail_ground g (tile_at s tile))
      /\ (GetTileType s tile = MP_WATER ->
          EnsureNoVehicleOnGround s tile = true ->
          exists s', TileLoop_Water' tile s = Some s'
                     /\ tile_at s' tile = make_clear CLEAR_GRASS 3 (tile_at s tile))
      /\ (GetTileType s tile = MP_WATER ->
          EnsureNoVehicleOnGround s tile = false ->
          TileLoop_Water' tile s = Some (AmbientSoundEffect tile s)
          /\ is_coast (tile_at s tile))).
Proof.
  intros Hdry Hq.
  pose proof (TileLoop_Water_dryup_branch tile s Hdry Hq) as HTL. cbn zeta in HTL.
  split.
  - intros Hthr. apply dryup_threatened_spec in Hthr. by rewrite Hthr in HTL.
  - intros Hnot.
    destruct (existsb _ _) eqn:Hex in HTL;
      [exfalso; apply Hnot; by apply dryup_threatened_spec|].
    assert (Hwater : forall ty, GetTileType s tile = ty ->
              IsTileType s tile MP_WATER = bool_decide (ty = MP_WATER)).
    { intros ty <-. reflexivity. }
    split; [|split; [|split]].
    + intros Hty. rewrite (Hwater _ Hty) in HTL. simpl in HTL. rewrite HTL.
      by apply DoDryUp_trees.
    + intros Hty Hplain g Hg. rewrite (Hwater _ Hty) in HTL. simpl in HTL. rewrite HTL.
      apply DoDryUp_rail; try done.
      unfold GetFloodingBehaviour in Hdry. rewrite Hty in Hdry.
      by destruct (bool_decide_reflect (GetRailGroundType s tile = RAIL_GROUND_WATER)).
    + intros Hty Hveh. rewrite (Hwater _ Hty) in HTL. simpl in HTL. rewrite HTL.
      assert (Hcoast : IsCoast s tile = true).
      { unfold GetFloodingBehaviour in Hdry. rewrite Hty in Hdry.
        destruct (IsCoast s tile); [done|]. by case_match. }
      destruct (DoDryUp_coast_succeeds tile (AmbientSoundEffect tile s) Hty Hcoast Hveh)
        as (s' & Hs' & Htile & _).
      by exists s'.
    + intros Hty Hveh. rewrite (Hwater _ Hty) in HTL. simpl in HTL. rewrite HTL.
      assert (Hcoast : IsCoast s tile = true).
      { unfold GetFloodingBehaviour in Hdry. rewrite Hty in Hdry.
        destruct (IsCoast s tile); [done|]. by case_match. }
      split.
      * by apply (DoDryUp_coast_fails tile (AmbientSoundEffect tile s)).
      * split; [exact Hty|]. unfold IsCoast, GetWaterTileType in Hcoast.
        by apply bool_decide_eq_true in Hcoast.
Qed.

End EngineProperties.

(** * The properties on the example maps *)

Lemma GetFloodingBehaviour_case_table_witness :
  rail_water_ground_is_plain (tile_at ridge_rail_state (at_xy 5 5))
  /\ (GetFloodingBehaviour ridge_rail_state (at_xy 5 5)
      = spec_Classify (tile_at ridge_rail_state (at_xy 5 5))
      /\ forall s' t', GetFloodingBehaviour s' t' <> FLOOD_PASSIVE).
Proof.
  assert (H : rail_water_ground_is_plain (tile_at ridge_rail_state (at_xy 5 5))).
  { intros _ _. vm_compute. reflexivity. }
  split; [exact H|].
  apply (GetFloodingBehaviour_case_table ridge_rail_state (at_xy 5 5) H).
Defined.

(** C2 as stated fails.  On the ridge with a canal on the high ground:
    the coast tile (5, 5) classifies Active; its neighbour to the north,
    the canal tile (4, 4), lies at height 1; flooding the land tile
    (4, 5) next to both redraws the canals around it, the tile (4, 4)
    among them. *)
Lemma flood_redraws_canal_above_sea_level :
  GetFloodingBehaviour ridge_canal_state (at_xy 5 5) = FLOOD_ACTIVE
  /\ neighbour ridge_canal_state (at_xy 5 5) DIR_N = at_xy 4 4
  /\ 0 < snd (GetFoundationSlope ridge_canal_state (at_xy 4 4))
  /\ events ridge_canal_state = []
  /\ exists s', ex_TileLoop_Water (at_xy 5 5) ridge_canal_state = Some s'
                /\ EvMarkTileDirty (at_xy 4 4) ∈ events s'.
Proof.
  split; [by vm_compute|]. split; [by vm_compute|]. split; [by vm_compute|].
  split; [by vm_compute|].
  eexists. split; [vm_compute; reflexivity|].
  apply list_elem_of_In. vm_compute. tauto.
Qed.

Lemma flood_dir_above_sea_level_untouched_witness :
  0 < snd (GetFoundationSlope ridge_shore_state
             (neighbour ridge_shore_state (at_xy 5 5) DIR_N))
  /\ fst (ex_flood_dir (at_xy 5 5) (ridge_shore_state, false) DIR_N) = ridge_shore_state.
Proof.
  assert (H : 0 < snd (GetFoundationSlope ridge_shore_state
                         (neighbour ridge_shore_state (at_xy 5 5) DIR_N))).
  { by vm_compute. }
  split; [exact H|].
  apply (flood_dir_above_sea_level_untouched no_ClearTile_other no_FloodHalftile
           (at_xy 5 5) ridge_shore_state false DIR_N H).
Defined.

Lemma flood_converts_clear_land_witness :
  is_coast (tile_at (fst (ex_flood_dir (at_xy 5 5) (basin_state, false) DIR_SW))
                    (neighbour basin_state (at_xy 5 5) DIR_SW)).
Proof.
  assert (Hsk : flood_skipped basin_state (at_xy 5 5) DIR_SW = false) by (by vm_compute).
  assert (Hel : flood_ineligible basin_state (at_xy 5 5) DIR_SW = false) by (by vm_compute).
  assert (Hty : GetTileType basin_state (neighbour basin_state (at_xy 5 5) DIR_SW) = MP_CLEAR)
    by (by vm_compute).
  assert (Hz : snd (GetFoundationSlope basin_state
                      (neighbour basin_state (at_xy 5 5) DIR_SW)) = 0)
    by (by vm_compute).
  assert (Hsl : GetTileSlope basin_state (neighbour basin_state (at_xy 5 5) DIR_SW)
                <> SLOPE_FLAT) by (by vm_compute).
  exact (proj2 (proj1 (flood_converts_clear_land no_ClearTile_other no_FloodHalftile
                         (at_xy 5 5) basin_state false DIR_SW Hsk Hel Hty Hz) Hsl)).
Defined.

(** C4 as stated fails.  In the basin the tile (6, 6) is the neighbour
    of the sea tile (5, 5) in the cardinal direction [DIR_S] and in no
    diagonal direction; it is plain land before the call and coast
    after it. *)
Lemma flood_converts_cardinal_neighbour :
  GetFloodingBehaviour basin_state (at_xy 5 5) = FLOOD_ACTIVE
  /\ IsDiagonalDirection DIR_S = false
  /\ neighbour basin_state (at_xy 5 5) DIR_S = at_xy 6 6
  /\ (forall d, IsDiagonalDirection d = true ->
                neighbour basin_state (at_xy 5 5) d <> at_xy 6 6)
  /\ GetTileType basin_state (at_xy 6 6) = MP_CLEAR
  /\ exists s', ex_TileLoop_Water (at_xy 5 5) basin_state = Some s'
                /\ is_coast (tile_at s' (at_xy 6 6)).
Proof.
  split; [by vm_compute|]. split; [done|]. split; [by vm_compute|].
  split; [intros d Hd; destruct d; try discriminate Hd; by vm_compute|].
  split; [by vm_compute|].
  eexists. split; [vm_compute; reflexivity|]. by vm_compute.
Qed.

(** C5 as stated fails.  The coast tile (4, 5), with two raised
    corners, classifies DryUp; the one neighbour in the directions of
    its slope's entry set lies on the map, is not void and classifies
    None; a ship stands on the tile, the landscape clear command fails
    and the tile is still coast after the call. *)
Lemma threatless_coast_with_vehicle_stays_coast :
  GetFloodingBehaviour lone_coast_ship_state (at_xy 4 5) = FLOOD_DRYUP
  /\ GetTileSlope lone_coast_ship_state (at_xy 4 5) = SLOPE_SW
  /\ (forall dir,
        dir ∈ flood_from_dirs
                (table_slope (fst (GetFoundationSlope lone_coast_ship_state (at_xy 4 5)))) ->
        neighbour lone_coast_ship_state (at_xy 4 5) dir <> INVALID_TILE
        /\ GetTileType lone_coast_ship_state
             (neighbour lone_coast_ship_state (at_xy 4 5) dir) <> MP_VOID
        /\ GetFloodingBehaviour lone_coast_ship_state
             (neighbour lone_coast_ship_state (at_xy 4 5) dir) = FLOOD_NONE)
  /\ exists s', ex_TileLoop_Water (at_xy 4 5) lone_coast_ship_state = Some s'
                /\ tile_at s' (at_xy 4 5) = tile_at lone_coast_ship_state (at_xy 4 5)
                /\ is_coast (tile_at s' (at_xy 4 5)).
Proof.
  split; [by vm_compute|]. split; [by vm_compute|]. split.
  - intros dir Hin. apply list_elem_of_In in Hin. vm_compute in Hin.
    destruct Hin as [<-|[]]; by vm_compute.
  - eexists. split; [vm_compute; reflexivity|]. by vm_compute.
Qed.

Lemma TileLoop_Water_dry_up_witness :
  exists s', ex_TileLoop_Water (at_xy 4 5) lone_coast_state = Some s'
             /\ tile_at s' (at_xy 4 5)
                = make_clear CLEAR_GRASS 3 (tile_at lone_coast_state (at_xy 4 5)).
Proof.
  assert (Hdry : GetFloodingBehaviour lone_coast_state (at_xy 4 5) = FLOOD_DRYUP)
    by (by vm_compute).
  assert (Hq : IsTileType lone_coast_state (at_xy 4 5) MP_WATER
               && IsNonFloodingWaterTile lone_coast_state (at_xy 4 5) = false)
    by (by vm_compute).
  assert (Hnot : ~ dryup_threatened lone_coast_state (at_xy 4 5)).
  { intros (dir & Hin & _ & Hb). apply list_elem_of_In in Hin. vm_compute in Hin.
    destruct Hin as [<-|[]]; vm_compute in Hb; destruct Hb; discriminate. }
  assert (Hty : GetTileType lone_coast_state (at_xy 4 5) = MP_WATER) by (by vm_compute).
  assert (Hveh : EnsureNoVehicleOnGround lone_coast_state (at_xy 4 5) = true)
    by (by vm_compute).
  exact (proj1 (proj2 (proj2
           (proj2 (TileLoop_Water_dry_up no_ClearTile_other no_FloodHalftile
                     (at_xy 4 5) lone_coast_state Hdry Hq) Hnot))) Hty Hveh).
Defined.





Lemma TileLoop_Water_sea_fixed_point_witness :
  exists s1 s2,
    ex_TileLoop_Water (at_xy 5 5) open_sea_state = Some s1
    /\ tiles s1 = alter (set_non_flooding true) (Z.to_nat (at_xy 5 5)) (tiles open_sea_state)
    /\ IsNonFloodingWaterTile s1 (at_xy 5 5) = true
    /\ vehicles s1 = vehicles open_sea_state
    /\ events s1 = events open_sea_state ++ [EvAmbientSoundEffect (at_xy 5 5)]
    /\ ex_TileLoop_Water (at_xy 5 5) s1 = Some s2
    /\ tiles s2 = tiles s1
    /\ IsNonFloodingWaterTile s2 (at_xy 5 5) = true
    /\ s2 = AmbientSoundEffect (at_xy 5 5) s1.
Proof.
  assert (Hsea : is_sea (tile_at open_sea_state (at_xy 5 5))).
  { by vm_compute. }
  assert (Hnb : forall dir,
             IsTileType open_sea_state (neighbour open_sea_state (at_xy 5 5) dir) MP_WATER
             = true).
  { intros dir. destruct dir; by vm_compute. }
  exact (TileLoop_Water_sea_fixed_point no_ClearTile_other no_FloodHalftile
           (at_xy 5 5) open_sea_state Hsea Hnb).
Defined.

(** C8 as stated fails.  On the ridge with the wide coast the coast tile
    (5, 5) is a water tile that classifies Active; none of its
    neighbours can be flooded (seven are water, the land tile (4, 4)
    lies at height 1); the call converts nothing, and the non-flooding
    state of the tile is still clear after it. *)
Lemma nothing_to_flood_yet_not_quiescent :
  IsTileType ridge_wide_coast_state (at_xy 5 5) MP_WATER = true
  /\ GetFloodingBehaviour ridge_wide_coast_state (at_xy 5 5) = FLOOD_ACTIVE
  /\ (forall dir, flood_skipped ridge_wide_coast_state (at_xy 5 5) dir = true
                  \/ flood_ineligible ridge_wide_coast_state (at_xy 5 5) dir = true)
  /\ exists s', ex_TileLoop_Water (at_xy 5 5) ridge_wide_coast_state = Some s'
                /\ tiles s' = tiles ridge_wide_coast_state
                /\ IsNonFloodingWaterTile s' (at_xy 5 5) = false.
Proof.
  split; [by vm_compute|]. split; [by vm_compute|]. split.
  - intros dir. destruct dir; vm_compute; auto.
  - eexists. split; [vm_compute; reflexivity|]. by vm_compute.
Qed.

Lemma TileLoop_Water_sets_non_flooding_witness :
  ex_TileLoop_Water (at_xy 5 5) ridge_wide_coast_state
  = Some (AmbientSoundEffect (at_xy 5 5) ridge_wide_coast_state)
  /\ IsNonFloodingWaterTile (AmbientSoundEffect (at_xy 5 5) ridge_wide_coast_state)
       (at_xy 5 5) = false.
Proof.
  assert (Hw : IsTileType ridge_wide_coast_state (at_xy 5 5) MP_WATER = true)
    by (by vm_compute).
  assert (Hnf : IsNonFloodingWaterTile ridge_wide_coast_state (at_xy 5 5) = false)
    by (by vm_compute).
  assert (Hact : GetFloodingBehaviour ridge_wide_coast_state (at_xy 5 5) = FLOOD_ACTIVE)
    by (by vm_compute).
  assert (Hall : forall dir,
             flood_skipped ridge_wide_coast_state (at_xy 5 5) dir = true
             \/ flood_ineligible ridge_wide_coast_state (at_xy 5 5) dir = true).
  { intros dir. destruct dir; vm_compute; auto. }
  assert (Hsk : forallb (flood_skipped ridge_wide_coast_state (at_xy 5 5)) all_directions
                = false) by (by vm_compute).
  exact (proj2 (TileLoop_Water_sets_non_flooding no_ClearTile_other no_FloodHalftile
                  (at_xy 5 5) ridge_wide_coast_state Hw Hnf Hact Hall) Hsk).
Defined.

(** C9 as stated fails.  On the ridge with trees on the tile (5, 5),
    whose north corner alone is raised, the call on the sea tile (6, 5)
    reaches the trees from the south-west, clears them and leaves a
    coast tile: the type of the tile changes from trees to water. *)
Lemma trees_on_single_corner_slope_become_coast :
  GetTileType ridge_trees_state (at_xy 5 5) = MP_TREES
  /\ neighbour ridge_trees_state (at_xy 6 5) DIR_NE = at_xy 5 5
  /\ GetTreeGround ridge_trees_state (at_xy 5 5) = TREE_GROUND_GRASS
  /\ exists s', ex_TileLoop_Water (at_xy 6 5) ridge_trees_state = Some s'
                /\ GetTileType s' (at_xy 5 5) = MP_WATER
                /\ is_coast (tile_at s' (at_xy 5 5))
                /\ GetTreeGround s' (at_xy 5 5) <> TREE_GROUND_SHORE.
Proof.
  split; [by vm_compute|]. split; [by vm_compute|]. split; [by vm_compute|].
  eexists. split; [vm_compute; reflexivity|]. by vm_compute.
Qed.

Lemma flood_trees_witness :
  is_coast (tile_at (fst (ex_flood_dir (at_xy 6 5) (ridge_trees_state, false) DIR_NE))
                    (neighbour ridge_trees_state (at_xy 6 5) DIR_NE)).
Proof.
  assert (Hsk : flood_skipped ridge_trees_state (at_xy 6 5) DIR_NE = false)
    by (by vm_compute).
  assert (Hel : flood_ineligible ridge_trees_state (at_xy 6 5) DIR_NE = false)
    by (by vm_compute).
  assert (Hty : GetTileType ridge_trees_state
                  (neighbour ridge_trees_state (at_xy 6 5) DIR_NE) = MP_TREES)
    by (by vm_compute).
  assert (Hone : IsSlopeWithOneCornerRaised
                   (GetTileSlope ridge_trees_state
                      (neighbour ridge_trees_state (at_xy 6 5) DIR_NE)) = true)
    by (by vm_compute).
  exact (proj1 (proj2 (flood_trees no_ClearTile_other no_FloodHalftile
                         (at_xy 6 5) ridge_trees_state false DIR_NE Hsk Hel Hty)) Hone).
Defined.

Lemma DoDryUp_coast_all_or_nothing_witness :
  ex_DoDryUp (at_xy 4 5) lone_coast_ship_state = Some lone_coast_ship_state
  /\ is_coast (tile_at lone_coast_ship_state (at_xy 4 5)).
Proof.
  assert (Hty : GetTileType lone_coast_ship_state (at_xy 4 5) = MP_WATER)
    by (by vm_compute).
  assert (Hcoast : IsCoast lone_coast_ship_state (at_xy 4 5) = true) by (by vm_compute).
  assert (Hfail : CmdLandscapeClear no_ClearTile_other (at_xy 4 5) lone_coast_ship_state
                  = None) by (by vm_compute).
  exact (proj1 (proj2 (DoDryUp_coast_all_or_nothing no_ClearTile_other
                         (at_xy 4 5) lone_coast_ship_state Hty Hcoast)) Hfail).
Defined.

(** * Further properties of water_cmd.cpp *)

(** ** [ConvertGroundTilesIntoWaterTiles] *)

Lemma ground_preserved_refl s : ground_preserved s s.
Proof. split; [by destruct s|]. by split. Qed.

Lemma ground_preserved_size_x s acc :
  ground_preserved s acc -> map_size_x acc = map_size_x s.
Proof. intros (Hacc & _). by rewrite <- Hacc. Qed.

Lemma ground_preserved_Map_Size s acc :
  ground_preserved s acc -> Map_Size acc = Map_Size s.
Proof. intros (Hacc & _). by rewrite <- Hacc. Qed.

Lemma shore_making_neighbour_preserved s acc tile dir :
  ground_preserved s acc ->
  shore_making_neighbour acc tile dir = shore_making_neighbour s tile dir.
Proof.
  intros Hp. pose proof (ground_preserved_size_x s acc Hp) as Hx.
  destruct Hp as (_ & _ & Hg).
  unfold shore_making_neighbour, TileAddByDir, TileOffsByDir. rewrite Hx.
  set (dest := tile_add tile _).
  destruct (Hg dest) as (Hsl & _ & Hvoid).
  unfold GetTileSlope. by rewrite Hsl, Hvoid.
Qed.

Lemma existsb_ext_all {A} (f g : A -> bool) (l : list A) :
  (forall x, f x = g x) -> existsb f l = existsb g l.
Proof. intros H. induction l as [|x l IH]; simpl; [done|]. by rewrite H, IH. Qed.

Lemma tile_at_update_tile f t t' s :
  tile_at (update_tile f t s) t'
  = if decide (Z.to_nat t = Z.to_nat t')
    then match tiles s !! Z.to_nat t' with
         | Some x => f x
         | None => void_tile
         end
    else tile_at s t'.
Proof.
  unfold tile_at, update_tile; simpl. case_decide as Heq.
  - rewrite Heq, list_lookup_alter_eq. by destruct (tiles s !! Z.to_nat t').
  - by rewrite list_lookup_alter_ne.
Qed.

Lemma ground_preserved_make_water s acc wtt t :
  ground_preserved s acc ->
  tile_type (tile_at acc t) = MP_CLEAR ->
  ground_preserved s (update_tile (make_water wtt) t acc).
Proof.
  intros (Hacc & Hlen & Hg) Hty. split; [|split].
  - rewrite <- Hacc. reflexivity.
  - unfold update_tile. simpl. by rewrite length_alter.
  - intros t'. destruct (Hg t') as (Hsl & Hz & Hvoid).
    rewrite <- Hsl, <- Hz, <- Hvoid. unfold IsTileType, GetTileType.
    rewrite !tile_at_update_tile. case_decide as Heq; [|done].
    unfold tile_at in *. rewrite Heq in Hty.
    destruct (tiles acc !! Z.to_nat t') as [x|]; simpl in *; [|done].
    by rewrite Hty.
Qed.

(** One turn of the loop, read off the state before the whole call. *)
Lemma convert_ground_tile_spec s acc i :
  ground_preserved s acc ->
  tile_at acc (Z.of_nat i) = tile_at s (Z.of_nat i) ->
  ground_preserved s (convert_ground_tile acc (Z.of_nat i))
  /\ forall j, tile_at (convert_ground_tile acc (Z.of_nat i)) (Z.of_nat j)
               = if decide (j = i) then ground_to_water s (Z.of_nat i)
                 else tile_at acc (Z.of_nat j).
Proof.
  intros Hp Hi.
  assert (Hex : existsb (shore_making_neighbour acc (Z.of_nat i))
                        (flood_from_dirs (Z.land (tile_slope (tile_at s (Z.of_nat i)))
                                                 (Z.lnot SLOPE_STEEP)))
                = existsb (shore_making_neighbour s (Z.of_nat i))
                          (flood_from_dirs (Z.land (tile_slope (tile_at s (Z.of_nat i)))
                                                   (Z.lnot SLOPE_STEEP)))).
  { apply existsb_ext_all. intros d. by apply shore_making_neighbour_preserved. }
  assert (Hupd : forall wtt,
             tile_type (tile_at s (Z.of_nat i)) = MP_CLEAR ->
             ground_preserved s (update_tile (make_water wtt) (Z.of_nat i) acc)
             /\ forall j, tile_at (update_tile (make_water wtt) (Z.of_nat i) acc) (Z.of_nat j)
                          = if decide (j = i) then make_water wtt (tile_at s (Z.of_nat i))
                            else tile_at acc (Z.of_nat j)).
  { intros wtt Hty. split.
    - apply ground_preserved_make_water; [done|]. by rewrite Hi.
    - intros j. rewrite tile_at_update_tile, !Nat2Z.id.
      destruct (decide (j = i)) as [->|Hne].
      + rewrite decide_True by done. unfold tile_at in Hi, Hty |- *.
        rewrite Nat2Z.id in Hi, Hty |- *.
        destruct (tiles acc !! i) as [x|] eqn:Hx; simpl in Hi; [by rewrite Hi|].
        rewrite <- Hi in Hty. discriminate Hty.
      + by rewrite decide_False by congruence. }
  assert (Hsame : ground_preserved s acc
                  /\ forall j, tile_at acc (Z.of_nat j)
                               = if decide (j = i) then tile_at s (Z.of_nat i)
                                 else tile_at acc (Z.of_nat j)).
  { split; [done|]. intros j. case_decide; [by subst|done]. }
  unfold convert_ground_tile, ground_to_water, IsTileType, GetTileType, GetTileSlope,
    GetTileZ, MakeSea, MakeShore.
  rewrite Hi, Hex. clear Hex.
  destruct (bool_decide_reflect (tile_type (tile_at s (Z.of_nat i)) = MP_CLEAR)) as [Hty|Hty];
    cbn [andb]; [|exact Hsame].
  destruct (tile_z (tile_at s (Z.of_nat i)) =? 0); [|exact Hsame].
  destruct (tile_slope (tile_at s (Z.of_nat i)) =? SLOPE_FLAT); [by apply Hupd|].
  assert (Hone : (tile_slope (tile_at s (Z.of_nat i)) =? SLOPE_N)
                 || (tile_slope (tile_at s (Z.of_nat i)) =? SLOPE_E)
                 || (tile_slope (tile_at s (Z.of_nat i)) =? SLOPE_S)
                 || (tile_slope (tile_at s (Z.of_nat i)) =? SLOPE_W)
                 = IsSlopeWithOneCornerRaised (tile_slope (tile_at s (Z.of_nat i)))).
  { unfold IsSlopeWithOneCornerRaised.
    destruct (_ =? SLOPE_N), (_ =? SLOPE_E), (_ =? SLOPE_S), (_ =? SLOPE_W); reflexivity. }
  rewrite Hone.
  destruct (IsSlopeWithOneCornerRaised (tile_slope (tile_at s (Z.of_nat i))));
    cbn [orb]; [by apply Hupd|].
  destruct (existsb _ _); [by apply Hupd | exact Hsame].
Qed.

Lemma convert_ground_fold s l :
  NoDup l ->
  forall acc,
    ground_preserved s acc ->
    (forall i, i ∈ l -> tile_at acc (Z.of_nat i) = tile_at s (Z.of_nat i)) ->
    ground_preserved s (foldl (fun a i => convert_ground_tile a (Z.of_nat i)) acc l)
    /\ forall j,
         tile_at (foldl (fun a i => convert_ground_tile a (Z.of_nat i)) acc l) (Z.of_nat j)
         = if decide (j ∈ l) then ground_to_water s (Z.of_nat j)
           else tile_at acc (Z.of_nat j).
Proof.
  induction l as [|i l IH]; intros Hnd acc Hp Hl; cbn [foldl].
  - split; [done|]. intros j. rewrite decide_False; [done|]. apply not_elem_of_nil.
  - apply list.NoDup_cons in Hnd as [Hnotin Hnd].
    destruct (convert_ground_tile_spec s acc i Hp) as [Hp' Hat'].
    { apply Hl. apply list_elem_of_here. }
    destruct (IH Hnd (convert_ground_tile acc (Z.of_nat i)) Hp') as [Hp'' Hat''].
    { intros i' Hin. rewrite Hat'. rewrite decide_False by (intros ->; contradiction).
      apply Hl. by apply list_elem_of_further. }
    split; [done|]. intros j. rewrite Hat'', Hat'.
    destruct (decide (j ∈ l)) as [Hjl|Hjl].
    + rewrite decide_True; [done|]. by apply list_elem_of_further.
    + destruct (decide (j = i)) as [->|Hne].
      * rewrite decide_True; [done|]. apply list_elem_of_here.
      * rewrite decide_False; [done|]. intros Hin.
        apply elem_of_cons in Hin as [?|?]; contradiction.
Qed.

Lemma ConvertGround_preserves s : ground_preserved s (ConvertGroundTilesIntoWaterTiles s).
Proof.
  unfold ConvertGroundTilesIntoWaterTiles.
  apply (convert_ground_fold s (seq 0 (Z.to_nat (Map_Size s)))).
  - apply NoDup_seq.
  - apply ground_preserved_refl.
  - done.
Qed.

Lemma ConvertGround_tile_at_nat s (j : nat) :
  tile_at (ConvertGroundTilesIntoWaterTiles s) (Z.of_nat j)
  = if decide (j < Z.to_nat (Map_Size s))%nat then ground_to_water s (Z.of_nat j)
    else tile_at s (Z.of_nat j).
Proof.
  unfold ConvertGroundTilesIntoWaterTiles.
  destruct (convert_ground_fold s (seq 0 (Z.to_nat (Map_Size s))) (NoDup_seq _ _)
              s (ground_preserved_refl s)) as [_ Hat]; [done|].
  rewrite Hat. destruct (decide (j < Z.to_nat (Map_Size s))%nat) as [Hlt|Hge].
  - rewrite decide_True; [done|]. apply elem_of_seq. lia.
  - rewrite decide_False; [done|]. rewrite elem_of_seq. lia.
Qed.

Lemma ground_to_water_fixed s r t :
  ground_preserved s r ->
  tile_at r t = ground_to_water s t ->
  ground_to_water r t = tile_at r t.
Proof.
  intros Hp Hr.
  assert (Hex : forall sl,
             existsb (shore_making_neighbour r t) (flood_from_dirs sl)
             = existsb (shore_making_neighbour s t) (flood_from_dirs sl)).
  { intros sl. apply existsb_ext_all. intros d. by apply shore_making_neighbour_preserved. }
  unfold ground_to_water in *. rewrite Hex. clear Hex.
  destruct (bool_decide_reflect (tile_type (tile_at s t) = MP_CLEAR)) as [Hty|Hty];
    cbn [andb] in Hr.
  - destruct (tile_z (tile_at s t) =? 0) eqn:Hz.
    + destruct (tile_slope (tile_at s t) =? SLOPE_FLAT) eqn:Hfl; [by rewrite Hr|].
      destruct (IsSlopeWithOneCornerRaised (tile_slope (tile_at s t))
                || existsb (shore_making_neighbour s t)
                     (flood_from_dirs (Z.land (tile_slope (tile_at s t)) (Z.lnot SLOPE_STEEP))))
        eqn:Hor; [by rewrite Hr|].
      rewrite Hr. rewrite bool_decide_eq_true_2 by done. cbn [andb].
      by rewrite Hz, Hfl, Hor.
    + rewrite Hr. by rewrite Hz, andb_false_r.
  - rewrite Hr. by rewrite bool_decide_eq_false_2.
Qed.

Lemma tiles_eq_of_tile_at (l1 l2 : list Tile) :
  length l1 = length l2 ->
  (forall i : nat, default void_tile (l1 !! i) = default void_tile (l2 !! i)) ->
  l1 = l2.
Proof.
  intros Hlen Hat. apply list_eq. intros i. specialize (Hat i).
  destruct (l1 !! i) as [x|] eqn:H1, (l2 !! i) as [y|] eqn:H2; simpl in Hat.
  - by subst.
  - apply lookup_lt_Some in H1. apply lookup_ge_None in H2. lia.
  - apply lookup_ge_None in H1. apply lookup_lt_Some in H2. lia.
  - done.
Qed.

(** X1.  [ConvertGroundTilesIntoWaterTiles] rewrites the map in place,
    tile after tile, and reads the neighbours of each tile while doing
    so; the outcome is nevertheless the one of deciding every tile on
    the map as it was before the call: the tile with index [t] below
    [Map::Size()] ends as [ground_to_water s t], the entries past the
    map are left alone. *)
Theorem ConvertGroundTilesIntoWaterTiles_by_tile (s : State) (t : TileIndex) :
  0 <= t ->
  tile_at (ConvertGroundTilesIntoWaterTiles s) t
  = if t <? Map_Size s then ground_to_water s t else tile_at s t.
Proof.
  intros Ht. pose proof (ConvertGround_tile_at_nat s (Z.to_nat t)) as Heq.
  rewrite Z2Nat.id in Heq by done. rewrite Heq. clear Heq.
  destruct (Z.ltb_spec t (Map_Size s)) as [Hlt|Hge].
  - rewrite decide_True; [done|]. lia.
  - rewrite decide_False; [done|]. lia.
Qed.

(** X2.  [ConvertGroundTilesIntoWaterTiles] only touches plain land at
    height 0: such a tile either stays as it is or becomes a water tile
    of class sea (open sea on flat ground, coast otherwise) with the
    same slope and height; every other tile, the size of the map, the
    vehicles, the current company and the trace are unchanged. *)
Theorem ConvertGroundTilesIntoWaterTiles_frame (s : State) (t : TileIndex) :
  0 <= t ->
  set_tiles (tiles (ConvertGroundTilesIntoWaterTiles s)) s
  = ConvertGroundTilesIntoWaterTiles s
  /\ length (tiles (ConvertGroundTilesIntoWaterTiles s)) = length (tiles s)
  /\ (tile_type (tile_at s t) <> MP_CLEAR \/ tile_z (tile_at s t) <> 0 ->
      tile_at (ConvertGroundTilesIntoWaterTiles s) t = tile_at s t)
  /\ (tile_at (ConvertGroundTilesIntoWaterTiles s) t = tile_at s t
      \/ (tile_slope (tile_at s t) = SLOPE_FLAT
          /\ tile_at (ConvertGroundTilesIntoWaterTiles s) t
             = make_water WATER_TILE_CLEAR (tile_at s t))
      \/ (tile_slope (tile_at s t) <> SLOPE_FLAT
          /\ tile_at (ConvertGroundTilesIntoWaterTiles s) t
             = make_water WATER_TILE_COAST (tile_at s t))).
Proof.
  intros Ht. destruct (ConvertGround_preserves s) as (Hset & Hlen & _).
  split; [done|]. split; [done|].
  pose proof (ConvertGround_tile_at_nat s (Z.to_nat t)) as Heq.
  rewrite Z2Nat.id in Heq by done. rewrite Heq. clear Heq.
  destruct (decide _); [|by split; [|left]].
  unfold ground_to_water.
  destruct (bool_decide_reflect (tile_type (tile_at s t) = MP_CLEAR)) as [Hty|Hty];
    cbn [andb]; [|by split; [|left]].
  destruct (Z.eqb_spec (tile_z (tile_at s t)) 0) as [Hz|Hz]; [|by split; [|left]].
  split; [intros [?|?]; contradiction|].
  destruct (Z.eqb_spec (tile_slope (tile_at s t)) SLOPE_FLAT) as [Hfl|Hfl].
  - right. left. done.
  - destruct (_ || _); [right; right; done | left; done].
Qed.

(** X3.  [ConvertGroundTilesIntoWaterTiles] is idempotent: a second run
    over its own result changes nothing. *)
Theorem ConvertGroundTilesIntoWaterTiles_idempotent (s : State) :
  ConvertGroundTilesIntoWaterTiles (ConvertGroundTilesIntoWaterTiles s)
  = ConvertGroundTilesIntoWaterTiles s.
Proof.
  set (r := ConvertGroundTilesIntoWaterTiles s).
  pose proof (ConvertGround_preserves s) as Hs. fold r in Hs.
  pose proof (ConvertGround_preserves r) as Hr.
  destruct Hr as (Hset & Hlen & _).
  rewrite <- Hset.
  assert (Htiles : tiles (ConvertGroundTilesIntoWaterTiles r) = tiles r).
  { apply tiles_eq_of_tile_at; [done|]. intros i.
    pose proof (ConvertGround_tile_at_nat r i) as H2.
    pose proof (ConvertGround_tile_at_nat s i) as H1.
    pose proof (ground_to_water_fixed s r (Z.of_nat i) Hs) as Hfix.
    fold r in H1. rewrite (ground_preserved_Map_Size s r Hs) in H2.
    destruct (decide _).
    - rewrite (Hfix H1) in H2. unfold tile_at in H2. by rewrite Nat2Z.id in H2.
    - unfold tile_at in H2. by rewrite Nat2Z.id in H2. }
  rewrite Htiles. by destruct r.
Qed.

(** ** The helpers around a tile *)

Lemma emit_with_ve e vs evs s :
  emit e (with_ve vs evs s) = with_ve vs (evs ++ [e]) s.
Proof. unfold emit, with_ve; simpl. by rewrite app_assoc. Qed.

Lemma MarkCanalsAndRiversAroundDirty_fold s t l evs :
  foldl (fun acc dir => MarkTileDirtyIfCanalOrRiver (tile_add t (TileOffsByDir acc dir)) acc)
        (with_ve (vehicles s) evs s) l
  = with_ve (vehicles s)
      (evs ++ map EvMarkTileDirty
                  (List.filter (is_canal_or_river s)
                               (map (fun d => tile_add t (TileOffsByDir s d)) l)))
      s.
Proof.
  revert evs. induction l as [|d l IH]; intros evs; cbn [foldl map List.filter].
  - by rewrite app_nil_r.
  - unfold MarkTileDirtyIfCanalOrRiver at 2.
    change (TileOffsByDir (with_ve (vehicles s) evs s) d) with (TileOffsByDir s d).
    set (dest := tile_add t (TileOffsByDir s d)).
    change (IsValidTile (with_ve (vehicles s) evs s) dest
            && IsTileType (with_ve (vehicles s) evs s) dest MP_WATER
            && (IsCanal (with_ve (vehicles s) evs s) dest
                || IsRiver (with_ve (vehicles s) evs s) dest))
      with (is_canal_or_river s dest).
    destruct (is_canal_or_river s dest).
    + unfold MarkTileDirtyByTile. rewrite emit_with_ve.
      rewrite IH. cbn [map]. by rewrite <- app_assoc.
    + apply IH.
Qed.

(** X4.  [MarkCanalsAndRiversAroundDirty] redraws exactly the valid canal
    and river tiles among the eight tiles around the tile, once each and
    in the order of the directions; it changes neither the map nor the
    vehicles, and sea and coast tiles are not redrawn. *)
Theorem MarkCanalsAndRiversAroundDirty_redraws (s : State) (t : TileIndex) :
  MarkCanalsAndRiversAroundDirty t s
  = with_ve (vehicles s)
      (map EvMarkTileDirty (List.filter (is_canal_or_river s) (tiles_around s t))) s.
Proof.
  unfold MarkCanalsAndRiversAroundDirty, tiles_around.
  rewrite <- (with_ve_id s) at 1.
  by rewrite MarkCanalsAndRiversAroundDirty_fold.
Qed.

Lemma non_flooding_cleared_refl s : non_flooding_cleared s s.
Proof. split; [by destruct s|]. intros t. by left. Qed.

Lemma set_non_flooding_false_twice x :
  set_non_flooding false (set_non_flooding false x) = set_non_flooding false x.
Proof. done. Qed.

Lemma non_flooding_cleared_queries s acc t :
  non_flooding_cleared s acc ->
  TileOffsByDir acc = TileOffsByDir s
  /\ IsValidTile acc t = IsValidTile s t
  /\ IsTileType acc t MP_WATER = IsTileType s t MP_WATER
  /\ set_non_flooding false (tile_at acc t) = set_non_flooding false (tile_at s t).
Proof.
  intros (Hacc & Hat).
  assert (Hty : tile_type (tile_at acc t) = tile_type (tile_at s t)).
  { destruct (Hat t) as [-> | ->]; done. }
  split; [by rewrite <- Hacc|]. split; [|split].
  - unfold IsValidTile, IsTileType, GetTileType. rewrite Hty. by rewrite <- Hacc.
  - unfold IsTileType, GetTileType. by rewrite Hty.
  - destruct (Hat t) as [-> | ->]; done.
Qed.

Lemma ClearNeighbourNonFloodingStates_fold s t l :
  forall acc,
    non_flooding_cleared s acc ->
    let r := foldl (fun a dir =>
                      let dest := tile_add t (TileOffsByDir a dir) in
                      if IsValidTile a dest && IsTileType a dest MP_WATER
                      then SetNonFloodingWaterTile dest false a
                      else a) acc l in
    non_flooding_cleared s r
    /\ forall t',
         tile_at r t'
         = if existsb (fun dest => bool_decide (Z.to_nat dest = Z.to_nat t')
                                   && IsValidTile s dest && IsTileType s dest MP_WATER)
                      (map (fun d => tile_add t (TileOffsByDir s d)) l)
           then set_non_flooding false (tile_at s t')
           else tile_at acc t'.
Proof.
  induction l as [|d l IH]; intros acc Hacc; cbn [foldl map existsb]; cbn zeta.
  - done.
  - destruct (non_flooding_cleared_queries s acc (tile_add t (TileOffsByDir s d)) Hacc)
      as (Hoffs & Hvalid & Hwater & _).
    rewrite Hoffs. set (dest := tile_add t (TileOffsByDir s d)) in *.
    rewrite Hvalid, Hwater.
    destruct (IsValidTile s dest && IsTileType s dest MP_WATER) eqn:Hc.
    + assert (Hstep : non_flooding_cleared s (SetNonFloodingWaterTile dest false acc)
                      /\ forall t', tile_at (SetNonFloodingWaterTile dest false acc) t'
                                    = if bool_decide (Z.to_nat dest = Z.to_nat t')
                                      then set_non_flooding false (tile_at s t')
                                      else tile_at acc t').
      { assert (Hat : forall t', tile_at (SetNonFloodingWaterTile dest false acc) t'
                                 = if bool_decide (Z.to_nat dest = Z.to_nat t')
                                   then set_non_flooding false (tile_at s t')
                                   else tile_at acc t').
        { intros t'. unfold SetNonFloodingWaterTile. rewrite tile_at_update_tile.
          destruct (decide (Z.to_nat dest = Z.to_nat t')) as [Heq|Hne].
          - rewrite bool_decide_eq_true_2 by done.
            destruct (non_flooding_cleared_queries s acc t' Hacc) as (_ & _ & _ & <-).
            unfold tile_at at 1.
            destruct (tiles acc !! Z.to_nat t') as [x|] eqn:Hx; simpl; [done|].
            exfalso. apply andb_true_iff in Hc as [_ Hw].
            rewrite <- Hwater in Hw. unfold IsTileType, GetTileType, tile_at in Hw.
            rewrite Heq, Hx in Hw. discriminate Hw.
          - by rewrite bool_decide_eq_false_2. }
        split; [|exact Hat]. destruct Hacc as (Hset & Hor). split.
        - rewrite <- Hset. reflexivity.
        - intros t'. rewrite Hat. case_bool_decide; [by right|apply Hor]. }
      destruct Hstep as [Hacc' Hat'].
      destruct (IH _ Hacc') as [Hr Hfinal]. split; [exact Hr|].
      intros t'. rewrite Hfinal, Hat'.
      apply andb_true_iff in Hc as [Hv Hw]. rewrite Hv, Hw, !andb_true_r.
      by destruct (bool_decide (Z.to_nat dest = Z.to_nat t')), (existsb _ _).
    + destruct (IH _ Hacc) as [Hr Hfinal]. split; [exact Hr|].
      intros t'. rewrite Hfinal.
      assert (Hf : bool_decide (Z.to_nat dest = Z.to_nat t')
                   && IsValidTile s dest && IsTileType s dest MP_WATER = false).
      { rewrite <- andb_assoc, Hc. apply andb_false_r. }
      by rewrite Hf.
Qed.

(** X5.  [ClearNeighbourNonFloodingStates] clears the non-flooding state
    of exactly the valid water tiles among the eight tiles around the
    tile; every other map entry (the tile itself, land and void
    neighbours, the rest of the map) is left as it was, no field but the
    non-flooding state is written, and the vehicles and the trace are
    untouched.  After the call no valid water tile around the tile is
    marked non-flooding. *)
Theorem ClearNeighbourNonFloodingStates_clears (s : State) (t t' : TileIndex) :
  set_tiles (tiles (ClearNeighbourNonFloodingStates t s)) s
  = ClearNeighbourNonFloodingStates t s
  /\ tile_at (ClearNeighbourNonFloodingStates t s) t'
     = (if water_tile_around s t t'
        then set_non_flooding false (tile_at s t')
        else tile_at s t')
  /\ (t' ∈ tiles_around s t ->
      IsValidTile (ClearNeighbourNonFloodingStates t s) t' = true ->
      IsTileType (ClearNeighbourNonFloodingStates t s) t' MP_WATER = true ->
      IsNonFloodingWaterTile (ClearNeighbourNonFloodingStates t s) t' = false).
Proof.
  pose proof (ClearNeighbourNonFloodingStates_fold s t all_directions s
                (non_flooding_cleared_refl s)) as H.
  cbv zeta in H.
  change (foldl _ s all_directions) with (ClearNeighbourNonFloodingStates t s) in H.
  destruct H as [Hr Hat].
  split; [apply Hr|]. split; [apply Hat|].
  intros Hin Hvalid Hwater.
  destruct (non_flooding_cleared_queries s _ t' Hr) as (_ & Hv & Hw & _).
  rewrite Hv in Hvalid. rewrite Hw in Hwater.
  unfold IsNonFloodingWaterTile. rewrite Hat.
  fold (tiles_around s t). fold (water_tile_around s t t').
  assert (Hex : water_tile_around s t t' = true).
  { unfold water_tile_around. apply existsb_exists. exists t'.
    split; [by apply list_elem_of_In|].
    by rewrite bool_decide_eq_true_2, Hvalid, Hwater. }
  by rewrite Hex.
Qed.

(** ** Invariants of the engine *)

Section EngineInvariants.

Variable ClearTile_other : TileIndex -> State -> option State.
Variable FloodHalftile : TileIndex -> State -> State * bool.

#[local] Abbreviation CmdLandscapeClear' := (CmdLandscapeClear ClearTile_other).
#[local] Abbreviation DoFloodTile' := (DoFloodTile ClearTile_other FloodHalftile).
#[local] Abbreviation DoDryUp' := (DoDryUp ClearTile_other).
#[local] Abbreviation flood_dir' := (flood_dir ClearTile_other FloodHalftile).
#[local] Abbreviation TileLoop_Water' := (TileLoop_Water ClearTile_other FloodHalftile).

Lemma heights_kept_refl s : heights_kept s s.
Proof. by intros t. Qed.

Lemma heights_kept_trans s1 s2 s3 :
  heights_kept s1 s2 -> heights_kept s2 s3 -> heights_kept s1 s3.
Proof.
  intros H12 H23 t. destruct (H12 t) as [<- <-]. apply H23.
Qed.

Lemma heights_kept_only_ve s s' : only_ve s s' -> heights_kept s s'.
Proof. intros (vs & evs & ->) t. done. Qed.

Lemma heights_kept_update_tile f t s :
  (forall x, tile_slope (f x) = tile_slope x /\ tile_z (f x) = tile_z x) ->
  heights_kept s (update_tile f t s).
Proof.
  intros Hf t'. split.
  - apply (update_tile_preserves tile_slope). intros x. apply Hf.
  - apply (update_tile_preserves tile_z). intros x. apply Hf.
Qed.

Lemma heights_kept_DoClearSquare t s : heights_kept s (DoClearSquare t s).
Proof.
  unfold DoClearSquare, MarkTileDirtyByTile, MakeClear.
  eapply heights_kept_trans; [by apply (heights_kept_update_tile (make_clear CLEAR_GRASS 0) t)|].
  by intros t'.
Qed.

Lemma heights_kept_flood_epilogue t s : heights_kept s (flood_epilogue t s).
Proof. intros t'. by rewrite tile_at_flood_epilogue. Qed.

Lemma heights_kept_ClearNeighbourNonFloodingStates t s :
  heights_kept s (ClearNeighbourNonFloodingStates t s).
Proof.
  intros t'. split.
  - by apply (ClearNeighbourNonFloodingStates_keeps tile_slope).
  - by apply (ClearNeighbourNonFloodingStates_keeps tile_z).
Qed.

Lemma heights_kept_CmdLandscapeClear t s s' :
  clear_keeps_heights ClearTile_other ->
  CmdLandscapeClear' t s = Some s' -> heights_kept s s'.
Proof.
  intros Hclr. unfold CmdLandscapeClear.
  assert (Hland : (if snd (ClearTile_land false t s)
                   then let '(s', ok) := ClearTile_land true t s in
                        if ok then Some s' else None
                   else None) = Some s' -> heights_kept s s').
  { simpl. intros [= <-]. apply heights_kept_DoClearSquare. }
  assert (Hcoast : (if snd (ClearTile_Water_coast false t s)
                    then let '(s', ok) := ClearTile_Water_coast true t s in
                         if ok then Some s' else None
                    else None) = Some s' -> heights_kept s s').
  { unfold ClearTile_Water_coast.
    destruct (EnsureNoVehicleOnGround s t); simpl; [|done].
    intros [= <-].
    eapply heights_kept_trans; [|apply heights_kept_ClearNeighbourNonFloodingStates].
    eapply heights_kept_trans;
      [|apply heights_kept_only_ve, only_events_only_ve,
         MarkCanalsAndRiversAroundDirty_only_events].
    apply heights_kept_DoClearSquare. }
  destruct (GetTileType s t); try (apply Hclr); try exact Hland.
  destruct (IsCoast s t); [exact Hcoast | apply Hclr].
Qed.

Lemma heights_kept_DoFloodTile target s :
  clear_keeps_heights ClearTile_other ->
  halftile_keeps_heights FloodHalftile ->
  heights_kept s (DoFloodTile' target s).
Proof.
  intros Hclr Hhalf. unfold DoFloodTile.
  set (sw := set_current_company OWNER_WATER s).
  assert (Hsw : heights_kept s sw) by (by intros t).
  assert (Hfv : heights_kept s (FloodVehicles target sw)).
  { eapply heights_kept_trans; [exact Hsw|].
    apply heights_kept_only_ve, FloodVehicles_only_ve. }
  assert (Hfin : forall (p : State * bool),
             heights_kept s (fst p) ->
             heights_kept s
               (let '(s1, flooded) := p in
                set_current_company (current_company s)
                  (if flooded then flood_epilogue target s1 else s1))).
  { intros [s1 flooded] H1. cbn [fst] in H1. destruct flooded.
    - eapply heights_kept_trans; [exact H1|].
      eapply heights_kept_trans; [apply (heights_kept_flood_epilogue target)|]. by intros t.
    - eapply heights_kept_trans; [exact H1|]. by intros t. }
  assert (Hwater : forall wtt s0 s1,
             heights_kept s s0 -> CmdLandscapeClear' target s0 = Some s1 ->
             heights_kept s (MarkTileDirtyByTile target
                               (update_tile (make_water wtt) target s1))).
  { intros wtt s0 s1 H0 Hc.
    eapply heights_kept_trans; [exact H0|].
    eapply heights_kept_trans; [by apply (heights_kept_CmdLandscapeClear target s0 s1)|].
    eapply heights_kept_trans; [by apply (heights_kept_update_tile (make_water wtt) target)|].
    by intros t. }
  apply Hfin.
  destruct (negb (GetTileSlope sw target =? SLOPE_FLAT)).
  - assert (Hcoast : heights_kept s
               (fst match CmdLandscapeClear' target sw with
                    | Some s' => (MarkTileDirtyByTile target (MakeShore target s'), true)
                    | None => (sw, false)
                    end)).
    { destruct (CmdLandscapeClear' target sw) as [s1|] eqn:Hc; cbn [fst]; [|exact Hsw].
      by apply (Hwater WATER_TILE_COAST sw). }
    destruct (GetTileType sw target); try exact Hsw; try exact Hcoast.
    + destruct (negb (IsPlainRail sw target)); [exact Hsw|].
      eapply heights_kept_trans; [exact Hfv|]. apply Hhalf.
    + destruct (negb (IsSlopeWithOneCornerRaised (GetTileSlope sw target)));
        [|exact Hcoast].
      cbn [fst]. eapply heights_kept_trans; [exact Hsw|].
      eapply heights_kept_trans;
        [by apply (heights_kept_update_tile
                     (set_tree_ground_density TREE_GROUND_SHORE 3) target)|].
      by intros t.
  - destruct (CmdLandscapeClear' target (FloodVehicles target sw)) as [s1|] eqn:Hc;
      cbn [fst]; [|exact Hfv].
    by apply (Hwater WATER_TILE_CLEAR (FloodVehicles target sw)).
Qed.

Lemma heights_kept_flood_dir tile s acc dir :
  clear_keeps_heights ClearTile_other ->
  halftile_keeps_heights FloodHalftile ->
  heights_kept s (fst acc) ->
  heights_kept s (fst (flood_dir' tile acc dir)).
Proof.
  intros Hclr Hhalf Hacc. destruct acc as [s0 cf]. cbn [fst] in Hacc.
  destruct (flood_skipped s0 tile dir) eqn:Hsk.
  - by rewrite flood_dir_skipped.
  - destruct (flood_ineligible s0 tile dir) eqn:Hel.
    + by rewrite flood_dir_ineligible.
    + rewrite flood_dir_eligible by done. cbn [fst].
      eapply heights_kept_trans; [exact Hacc|]. by apply heights_kept_DoFloodTile.
Qed.

Lemma heights_kept_DoDryUp tile s s' :
  clear_keeps_heights ClearTile_other ->
  DoDryUp' tile s = Some s' -> heights_kept s s'.
Proof.
  intros Hclr. unfold DoDryUp.
  set (sw := set_current_company OWNER_WATER s).
  assert (Hsw : heights_kept s sw) by (by intros t).
  destruct (GetTileType sw tile); try discriminate.
  - destruct (negb (IsPlainRail sw tile)); [discriminate|].
    destruct (negb (bool_decide (GetRailGroundType sw tile = RAIL_GROUND_WATER)));
      [discriminate|].
    destruct (dry_rail_ground (GetTrackBits sw tile)) as [g|]; [|discriminate].
    simpl. intros [= <-].
    eapply heights_kept_trans; [by apply (heights_kept_update_tile (set_rail_ground g) tile)|].
    by intros t.
  - simpl. intros [= <-].
    eapply heights_kept_trans;
      [by apply (heights_kept_update_tile
                   (set_tree_ground_density TREE_GROUND_GRASS 3) tile)|].
    by intros t.
  - destruct (negb (IsCoast sw tile)); [discriminate|].
    destruct (CmdLandscapeClear' tile sw) as [s1|] eqn:Hc; simpl; intros [= <-].
    + eapply heights_kept_trans; [by apply (heights_kept_CmdLandscapeClear tile sw s1)|].
      eapply heights_kept_trans;
        [by apply (heights_kept_update_tile (make_clear CLEAR_GRASS 3) tile)|].
      by intros t.
    + by intros t.
Qed.

(** X6.  The flood engine never writes the height map.  As long as the
    clearing of other tile types and [FloodHalftile] leave slopes and
    heights alone, every tile has the slope and the height after
    [TileLoop_Water] that it had before, whatever was flooded or dried
    up. *)
Theorem TileLoop_Water_keeps_heights (tile : TileIndex) (s s' : State) :
  clear_keeps_heights ClearTile_other ->
  halftile_keeps_heights FloodHalftile ->
  TileLoop_Water' tile s = Some s' ->
  heights_kept s s'.
Proof.
  intros Hclr Hhalf. unfold TileLoop_Water.
  set (s1 := if IsTileType s tile MP_WATER then AmbientSoundEffect tile s else s).
  assert (H1 : heights_kept s s1).
  { unfold s1. destruct (IsTileType s tile MP_WATER); by intros t. }
  destruct (IsTileType s tile MP_WATER && IsNonFloodingWaterTile s1 tile).
  { by intros [= <-]. }
  destruct (GetFloodingBehaviour s1 tile).
  - by intros [= <-].
  - assert (Hscan : heights_kept s (fst (foldl (flood_dir' tile) (s1, false) all_directions))).
    { apply (foldl_invariant (fun acc => heights_kept s (fst acc))); [exact H1|].
      intros acc d Hacc. by apply heights_kept_flood_dir. }
    destruct (foldl (flood_dir' tile) (s1, false) all_directions) as [s2 cf].
    cbn [fst] in Hscan. intros [= <-].
    destruct (negb cf && IsTileType s2 tile MP_WATER); [|exact Hscan].
    eapply heights_kept_trans; [exact Hscan|].
    by apply (heights_kept_update_tile (set_non_flooding true) tile).
  - by intros [= <-].
  - destruct (existsb _ _); [by intros [= <-]|].
    intros Hdry. eapply heights_kept_trans; [exact H1|].
    by apply (heights_kept_DoDryUp tile s1 s').
Qed.

(** X7.  What [DoFloodTile] never floods.  On a sloped target that is
    neither plain land, nor trees, nor plain rail (a road, a house, a
    station, a rail depot, ...) it does nothing at all: no vehicle is
    flooded and the state is returned as it was.  On a flat target that
    the landscape clear command refuses, the map is left as it was, but
    the vehicles on the target have been flooded all the same, because
    they are flooded before the command is tried. *)
Theorem DoFloodTile_without_conversion (target : TileIndex) (s : State) :
  (GetTileSlope s target <> SLOPE_FLAT ->
   GetTileType s target <> MP_CLEAR ->
   GetTileType s target <> MP_TREES ->
   (GetTileType s target = MP_RAILWAY -> IsPlainRail s target = false) ->
   DoFloodTile' target s = s)
  /\ (GetTileSlope s target = SLOPE_FLAT ->
      CmdLandscapeClear' target
        (FloodVehicles target (set_current_company OWNER_WATER s)) = None ->
      DoFloodTile' target s
      = set_current_company (current_company s)
          (FloodVehicles target (set_current_company OWNER_WATER s))
      /\ tiles (DoFloodTile' target s) = tiles s).
Proof.
  split.
  - intros Hsl Hclear Htrees Hrail. unfold DoFloodTile.
    set (sw := set_current_company OWNER_WATER s).
    change (GetTileSlope sw target) with (GetTileSlope s target).
    change (GetTileType sw target) with (GetTileType s target).
    change (IsPlainRail sw target) with (IsPlainRail s target).
    apply Z.eqb_neq in Hsl. rewrite Hsl. cbn [negb].
    destruct (GetTileType s target) eqn:Hty; try contradiction;
      try (cbn zeta; apply restore_company).
    rewrite (Hrail eq_refl). cbn [negb]. apply restore_company.
  - intros Hsl Hfail. unfold DoFloodTile.
    set (sw := set_current_company OWNER_WATER s) in *.
    change (GetTileSlope sw target) with (GetTileSlope s target).
    rewrite Hsl. cbn [Z.eqb negb]. rewrite Hfail. split; [done|].
    by destruct (FloodVehicles_only_ve target sw) as (vs & evs & ->).
Qed.

Lemma dry_rail_ground_single_track bits :
  bits ∈ [TRACK_BIT_UPPER; TRACK_BIT_LOWER; TRACK_BIT_LEFT; TRACK_BIT_RIGHT] ->
  is_Some (dry_rail_ground bits).
Proof.
  intros Hin. repeat (apply elem_of_cons in Hin as [->|Hin]; [by eexists|]).
  by apply elem_of_nil in Hin.
Qed.

(** X8.  [TileLoop_Water] runs into none of the assertions of [DoDryUp]
    on a map where water ground only lies under plain rail with a
    single half-tile track: the call returns a state for every tile,
    of whatever type and classification. *)
Theorem TileLoop_Water_returns (tile : TileIndex) (s : State) :
  rail_ready_to_dry (tile_at s tile) ->
  is_Some (TileLoop_Water' tile s).
Proof.
  intros Hrail. unfold TileLoop_Water.
  set (s1 := if IsTileType s tile MP_WATER then AmbientSoundEffect tile s else s).
  assert (Hat : tile_at s1 tile = tile_at s tile).
  { unfold s1. by destruct (IsTileType s tile MP_WATER). }
  destruct (IsTileType s tile MP_WATER && IsNonFloodingWaterTile s1 tile); [by eexists|].
  destruct (GetFloodingBehaviour s1 tile) eqn:Hb; try (by eexists).
  - by destruct (foldl _ _ _).
  - destruct (existsb _ _); [by eexists|].
    unfold GetFloodingBehaviour, GetTileType, IsCoast, GetWaterTileType, GetWaterClass,
      GetRailGroundType, GetTreeGround, GetTileSlope in Hb.
    unfold DoDryUp.
    set (sw := set_current_company OWNER_WATER s1).
    unfold GetTileType, IsPlainRail, GetRailGroundType, GetTrackBits, IsCoast,
      GetWaterTileType.
    change (tile_at sw tile) with (tile_at s1 tile).
    rewrite Hat in Hb |- *.
    destruct (tile_type (tile_at s tile)) eqn:Hty; try discriminate Hb;
      try (by destruct (bool_decide (water_class (tile_at s tile) = WATER_CLASS_SEA)));
      try (by eexists).
    + destruct (bool_decide_reflect (rail_ground (tile_at s tile) = RAIL_GROUND_WATER))
        as [Hg|Hg]; [|discriminate Hb].
      destruct (Hrail Hty Hg) as [Hplain Hbits].
      rewrite Hplain. cbn [negb].
      destruct (dry_rail_ground_single_track _ Hbits) as [g ->]. by eexists.
    + destruct (bool_decide (water_tile_type (tile_at s tile) = WATER_TILE_COAST)).
      * cbn [negb]. destruct (CmdLandscapeClear' tile sw); by eexists.
      * by destruct (bool_decide (water_class (tile_at s tile) = WATER_CLASS_SEA)).
Qed.

(** X9.  Canals and rivers take no part in flooding.  On a canal or river
    tile [TileLoop_Water] only plays the ambient sound; as a neighbour
    of a flooding tile it is passed over by the scan, without keeping
    the flooding going; and as a neighbour of a tile that dries up it
    does not hold the drying back. *)
Theorem canals_and_rivers_take_no_part (s : State) (t : TileIndex) :
  is_canal_or_river_tile (tile_at s t) ->
  GetFloodingBehaviour s t = FLOOD_NONE
  /\ TileLoop_Water' t s = Some (AmbientSoundEffect t s)
  /\ (forall tile cf dir,
        neighbour s tile dir = t -> IsValidTile s t = true ->
        flood_dir' tile (s, cf) dir = (s, cf))
  /\ (forall tile dir, neighbour s tile dir = t -> dryup_blocked_by s tile dir = false).
Proof.
  intros (Hty & Hwtt & Hwc).
  assert (Hnone : GetFloodingBehaviour s t = FLOOD_NONE).
  { unfold GetFloodingBehaviour, GetTileType, IsCoast, GetWaterTileType, GetWaterClass.
    rewrite Hty, Hwtt. destruct Hwc as [-> | ->]; done. }
  split; [exact Hnone|]. split; [|split].
  - unfold TileLoop_Water.
    assert (Hw : IsTileType s t MP_WATER = true).
    { unfold IsTileType, GetTileType. by rewrite Hty. }
    rewrite Hw.
    change (IsNonFloodingWaterTile (AmbientSoundEffect t s) t)
      with (IsNonFloodingWaterTile s t).
    change (GetFloodingBehaviour (AmbientSoundEffect t s) t)
      with (GetFloodingBehaviour s t).
    rewrite Hnone. by destruct (IsNonFloodingWaterTile s t).
  - intros tile cf dir Hnb Hvalid. apply flood_dir_skipped.
    unfold flood_skipped. rewrite Hnb. unfold IsTileType at 1, GetTileType.
    rewrite Hty. by rewrite orb_true_r.
  - intros tile dir Hnb. unfold dryup_blocked_by. fold (neighbour s tile dir).
    rewrite Hnb, Hnone. by destruct (t =? INVALID_TILE).
Qed.

Lemma TileIndexDiffCByDir_reverse dir :
  TileIndexDiffCByDir (ReverseDir dir)
  = (- fst (TileIndexDiffCByDir dir), - snd (TileIndexDiffCByDir dir)).
Proof. by destruct dir. Qed.

(** Stepping to a neighbour on the map and back in the reverse
    direction gives the tile one started from. *)
Lemma neighbour_back s tile dir :
  0 < map_size_x s -> 0 <= tile < Map_Size s ->
  neighbour s tile dir <> INVALID_TILE ->
  neighbour s (neighbour s tile dir) (ReverseDir dir) = tile.
Proof.
  intros Hx [Ht0 Ht] Hne. unfold neighbour in *.
  rewrite TileIndexDiffCByDir_reverse.
  destruct (TileIndexDiffCByDir dir) as [dx dy]. cbn [fst snd].
  unfold AddTileIndexDiffCWrap, TileX, TileY, TileXY, Map_Size in *. cbn [fst snd] in *.
  set (m := map_size_x s) in *. set (n := map_size_y s) in *.
  pose proof (Z.mod_pos_bound tile m Hx) as Hmod.
  pose proof (Z.div_pos tile m Ht0 Hx) as Hdiv0.
  assert (Hdiv : tile / m < n).
  { apply Z.div_lt_upper_bound; lia. }
  destruct ((tile mod m + dx <? 0) || (m <=? tile mod m + dx)
            || (tile / m + dy <? 0) || (n <=? tile / m + dy)) eqn:Hout;
    [done|].
  apply orb_false_iff in Hout as [Hout Hy2].
  apply orb_false_iff in Hout as [Hout Hy1].
  apply orb_false_iff in Hout as [Hx1 Hx2].
  apply Z.ltb_ge in Hx1, Hy1. apply Z.leb_gt in Hx2, Hy2.
  rewrite (Z.add_comm (_ * m)), Z.mod_add, Z.div_add by lia.
  rewrite (Z.mod_small (tile mod m + dx)), (Z.div_small (tile mod m + dx)) by lia.
  replace (tile mod m + dx + - dx) with (tile mod m) by lia.
  replace (0 + (tile / m + dy) + - dy) with (tile / m) by lia.
  replace ((tile mod m <? 0) || (m <=? tile mod m) || (tile / m <? 0) || (n <=? tile / m))
    with false by (symmetry; rewrite !orb_false_iff; lia).
  rewrite (Z.div_mod tile m) at 3 by lia. lia.
Qed.

Lemma flood_epilogue_with_ve target s :
  exists evs, flood_epilogue target s = with_ve (vehicles s) evs s.
Proof.
  unfold flood_epilogue, InvalidateWaterRegion, UpdateSignalsInBuffer.
  destruct (MarkCanalsAndRiversAroundDirty_only_events target s) as (evs & ->).
  rewrite !emit_with_ve. by eexists.
Qed.

Lemma DoFloodTile_sloped_land_rewrites target s :
  GetTileSlope s target <> SLOPE_FLAT ->
  GetTileType s target = MP_CLEAR \/ GetTileType s target = MP_TREES ->
  rewrites_tile
    (if bool_decide (GetTileType s target = MP_TREES)
        && negb (IsSlopeWithOneCornerRaised (GetTileSlope s target))
     then set_tree_ground_density TREE_GROUND_SHORE 3
     else make_water WATER_TILE_COAST)
    target s (DoFloodTile' target s).
Proof.
  intros Hsl Hty.
  assert (Hin : tile_type (tile_at s target) <> MP_VOID).
  { unfold GetTileType in Hty. by destruct Hty as [-> | ->]. }
  destruct (bool_decide_reflect (GetTileType s target = MP_TREES)) as [Htr|Htr];
    [destruct (IsSlopeWithOneCornerRaised (GetTileSlope s target)) eqn:Hone|];
    cbn [andb negb].
  - rewrite DoFloodTile_land_sloped by tauto.
    destruct (flood_epilogue_with_ve target
                (MarkTileDirtyByTile target
                   (MakeShore target
                      (DoClearSquare target (set_current_company OWNER_WATER s)))))
      as (evs & Hep).
    repeat split.
    + by rewrite Hep.
    + by rewrite Hep.
    + by apply tile_at_flooded_to_shore.
    + intros t Hne. rewrite Hep.
      change (tile_at (set_current_company ?o (with_ve ?vs ?e ?x)) t) with (tile_at x t).
      unfold DoClearSquare, MakeShore, MakeClear, MarkTileDirtyByTile.
      change (tile_at (emit ?e ?x) t) with (tile_at x t).
      rewrite tile_at_update_ne by done.
      change (tile_at (emit ?e ?x) t) with (tile_at x t).
      by rewrite tile_at_update_ne by done.
  - rewrite DoFloodTile_trees_shore_ground by done.
    destruct (flood_epilogue_with_ve target
                (MarkTileDirtyByTile target
                   (SetTreeGroundDensity target TREE_GROUND_SHORE 3
                      (set_current_company OWNER_WATER s))))
      as (evs & Hep).
    repeat split.
    + by rewrite Hep.
    + by rewrite Hep.
    + by apply tile_at_flooded_trees.
    + intros t Hne. rewrite Hep.
      change (tile_at (set_current_company ?o (with_ve ?vs ?e ?x)) t) with (tile_at x t).
      unfold MarkTileDirtyByTile, SetTreeGroundDensity.
      change (tile_at (emit ?e ?x) t) with (tile_at x t).
      by rewrite tile_at_update_ne by done.
  - destruct Hty as [Hty|Hty]; [|done].
    rewrite DoFloodTile_land_sloped by tauto.
    destruct (flood_epilogue_with_ve target
                (MarkTileDirtyByTile target
                   (MakeShore target
                      (DoClearSquare target (set_current_company OWNER_WATER s)))))
      as (evs & Hep).
    repeat split.
    + by rewrite Hep.
    + by rewrite Hep.
    + by apply tile_at_flooded_to_shore.
    + intros t Hne. rewrite Hep.
      change (tile_at (set_current_company ?o (with_ve ?vs ?e ?x)) t) with (tile_at x t).
      unfold DoClearSquare, MakeShore, MakeClear, MarkTileDirtyByTile.
      change (tile_at (emit ?e ?x) t) with (tile_at x t).
      rewrite tile_at_update_ne by done.
      change (tile_at (emit ?e ?x) t) with (tile_at x t).
      by rewrite tile_at_update_ne by done.
Qed.

Lemma neighbour_same_geometry s s' tile dir :
  map_size_x s' = map_size_x s -> map_size_y s' = map_size_y s ->
  neighbour s' tile dir = neighbour s tile dir.
Proof.
  intros Hx Hy. unfold neighbour, AddTileIndexDiffCWrap, TileX, TileY, TileXY.
  by rewrite Hx, Hy.
Qed.

Lemma GetFloodingBehaviour_same_tile s s' t t' :
  tile_at s' t' = tile_at s t ->
  GetFloodingBehaviour s' t' = GetFloodingBehaviour s t.
Proof.
  intros Heq. unfold GetFloodingBehaviour, GetTileType, IsCoast, GetWaterTileType,
    GetWaterClass, GetRailGroundType, GetTreeGround, GetTileSlope.
  by rewrite Heq.
Qed.

(** X10.  A tile just flooded is not dried up again.  When the scan of
    an Active tile floods a sloped neighbour of plain land or trees
    with more than one raised corner, the neighbour (now coast, or
    trees on shore ground) classifies DryUp, the tile it was flooded
    from is found by its own dry-up test, in the reverse direction,
    and still classifies Active: [TileLoop_Water] on the neighbour
    leaves it as it is. *)
Theorem flooded_neighbour_is_not_dried_up (tile : TileIndex) (s : State) (cf : bool)
    (dir : Direction) :
  0 < map_size_x s -> 0 <= tile < Map_Size s -> Map_Size s <= INVALID_TILE ->
  GetFloodingBehaviour s tile = FLOOD_ACTIVE ->
  flood_skipped s tile dir = false -> flood_ineligible s tile dir = false ->
  GetTileType s (neighbour s tile dir) = MP_CLEAR
  \/ GetTileType s (neighbour s tile dir) = MP_TREES ->
  tile_foundation (tile_at s (neighbour s tile dir)) = None ->
  GetTileSlope s (neighbour s tile dir) <> SLOPE_FLAT ->
  IsSlopeWithOneCornerRaised (GetTileSlope s (neighbour s tile dir)) = false ->
  let dest := neighbour s tile dir in
  let s' := fst (flood_dir' tile (s, cf) dir) in
  GetFloodingBehaviour s' dest = FLOOD_DRYUP
  /\ neighbour s' dest (ReverseDir dir) = tile
  /\ GetFloodingBehaviour s' tile = FLOOD_ACTIVE
  /\ TileLoop_Water' dest s'
     = Some (if IsTileType s' dest MP_WATER then AmbientSoundEffect dest s' else s').
Proof.
  intros Hx Ht Hmax Hact Hskip Hinel Hty Hfnd Hsl Hone dest s'.
  unfold s'. rewrite flood_dir_eligible by done. cbn [fst]. fold dest in Hty, Hfnd, Hsl, Hone |- *.
  clear s'. set (s' := DoFloodTile' dest s).
  (* the neighbour is a valid tile *)
  assert (Hvalid : IsValidTile s dest = true).
  { unfold flood_skipped in Hskip. fold dest in Hskip.
    apply orb_false_iff in Hskip as [Hskip _]. apply orb_false_iff in Hskip as [Hskip _].
    by apply negb_false_iff in Hskip. }
  assert (Hdest : dest <> INVALID_TILE).
  { unfold IsValidTile in Hvalid. apply andb_true_iff in Hvalid as [Hlt _].
    apply Z.ltb_lt in Hlt. lia. }
  (* it is not shore trees yet, and can be entered from [tile] *)
  unfold flood_ineligible in Hinel. fold dest in Hinel.
  apply orb_false_iff in Hinel as [Hinel Hentry].
  apply orb_false_iff in Hinel as [Hshore _].
  apply negb_false_iff in Hentry. unfold dirs_test in Hentry.
  apply bool_decide_eq_true in Hentry.
  assert (Hfs : GetFoundationSlope s dest = (tile_slope (tile_at s dest), tile_z (tile_at s dest))).
  { unfold GetFoundationSlope. rewrite Hfnd. by destruct (tile_type (tile_at s dest)). }
  rewrite Hfs in Hentry. cbn [fst] in Hentry.
  (* the two tiles are different entries of the map *)
  assert (Hne : Z.to_nat tile <> Z.to_nat dest).
  { intros Heq.
    assert (Hsame : tile_at s tile = tile_at s dest) by (unfold tile_at; by rewrite Heq).
    rewrite (GetFloodingBehaviour_same_tile s s dest tile Hsame) in Hact.
    unfold GetFloodingBehaviour in Hact. unfold IsTileType in Hshore.
    destruct Hty as [Hty|Hty]; rewrite Hty in Hact; [done|].
    rewrite Hty in Hshore. rewrite bool_decide_eq_true_2 in Hshore by done.
    cbn [andb] in Hshore. by rewrite Hshore in Hact. }
  destruct (DoFloodTile_sloped_land_rewrites dest s Hsl Hty) as (Hmx & Hmy & Hnew & Hother).
  fold s' in Hmx, Hmy, Hnew, Hother. rewrite Hone in Hnew. cbn [negb] in Hnew.
  rewrite andb_true_r in Hnew.
  assert (Hback : neighbour s' dest (ReverseDir dir) = tile).
  { rewrite (neighbour_same_geometry s s') by done. by apply neighbour_back. }
  assert (Hact' : GetFloodingBehaviour s' tile = FLOOD_ACTIVE).
  { rewrite <- Hact. apply GetFloodingBehaviour_same_tile. by apply Hother. }
  assert (Hsl' : tile_slope (tile_at s' dest) = tile_slope (tile_at s dest)).
  { rewrite Hnew. by destruct (bool_decide (GetTileType s dest = MP_TREES)). }
  assert (Hdry : GetFloodingBehaviour s' dest = FLOOD_DRYUP).
  { unfold GetFloodingBehaviour, GetTileType, IsCoast, GetWaterTileType, GetWaterClass,
      GetTreeGround, GetTileSlope. unfold GetTileSlope in Hone. rewrite Hsl', Hone.
    rewrite Hnew.
    destruct (bool_decide_reflect (GetTileType s dest = MP_TREES)) as [Htr|Htr].
    - unfold GetTileType in Htr. cbn. by rewrite Htr.
    - done. }
  assert (Hfs' : fst (GetFoundationSlope s' dest) = tile_slope (tile_at s dest)).
  { unfold GetFoundationSlope. rewrite Hnew.
    destruct (bool_decide_reflect (GetTileType s dest = MP_TREES)) as [Htr|Htr].
    - unfold GetTileType in Htr. cbn. by rewrite Htr, Hfnd.
    - done. }
  assert (Hq : IsTileType s' dest MP_WATER && IsNonFloodingWaterTile s' dest = false).
  { unfold IsTileType, GetTileType, IsNonFloodingWaterTile. rewrite Hnew.
    destruct (bool_decide_reflect (GetTileType s dest = MP_TREES)) as [Htr|Htr].
    - unfold GetTileType in Htr. cbn. by rewrite Htr.
    - cbn. apply andb_false_r. }
  split; [exact Hdry|]. split; [exact Hback|]. split; [exact Hact'|].
  rewrite TileLoop_Water_dryup_branch by done. cbv zeta.
  assert (Hthreat : existsb (dryup_blocked_by s' dest)
            (flood_from_dirs (table_slope (fst (GetFoundationSlope s' dest)))) = true).
  { apply (proj2 (dryup_threatened_spec ClearTile_other FloodHalftile s' dest)).
    exists (ReverseDir dir).
    rewrite Hfs', Hback.
    split; [exact Hentry|]. split; [|by left].
    unfold Map_Size in *. lia. }
  by rewrite Hthreat.
Qed.

Lemma TileLoop_Water_inert tile s :
  IsTileType s tile MP_WATER = false ->
  GetFloodingBehaviour s tile = FLOOD_NONE ->
  TileLoop_Water' tile s = Some s.
Proof. intros Hw Hnone. unfold TileLoop_Water. by rewrite Hw, Hnone. Qed.

Lemma dry_rail_ground_is_dry bits g :
  dry_rail_ground bits = Some g -> g <> RAIL_GROUND_WATER.
Proof.
  unfold dry_rail_ground. repeat case_match; intros [= <-]; done.
Qed.

(** X16.  Drying up is final.  When [DoDryUp] runs on a tile that
    classifies DryUp, either it gives up (a coast tile with a vehicle
    on its ground; the state is returned as it was), or the tile no
    longer classifies at all afterwards: it is plain land, trees on
    grass or rail with a fence, and [TileLoop_Water] on it does nothing
    from then on. *)
Theorem dried_up_tile_is_inert (tile : TileIndex) (s s' : State) :
  GetFloodingBehaviour s tile = FLOOD_DRYUP ->
  DoDryUp' tile s = Some s' ->
  (GetFloodingBehaviour s' tile = FLOOD_NONE
   /\ GetTileType s' tile <> MP_WATER
   /\ TileLoop_Water' tile s' = Some s')
  \/ (is_coast (tile_at s tile) /\ EnsureNoVehicleOnGround s tile = false /\ s' = s).
Proof.
  intros Hdry Hrun.
  assert (Hinert : forall ti, tile_at s' tile = ti ->
            tile_type ti <> MP_WATER ->
            GetFloodingBehaviour s' tile
            = match tile_type ti with
              | MP_RAILWAY =>
                if bool_decide (rail_ground ti = RAIL_GROUND_WATER)
                then (if IsSlopeWithOneCornerRaised (tile_slope ti)
                      then FLOOD_ACTIVE else FLOOD_DRYUP)
                else FLOOD_NONE
              | MP_TREES =>
                if bool_decide (tree_ground ti = TREE_GROUND_SHORE)
                then FLOOD_DRYUP else FLOOD_NONE
              | MP_CLEAR => FLOOD_NONE
              | _ => GetFloodingBehaviour s' tile
              end).
  { intros ti <- Hnw. unfold GetFloodingBehaviour, GetTileType, GetRailGroundType,
      GetTreeGround, GetTileSlope.
    by destruct (tile_type (tile_at s' tile)). }
  assert (Hdone : forall ti, tile_at s' tile = ti -> tile_type ti <> MP_WATER ->
            GetFloodingBehaviour s' tile = FLOOD_NONE ->
            GetFloodingBehaviour s' tile = FLOOD_NONE
            /\ GetTileType s' tile <> MP_WATER
            /\ TileLoop_Water' tile s' = Some s').
  { intros ti Hti Hnw Hnone. split; [done|]. unfold GetTileType. rewrite Hti.
    split; [done|]. apply TileLoop_Water_inert; [|done].
    unfold IsTileType, GetTileType. rewrite Hti. by apply bool_decide_eq_false_2. }
  unfold GetFloodingBehaviour in Hdry.
  destruct (GetTileType s tile) eqn:Hty; try discriminate Hdry;
    try (by destruct (bool_decide (GetWaterClass s tile = WATER_CLASS_SEA))).
  - (* rail on water ground *)
    assert (Hplain : IsPlainRail s tile = true).
    { unfold DoDryUp in Hrun.
      change (GetTileType (set_current_company OWNER_WATER s) tile)
        with (GetTileType s tile) in Hrun.
      change (IsPlainRail (set_current_company OWNER_WATER s) tile)
        with (IsPlainRail s tile) in Hrun.
      rewrite Hty in Hrun. by destruct (IsPlainRail s tile). }
    destruct (bool_decide_reflect (GetRailGroundType s tile = RAIL_GROUND_WATER))
      as [Hg|Hg]; [|discriminate Hdry].
    destruct (dry_rail_ground (GetTrackBits s tile)) as [g|] eqn:Hfence.
    + destruct (DoDryUp_rail ClearTile_other tile s g Hty Hplain Hg Hfence)
        as (s2 & Hrun2 & Hat).
      rewrite Hrun in Hrun2. injection Hrun2 as <-.
      left. apply (Hdone _ Hat).
      * unfold GetTileType in Hty. cbn. by rewrite Hty.
      * rewrite (Hinert _ Hat) by (unfold GetTileType in Hty; cbn; by rewrite Hty).
        unfold GetTileType in Hty. cbn. rewrite Hty.
        apply dry_rail_ground_is_dry in Hfence. by rewrite bool_decide_eq_false_2.
    + exfalso. unfold DoDryUp in Hrun.
      change (GetTileType (set_current_company OWNER_WATER s) tile)
        with (GetTileType s tile) in Hrun.
      change (IsPlainRail (set_current_company OWNER_WATER s) tile)
        with (IsPlainRail s tile) in Hrun.
      change (GetRailGroundType (set_current_company OWNER_WATER s) tile)
        with (GetRailGroundType s tile) in Hrun.
      change (GetTrackBits (set_current_company OWNER_WATER s) tile)
        with (GetTrackBits s tile) in Hrun.
      rewrite Hty, Hplain, Hfence in Hrun. cbn [negb] in Hrun.
      by rewrite bool_decide_eq_true_2 in Hrun.
  - (* trees on shore ground *)
    destruct (DoDryUp_trees ClearTile_other tile s Hty) as (s2 & Hrun2 & Hat).
    rewrite Hrun in Hrun2. injection Hrun2 as <-.
    left. apply (Hdone _ Hat).
    + unfold GetTileType in Hty. cbn. by rewrite Hty.
    + rewrite (Hinert _ Hat) by (unfold GetTileType in Hty; cbn; by rewrite Hty).
      unfold GetTileType in Hty. cbn. by rewrite Hty.
  - (* coast *)
    destruct (IsCoast s tile) eqn:Hcoast.
    + destruct (EnsureNoVehicleOnGround s tile) eqn:Hveh.
      * destruct (DoDryUp_coast_succeeds ClearTile_other tile s
                    Hty Hcoast Hveh) as (s2 & Hrun2 & Hat & _).
        rewrite Hrun in Hrun2. injection Hrun2 as <-.
        left. apply (Hdone _ Hat); [done|].
        by rewrite (Hinert _ Hat).
      * right. split.
        { split; [exact Hty|]. unfold IsCoast, GetWaterTileType in Hcoast.
          by apply bool_decide_eq_true in Hcoast. }
        split; [done|].
        rewrite (DoDryUp_coast_fails ClearTile_other tile s Hty Hcoast Hveh)
          in Hrun.
        by injection Hrun as <-.
    + by destruct (bool_decide (GetWaterClass s tile = WATER_CLASS_SEA)).
Qed.

End EngineInvariants.

(** ** Water in the view of a direction *)

Section WaterAccessorsProperties.

Variable GetLockDirection : State -> TileIndex -> DiagDirection.
Variable GetShipDepotAxis : State -> TileIndex -> Axis.
Variable GetIndustryIndex : State -> TileIndex -> Z.
Variable IsWaterTunnelBridge : State -> TileIndex -> bool.
Variable GetTunnelBridgeDirection : State -> TileIndex -> DiagDirection.

#[local] Abbreviation IsWateredTile' :=
  (IsWateredTile GetLockDirection GetIndustryIndex IsWaterTunnelBridge
                 GetTunnelBridgeDirection).
#[local] Abbreviation GetTileTrackStatus_Water' :=
  (GetTileTrackStatus_Water GetLockDirection GetShipDepotAxis).

Lemma half_flooded_classified s tile :
  half_flooded (tile_at s tile) ->
  GetFloodingBehaviour s tile
  = if IsSlopeWithOneCornerRaised (GetTileSlope s tile) then FLOOD_ACTIVE else FLOOD_DRYUP.
Proof.
  unfold GetFloodingBehaviour, GetTileType, IsCoast, GetWaterTileType, GetRailGroundType.
  intros [[-> ->] | (-> & -> & _)]; done.
Qed.

Lemma half_flooded_watered s tile from :
  half_flooded (tile_at s tile) ->
  IsWateredTile' s tile from = Some (half_watered_from (GetTileSlope s tile) from).
Proof.
  unfold IsWateredTile, GetTileType, IsCoast, GetWaterTileType, GetRailGroundType, IsPlainRail.
  intros [[-> ->] | (-> & -> & ->)]; done.
Qed.

Lemma half_watered_from_spec sl from :
  half_watered_from sl from = true ->
  IsSlopeWithOneCornerRaised sl = true
  /\ (IsDiagonalDirection from = true -> dirs_test (flood_from_dirs sl) from = true).
Proof.
  unfold half_watered_from, IsSlopeWithOneCornerRaised.
  destruct (Z.eqb_spec sl SLOPE_W) as [->|_]; [by destruct from|].
  destruct (Z.eqb_spec sl SLOPE_S) as [->|_]; [by destruct from|].
  destruct (Z.eqb_spec sl SLOPE_E) as [->|_]; [by destruct from|].
  destruct (Z.eqb_spec sl SLOPE_N) as [->|_]; [by destruct from|].
  done.
Qed.

Lemma one_corner_watered sl from :
  IsSlopeWithOneCornerRaised sl = true ->
  dirs_test (flood_from_dirs sl) from = true ->
  half_watered_from sl from = true.
Proof.
  unfold half_watered_from, IsSlopeWithOneCornerRaised.
  destruct (Z.eqb_spec sl SLOPE_W) as [->|_]; [by destruct from|].
  destruct (Z.eqb_spec sl SLOPE_S) as [->|_]; [by destruct from|].
  destruct (Z.eqb_spec sl SLOPE_E) as [->|_]; [by destruct from|].
  destruct (Z.eqb_spec sl SLOPE_N) as [->|_]; [by destruct from|].
  done.
Qed.

Lemma one_corner_floodable sl :
  IsSlopeWithOneCornerRaised sl = true ->
  exists from, IsDiagonalDirection from = true /\ dirs_test (flood_from_dirs sl) from = true.
Proof.
  unfold IsSlopeWithOneCornerRaised.
  destruct (Z.eqb_spec sl SLOPE_W) as [->|_]; [by exists DIR_NE|].
  destruct (Z.eqb_spec sl SLOPE_S) as [->|_]; [by exists DIR_NE|].
  destruct (Z.eqb_spec sl SLOPE_E) as [->|_]; [by exists DIR_NW|].
  destruct (Z.eqb_spec sl SLOPE_N) as [->|_]; [by exists DIR_SW|].
  done.
Qed.

(** X11.  A half flooded tile (a coast tile, or a plain rail tile on
    water ground) is water in the view of some direction exactly when
    it classifies Active, and in the view of an edge neighbour (a
    diagonal direction) exactly when it classifies Active and its slope
    can be flooded from that direction: [IsWateredTile] and the table
    [_flood_from_dirs] agree on the sides of a tile that are open to
    the water. *)
Theorem IsWateredTile_half_flooded (s : State) (tile : TileIndex) :
  half_flooded (tile_at s tile) ->
  (forall from, is_Some (IsWateredTile' s tile from))
  /\ (GetFloodingBehaviour s tile = FLOOD_ACTIVE
      <-> exists from, IsWateredTile' s tile from = Some true)
  /\ (forall from, IsDiagonalDirection from = true ->
        IsWateredTile' s tile from
        = Some (bool_decide (GetFloodingBehaviour s tile = FLOOD_ACTIVE)
                && dirs_test (flood_from_dirs (GetTileSlope s tile)) from)).
Proof.
  intros Hhalf. pose proof (half_flooded_classified s tile Hhalf) as Hcl.
  split; [|split].
  - intros from. rewrite half_flooded_watered by done. by eexists.
  - split.
    + intros Hact. rewrite Hact in Hcl.
      destruct (IsSlopeWithOneCornerRaised (GetTileSlope s tile)) eqn:Hone; [|done].
      destruct (one_corner_floodable _ Hone) as (from & _ & Hin).
      exists from. rewrite half_flooded_watered by done.
      by rewrite one_corner_watered.
    + intros (from & Hw). rewrite half_flooded_watered in Hw by done.
      injection Hw as Hw. apply half_watered_from_spec in Hw as [Hone _].
      by rewrite Hcl, Hone.
  - intros from Hdiag. rewrite half_flooded_watered by done. f_equal.
    destruct (half_watered_from (GetTileSlope s tile) from) eqn:Hw.
    + apply half_watered_from_spec in Hw as [Hone Hin].
      rewrite Hcl, Hone, (Hin Hdiag). done.
    + rewrite Hcl.
      destruct (IsSlopeWithOneCornerRaised (GetTileSlope s tile)) eqn:Hone; [|done].
      destruct (dirs_test (flood_from_dirs (GetTileSlope s tile)) from) eqn:Hin; [|done].
      by rewrite one_corner_watered in Hw.
Qed.

Lemma coast_tracks_valid_slope sl :
  valid_slope sl ->
  default 0 (coast_tracks !! Z.to_nat (Z.land sl 15)) <> 0
  <-> IsSlopeWithOneCornerRaised sl = true.
Proof.
  intros [Hsmall | Hsteep].
  - assert (Hcases : sl = 0 \/ sl = 1 \/ sl = 2 \/ sl = 3 \/ sl = 4 \/ sl = 5 \/ sl = 6
                     \/ sl = 7 \/ sl = 8 \/ sl = 9 \/ sl = 10 \/ sl = 11 \/ sl = 12
                     \/ sl = 13 \/ sl = 14) by lia.
    repeat (destruct Hcases as [-> | Hcases]; [by vm_compute|]).
    subst sl. by vm_compute.
  - repeat (apply elem_of_cons in Hsteep as [-> | Hsteep]; [by vm_compute|]).
    by apply elem_of_nil in Hsteep.
Qed.

Lemma track_status_zero ts :
  0 <= ts -> CombineTrackStatus (TrackBitsToTrackdirBits ts) 0 = 0 <-> ts = 0.
Proof.
  intros Hts. unfold CombineTrackStatus, TrackBitsToTrackdirBits.
  rewrite Z.shiftl_0_l, Z.lor_0_r. split.
  - intros H. apply Z.lor_eq_0_iff in H. tauto.
  - intros ->. done.
Qed.

(** X12.  Ships on the coast.  Away from the northern edges of the map,
    a coast tile with one of the slopes of the game carries a track for
    ships exactly when it classifies Active (one raised corner), which
    is exactly when it is water in the view of some direction.  For any
    other transport type the tile has no track at all. *)
Theorem GetTileTrackStatus_Water_coast (s : State) (tile : TileIndex) :
  is_coast (tile_at s tile) ->
  valid_slope (GetTileSlope s tile) ->
  TileX s tile <> 0 -> TileY s tile <> 0 ->
  (GetTileTrackStatus_Water' s tile true <> 0
   <-> GetFloodingBehaviour s tile = FLOOD_ACTIVE)
  /\ (GetTileTrackStatus_Water' s tile true <> 0
      <-> exists from, IsWateredTile' s tile from = Some true)
  /\ GetTileTrackStatus_Water' s tile false = 0.
Proof.
  intros Hcoast Hvalid Hx Hy.
  assert (Hhalf : half_flooded (tile_at s tile)) by (by left).
  pose proof (half_flooded_classified s tile Hhalf) as Hcl.
  assert (Hts : GetTileTrackStatus_Water' s tile true <> 0
                <-> IsSlopeWithOneCornerRaised (GetTileSlope s tile) = true).
  { unfold GetTileTrackStatus_Water, GetWaterTileType. destruct Hcoast as [_ ->].
    apply Z.eqb_neq in Hx, Hy. rewrite Hx, Hy. cbn [negb].
    rewrite <- (coast_tracks_valid_slope _ Hvalid).
    set (ts := default 0 (coast_tracks !! Z.to_nat (Z.land (GetTileSlope s tile) 15))).
    assert (H0 : 0 <= ts).
    { unfold ts. destruct (coast_tracks !! _) as [x|] eqn:E; [|done].
      apply list_elem_of_lookup_2 in E. cbn.
      repeat (apply elem_of_cons in E as [-> | E]; [done|]).
      by apply elem_of_nil in E. }
    by rewrite track_status_zero. }
  assert (Hact : IsSlopeWithOneCornerRaised (GetTileSlope s tile) = true
                 <-> GetFloodingBehaviour s tile = FLOOD_ACTIVE).
  { rewrite Hcl. by destruct (IsSlopeWithOneCornerRaised (GetTileSlope s tile)). }
  split; [by rewrite Hts|]. split; [|done].
  rewrite Hts, Hact. split.
  - intros Ha. rewrite Ha in Hcl.
    destruct (IsSlopeWithOneCornerRaised (GetTileSlope s tile)) eqn:Hone; [|done].
    destruct (one_corner_floodable _ Hone) as (from & _ & Hin).
    exists from. rewrite half_flooded_watered by done. by rewrite one_corner_watered.
  - intros (from & Hw). rewrite half_flooded_watered in Hw by done.
    injection Hw as Hw. apply half_watered_from_spec in Hw as [Hone _].
    by rewrite Hcl, Hone.
Qed.

(** X13.  The northern edges of the map.  On a tile of the north-east
    edge ([TileX] is 0) [GetTileTrackStatus_Water] reports, in neither
    direction, a track that touches that edge (the track along the X
    axis, the upper and the right one), and on a tile of the north-west
    edge ([TileY] is 0) none that touches that one (the track along the
    Y axis, the left and the upper one), whatever water tile it is. *)
Theorem GetTileTrackStatus_Water_edges (s : State) (tile : TileIndex) (water_mode : bool) :
  (TileX s tile = 0 ->
   Z.land (GetTileTrackStatus_Water' s tile water_mode)
          (TrackBitsToTrackdirBits
             (Z.lor (Z.lor TRACK_BIT_X TRACK_BIT_UPPER) TRACK_BIT_RIGHT)) = 0)
  /\ (TileY s tile = 0 ->
      Z.land (GetTileTrackStatus_Water' s tile water_mode)
             (TrackBitsToTrackdirBits
                (Z.lor (Z.lor TRACK_BIT_Y TRACK_BIT_LEFT) TRACK_BIT_UPPER)) = 0).
Proof.
  unfold GetTileTrackStatus_Water.
  destruct water_mode; cbn [negb]; [|by split].
  set (ts := match GetWaterTileType s tile with
             | WATER_TILE_CLEAR => if IsTileFlat s tile then TRACK_BIT_ALL else TRACK_BIT_NONE
             | WATER_TILE_COAST =>
               default 0 (coast_tracks !! Z.to_nat (Z.land (GetTileSlope s tile) 15))
             | WATER_TILE_LOCK => DiagDirToDiagTrackBits (GetLockDirection s tile)
             | WATER_TILE_DEPOT => AxisToTrackBits (GetShipDepotAxis s tile)
             end).
  assert (Hts : ts ∈ [0; 1; 2; 4; 8; 16; 32; 63]).
  { unfold ts. destruct (GetWaterTileType s tile).
    - destruct (IsTileFlat s tile); apply list_elem_of_In; vm_compute; tauto.
    - destruct (coast_tracks !! _) as [x|] eqn:E; [|apply list_elem_of_In; vm_compute; tauto].
      apply list_elem_of_lookup_2 in E. cbn [default].
      repeat (apply elem_of_cons in E as [-> | E];
              [apply list_elem_of_In; vm_compute; tauto|]).
      by apply elem_of_nil in E.
    - unfold DiagDirToDiagTrackBits.
      destruct (DiagDirToAxis _); apply list_elem_of_In; vm_compute; tauto.
    - destruct (GetShipDepotAxis s tile); apply list_elem_of_In; vm_compute; tauto. }
  clearbody ts.
  split; intros ->; cbn [Z.eqb].
  - destruct (TileY s tile =? 0);
      repeat (apply elem_of_cons in Hts as [-> | Hts]; [by vm_compute|]);
      by apply elem_of_nil in Hts.
  - destruct (TileX s tile =? 0);
      repeat (apply elem_of_cons in Hts as [-> | Hts]; [by vm_compute|]);
      by apply elem_of_nil in Hts.
Qed.

End WaterAccessorsProperties.

(** ** Restoring the water under a removed structure *)

Lemma kept_water_class_cases wc slope z valid :
  let r := kept_water_class wc slope z valid in
  (fst r = WATER_CLASS_SEA -> wc = WATER_CLASS_SEA /\ slope = SLOPE_FLAT /\ z <= 0)
  /\ (fst r = WATER_CLASS_CANAL ->
      slope = SLOPE_FLAT
      /\ (wc = WATER_CLASS_CANAL \/ (wc = WATER_CLASS_SEA /\ 0 < z)))
  /\ (fst r = WATER_CLASS_RIVER ->
      wc = WATER_CLASS_RIVER
      /\ (slope = SLOPE_FLAT \/ is_Some (GetInclinedSlopeDirection slope)))
  /\ snd r = (if valid
              then (if bool_decide (fst r = WATER_CLASS_CANAL) then 1 else 0)
                   - (if bool_decide (wc = WATER_CLASS_CANAL) then 1 else 0)
              else 0).
Proof.
  unfold kept_water_class.
  destruct (Z.eqb_spec slope SLOPE_FLAT) as [Hflat|Hsl]; cbn [negb].
  - destruct (Z.ltb_spec 0 z) as [Hz|Hz]; destruct wc, valid; cbn;
      repeat split; intros; try discriminate; try tauto; try lia.
  - destruct (GetInclinedSlopeDirection slope) as [d|] eqn:Hincl;
      destruct (Z.ltb_spec 0 z) as [Hz|Hz]; destruct wc, valid; cbn;
      repeat split; intros; try discriminate; try tauto; try lia;
      right; by eexists.
Qed.

(** X14.  [MakeWaterKeepingClass] restores water only where it can lie.
    The tile keeps its slope and height and ends up as bare land or as
    open water; sea is only restored flat at height 0 (sea above that
    comes back as canal), canal only on flat ground, river only on flat
    ground or on an inclined slope, and none of them where there was
    another class of water before.  The company's count of water
    infrastructure moves with the map: it changes by the canal tiles
    after the call minus the canal tiles before, and not at all when
    the owner is no valid company.  No other tile changes. *)
Theorem MakeWaterKeepingClass_restores (tile : TileIndex) (valid : bool) (s : State) :
  tile_type (tile_at s tile) <> MP_VOID ->
  let before := tile_at s tile in
  let after := tile_at (fst (MakeWaterKeepingClass tile valid s)) tile in
  tile_slope after = tile_slope before /\ tile_z after = tile_z before
  /\ ((tile_type after = MP_CLEAR /\ water_class after = WATER_CLASS_INVALID)
      \/ (tile_type after = MP_WATER /\ water_tile_type after = WATER_TILE_CLEAR
          /\ water_class after <> WATER_CLASS_INVALID))
  /\ (water_class after = WATER_CLASS_SEA ->
      water_class before = WATER_CLASS_SEA
      /\ tile_slope before = SLOPE_FLAT /\ tile_z before <= 0)
  /\ (water_class after = WATER_CLASS_CANAL ->
      tile_slope before = SLOPE_FLAT
      /\ (water_class before = WATER_CLASS_CANAL
          \/ (water_class before = WATER_CLASS_SEA /\ 0 < tile_z before)))
  /\ (water_class after = WATER_CLASS_RIVER ->
      water_class before = WATER_CLASS_RIVER
      /\ (tile_slope before = SLOPE_FLAT
          \/ is_Some (GetInclinedSlopeDirection (tile_slope before))))
  /\ snd (MakeWaterKeepingClass tile valid s)
     = (if valid
        then (if bool_decide (water_class after = WATER_CLASS_CANAL) then 1 else 0)
             - (if bool_decide (water_class before = WATER_CLASS_CANAL) then 1 else 0)
        else 0)
  /\ forall t, Z.to_nat t <> Z.to_nat tile ->
               tile_at (fst (MakeWaterKeepingClass tile valid s)) t = tile_at s t.
Proof.
  intros Hin before after.
  pose proof (kept_water_class_cases (GetWaterClass s tile) (GetTileSlope s tile)
                (GetTileZ s tile) valid) as Hk.
  cbv zeta in Hk. destruct Hk as (Hsea & Hcanal & Hriver & Hcount).
  assert (Hclr : tile_type (tile_at (DoClearSquare tile s) tile) <> MP_VOID).
  { by rewrite tile_at_DoClearSquare. }
  assert (Hafter : after
            = match fst (kept_water_class (GetWaterClass s tile) (GetTileSlope s tile)
                           (GetTileZ s tile) valid) with
              | WATER_CLASS_SEA => make_water WATER_TILE_CLEAR before
              | WATER_CLASS_CANAL =>
                set_water_class WATER_CLASS_CANAL (make_water WATER_TILE_CLEAR before)
              | WATER_CLASS_RIVER =>
                set_water_class WATER_CLASS_RIVER (make_water WATER_TILE_CLEAR before)
              | WATER_CLASS_INVALID => make_clear CLEAR_GRASS 0 before
              end).
  { unfold after, MakeWaterKeepingClass.
    destruct (kept_water_class _ _ _ _) as [wc count]. cbn [fst].
    unfold MarkTileDirtyByTile.
    change (tile_at (emit ?e ?x) tile) with (tile_at x tile).
    destruct wc; unfold MakeSea, MakeCanal, MakeRiver;
      rewrite ?tile_at_update_same by done; by rewrite tile_at_DoClearSquare. }
  assert (Hsnd : snd (MakeWaterKeepingClass tile valid s)
                 = snd (kept_water_class (GetWaterClass s tile) (GetTileSlope s tile)
                          (GetTileZ s tile) valid)).
  { unfold MakeWaterKeepingClass. by destruct (kept_water_class _ _ _ _). }
  assert (Hwc : water_class after
                = fst (kept_water_class (GetWaterClass s tile) (GetTileSlope s tile)
                         (GetTileZ s tile) valid)).
  { rewrite Hafter. by destruct (fst (kept_water_class _ _ _ _)). }
  unfold GetWaterClass, GetTileSlope, GetTileZ in *. fold before in Hsea, Hcanal, Hriver, Hcount, Hwc, Hafter, Hsnd.
  split; [rewrite Hafter; by destruct (fst (kept_water_class _ _ _ _))|].
  split; [rewrite Hafter; by destruct (fst (kept_water_class _ _ _ _))|].
  split.
  { rewrite Hafter. destruct (fst (kept_water_class _ _ _ _)); cbn; [right|right|right|left]; done. }
  rewrite Hwc, Hsnd.
  split; [exact Hsea|]. split; [exact Hcanal|]. split; [exact Hriver|]. split; [exact Hcount|].
  intros t Hne. unfold MakeWaterKeepingClass.
  destruct (kept_water_class _ _ _ _) as [wc count]. cbn [fst].
  unfold MarkTileDirtyByTile.
  change (tile_at (emit ?e ?x) t) with (tile_at x t).
  assert (Hc : tile_at (DoClearSquare tile s) t = tile_at s t).
  { unfold DoClearSquare, MarkTileDirtyByTile, MakeClear.
    change (tile_at (emit ?e ?x) t) with (tile_at x t).
    by rewrite tile_at_update_ne. }
  destruct wc; unfold MakeSea, MakeCanal, MakeRiver;
    rewrite ?tile_at_update_ne by done; exact Hc.
Qed.

(** ** Flooding the vehicles on a tile *)

(** X15.  No vehicle on the ground of a flooded tile is spared.
    [FloodVehicles] has to scan the tile itself at height 0, both heads
    of a bridge at the height of the bridge, or every tile of an airport
    at height 0; after the call every train and road vehicle that was on
    one of these tiles at or below the height of the scan is crashed,
    and so is every aircraft that stood on one of them when it is an
    airport tile at height 0.  Every vehicle that was in the pool is
    still in its place, as it was or marked crashed, and the map is
    untouched. *)
Theorem FloodVehicles_spares_none (t : TileIndex) (s : State) :
  let s' := FloodVehicles t s in
  crashed_more (vehicles s) (vehicles s')
  /\ tiles s' = tiles s
  /\ forall a z i v, flood_scanned s t a z ->
       vehicles s !! i = Some v -> veh_tile v = a ->
       ((veh_type v = VEH_TRAIN \/ veh_type v = VEH_ROAD) /\ veh_z_pos v <= z)
       \/ grounded_aircraft s v ->
       exists v', vehicles s' !! i = Some v' /\ veh_crashed v' = true.
Proof.
  unfold FloodVehicles.
  destruct (flood_targets_loop (FloodVehicles_targets s t) s) as (Hmore & Htiles & Hall).
  split; [exact Hmore|]. split; [exact Htiles|].
  intros a z i v Hscan Hv Ha Hground.
  apply flood_scanned_target in Hscan.
  exact (Hall a z i v Hscan Hv Ha Hground).
Qed.

(** * The further properties on the example maps *)

Lemma ConvertGroundTilesIntoWaterTiles_by_tile_witness :
  is_coast (tile_at (ConvertGroundTilesIntoWaterTiles ridge_land_state) (at_xy 5 4))
  /\ is_sea (tile_at (ConvertGroundTilesIntoWaterTiles ridge_land_state) (at_xy 6 5))
  /\ tile_at (ConvertGroundTilesIntoWaterTiles ridge_land_state) (at_xy 4 4)
     = tile_at ridge_land_state (at_xy 4 4).
Proof.
  assert (H1 : 0 <= at_xy 5 4) by (by vm_compute).
  assert (H2 : 0 <= at_xy 6 5) by (by vm_compute).
  assert (H3 : 0 <= at_xy 4 4) by (by vm_compute).
  rewrite (ConvertGroundTilesIntoWaterTiles_by_tile ridge_land_state (at_xy 5 4) H1).
  rewrite (ConvertGroundTilesIntoWaterTiles_by_tile ridge_land_state (at_xy 6 5) H2).
  rewrite (ConvertGroundTilesIntoWaterTiles_by_tile ridge_land_state (at_xy 4 4) H3).
  by vm_compute.
Defined.

Lemma ConvertGroundTilesIntoWaterTiles_frame_witness :
  length (tiles (ConvertGroundTilesIntoWaterTiles ridge_land_state))
  = length (tiles ridge_land_state).
Proof.
  assert (H : 0 <= at_xy 4 4) by (by vm_compute).
  exact (proj1 (proj2 (ConvertGroundTilesIntoWaterTiles_frame ridge_land_state
                         (at_xy 4 4) H))).
Defined.

Lemma no_ClearTile_other_keeps_heights : clear_keeps_heights no_ClearTile_other.
Proof. intros t s s' H. discriminate H. Defined.

Lemma no_FloodHalftile_keeps_heights : halftile_keeps_heights no_FloodHalftile.
Proof. intros t s u. split; reflexivity. Defined.

Lemma TileLoop_Water_keeps_heights_witness :
  exists s', ex_TileLoop_Water (at_xy 6 5) ridge_shore_state = Some s'
             /\ is_coast (tile_at s' (at_xy 5 4))
             /\ heights_kept ridge_shore_state s'.
Proof.
  eexists. split; [vm_compute; reflexivity|]. split; [by vm_compute|].
  apply (TileLoop_Water_keeps_heights no_ClearTile_other no_FloodHalftile
           (at_xy 6 5) ridge_shore_state _
           no_ClearTile_other_keeps_heights no_FloodHalftile_keeps_heights).
  vm_compute. reflexivity.
Defined.

Lemma TileLoop_Water_returns_witness :
  GetFloodingBehaviour ridge_dry_rail_state (at_xy 5 4) = FLOOD_DRYUP
  /\ ~ dryup_threatened ridge_dry_rail_state (at_xy 5 4)
  /\ exists s', ex_TileLoop_Water (at_xy 5 4) ridge_dry_rail_state = Some s'
                /\ ex_DoDryUp (at_xy 5 4) ridge_dry_rail_state = Some s'
                /\ GetRailGroundType s' (at_xy 5 4) = RAIL_GROUND_FENCE_HORIZ1.
Proof.
  assert (H : rail_ready_to_dry (tile_at ridge_dry_rail_state (at_xy 5 4))).
  { intros _ _. split; [by vm_compute|]. apply list_elem_of_In. vm_compute. tauto. }
  split; [by vm_compute|]. split.
  { intros (dir & Hin & _ & Hb). apply list_elem_of_In in Hin. vm_compute in Hin.
    destruct Hin as [<-|[<-|[<-|[]]]]; vm_compute in Hb; destruct Hb; discriminate. }
  destruct (TileLoop_Water_returns no_ClearTile_other no_FloodHalftile
              (at_xy 5 4) ridge_dry_rail_state H) as [s' Hs'].
  exists s'. split; [exact Hs'|].
  unfold ex_DoDryUp. vm_compute in Hs'. injection Hs' as <-.
  split; by vm_compute.
Defined.

Lemma canals_and_rivers_take_no_part_witness :
  ex_TileLoop_Water (at_xy 4 4) ridge_canal_state
  = Some (AmbientSoundEffect (at_xy 4 4) ridge_canal_state).
Proof.
  assert (H : is_canal_or_river_tile (tile_at ridge_canal_state (at_xy 4 4))).
  { split; [by vm_compute|]. split; [by vm_compute|]. left. by vm_compute. }
  exact (proj1 (proj2 (canals_and_rivers_take_no_part no_ClearTile_other no_FloodHalftile
                         ridge_canal_state (at_xy 4 4) H))).
Defined.

Lemma flooded_neighbour_is_not_dried_up_witness :
  GetFloodingBehaviour (fst (ex_flood_dir (at_xy 6 5) (ridge_shore_state, false) DIR_N))
                       (neighbour ridge_shore_state (at_xy 6 5) DIR_N) = FLOOD_DRYUP
  /\ ex_TileLoop_Water (neighbour ridge_shore_state (at_xy 6 5) DIR_N)
       (fst (ex_flood_dir (at_xy 6 5) (ridge_shore_state, false) DIR_N))
     = Some (AmbientSoundEffect (neighbour ridge_shore_state (at_xy 6 5) DIR_N)
               (fst (ex_flood_dir (at_xy 6 5) (ridge_shore_state, false) DIR_N))).
Proof.
  assert (Hx : 0 < map_size_x ridge_shore_state) by (by vm_compute).
  assert (Ht : 0 <= at_xy 6 5 < Map_Size ridge_shore_state) by (by vm_compute).
  assert (Hmax : Map_Size ridge_shore_state <= INVALID_TILE) by (by vm_compute).
  assert (Hact : GetFloodingBehaviour ridge_shore_state (at_xy 6 5) = FLOOD_ACTIVE)
    by (by vm_compute).
  assert (Hsk : flood_skipped ridge_shore_state (at_xy 6 5) DIR_N = false)
    by (by vm_compute).
  assert (Hel : flood_ineligible ridge_shore_state (at_xy 6 5) DIR_N = false)
    by (by vm_compute).
  assert (Hty : GetTileType ridge_shore_state
                  (neighbour ridge_shore_state (at_xy 6 5) DIR_N) = MP_CLEAR
                \/ GetTileType ridge_shore_state
                     (neighbour ridge_shore_state (at_xy 6 5) DIR_N) = MP_TREES)
    by (left; by vm_compute).
  assert (Hf : tile_foundation
                 (tile_at ridge_shore_state
                    (neighbour ridge_shore_state (at_xy 6 5) DIR_N)) = None)
    by (by vm_compute).
  assert (Hsl : GetTileSlope ridge_shore_state
                  (neighbour ridge_shore_state (at_xy 6 5) DIR_N) <> SLOPE_FLAT)
    by (by vm_compute).
  assert (Hone : IsSlopeWithOneCornerRaised
                   (GetTileSlope ridge_shore_state
                      (neighbour ridge_shore_state (at_xy 6 5) DIR_N)) = false)
    by (by vm_compute).
  pose proof (flooded_neighbour_is_not_dried_up no_ClearTile_other no_FloodHalftile
                (at_xy 6 5) ridge_shore_state false DIR_N
                Hx Ht Hmax Hact Hsk Hel Hty Hf Hsl Hone) as H.
  cbv zeta in H. destruct H as (Hdry & _ & _ & Hloop).
  split; [exact Hdry|].
  assert (Hw : IsTileType (fst (ex_flood_dir (at_xy 6 5) (ridge_shore_state, false) DIR_N))
                 (neighbour ridge_shore_state (at_xy 6 5) DIR_N) MP_WATER = true)
    by (by vm_compute).
  unfold ex_TileLoop_Water, ex_flood_dir in *. rewrite Hloop, Hw. reflexivity.
Defined.

Lemma IsWateredTile_half_flooded_witness :
  ex_IsWateredTile ridge_shore_state (at_xy 5 5) DIR_SE = Some true
  /\ ex_IsWateredTile ridge_shore_state (at_xy 5 5) DIR_NE = Some false.
Proof.
  assert (H : half_flooded (tile_at ridge_shore_state (at_xy 5 5))).
  { left. split; by vm_compute. }
  pose proof (proj2 (proj2 (IsWateredTile_half_flooded
                              (fun _ _ => DIAGDIR_NE) (fun _ _ => 0) (fun _ _ => false)
                              (fun _ _ => DIAGDIR_NE) ridge_shore_state (at_xy 5 5) H)))
    as Hdiag.
  unfold ex_IsWateredTile.
  rewrite (Hdiag DIR_SE eq_refl), (Hdiag DIR_NE eq_refl). by vm_compute.
Defined.

Lemma GetTileTrackStatus_Water_coast_witness :
  ex_GetTileTrackStatus_Water ridge_shore_state (at_xy 5 5) true <> 0.
Proof.
  assert (Hc : is_coast (tile_at ridge_shore_state (at_xy 5 5))) by (split; by vm_compute).
  assert (Hv : valid_slope (GetTileSlope ridge_shore_state (at_xy 5 5)))
    by (left; by vm_compute).
  assert (Hx : TileX ridge_shore_state (at_xy 5 5) <> 0) by (by vm_compute).
  assert (Hy : TileY ridge_shore_state (at_xy 5 5) <> 0) by (by vm_compute).
  apply (proj1 (GetTileTrackStatus_Water_coast
                  (fun _ _ => DIAGDIR_NE) (fun _ _ => AXIS_X) (fun _ _ => 0)
                  (fun _ _ => false) (fun _ _ => DIAGDIR_NE)
                  ridge_shore_state (at_xy 5 5) Hc Hv Hx Hy)).
  by vm_compute.
Defined.

Lemma MakeWaterKeepingClass_restores_witness :
  water_class (tile_at (fst (MakeWaterKeepingClass (at_xy 4 4) true ridge_canal_state))
                       (at_xy 4 4)) = WATER_CLASS_CANAL
  /\ snd (MakeWaterKeepingClass (at_xy 4 4) true ridge_canal_state) = 0
  /\ tile_at (fst (MakeWaterKeepingClass (at_xy 4 4) true ridge_canal_state)) (at_xy 5 5)
     = tile_at ridge_canal_state (at_xy 5 5).
Proof.
  assert (H : tile_type (tile_at ridge_canal_state (at_xy 4 4)) <> MP_VOID)
    by (by vm_compute).
  pose proof (MakeWaterKeepingClass_restores (at_xy 4 4) true ridge_canal_state H) as Hr.
  cbv zeta in Hr. destruct Hr as (_ & _ & _ & _ & _ & _ & Hcount & Hother).
  split; [by vm_compute|]. split.
  - rewrite Hcount. by vm_compute.
  - apply Hother. by vm_compute.
Defined.

Lemma dried_up_tile_is_inert_witness :
  exists s', ex_DoDryUp (at_xy 4 5) lone_coast_state = Some s'
             /\ GetFloodingBehaviour s' (at_xy 4 5) = FLOOD_NONE
             /\ ex_TileLoop_Water (at_xy 4 5) s' = Some s'.
Proof.
  assert (Hdry : GetFloodingBehaviour lone_coast_state (at_xy 4 5) = FLOOD_DRYUP)
    by (by vm_compute).
  eexists. split; [vm_compute; reflexivity|].
  match goal with
  | |- GetFloodingBehaviour ?s' _ = _ /\ _ =>
    assert (Hrun : DoDryUp no_ClearTile_other (at_xy 4 5) lone_coast_state = Some s')
      by (vm_compute; reflexivity);
    destruct (dried_up_tile_is_inert no_ClearTile_other no_FloodHalftile
                (at_xy 4 5) lone_coast_state s' Hdry Hrun)
      as [(Hnone & _ & Hloop) | (_ & Hveh & _)]
  end.
  - split; [exact Hnone|exact Hloop].
  - exfalso. by vm_compute in Hveh.
Defined.
